(** * Mapty: workout records, persistence and the application controller

    A shallow embedding of [script.js]: JavaScript values, the binary64
    numbers the script computes with, the two record classes [Running] and
    [Cycling], and the methods of [App] written in a state and exception
    monad over the application's private fields, the browser's
    [localStorage], the clock and the calls made to the map widget and the
    page. *)

From Stdlib Require Import ZArith QArith Qabs Lia Bool List Ascii String.
From Stdlib Require Import Floats.SpecFloat.
From stdpp Require Import base option list strings pretty gmap.

Local Open Scope string_scope.
Local Open Scope list_scope.
Local Open Scope Z_scope.
Local Set Warnings "-register-all".

(** ** Numbers

    A JavaScript number is an IEEE 754 binary64 value: [spec_float] with a
    53 bit significand and infinities at exponent 1024.  [S754_finite s m e]
    is the number (-1)^s * m * 2^e. *)

Module Num.

Definition prec : Z := 53.
Definition emax : Z := 1024.

Definition div : spec_float -> spec_float -> spec_float := SFdiv prec emax.
Definition ltb : spec_float -> spec_float -> bool := SFltb.
Definition eqb : spec_float -> spec_float -> bool := SFeqb.

Definition zero : spec_float := S754_zero false.
Definition NaN : spec_float := S754_nan.
Definition Infinity : spec_float := S754_infinity false.

(** The number of an integer: exact below 2^53, rounded to nearest even
    above. *)
Definition of_Z (z : Z) : spec_float := binary_normalize prec emax z 0 false.

(** The number nearest to [p / q] for [0 <= p]: one correctly rounded
    division of two exact integers. *)
Definition of_frac (p : Z) (q : positive) : spec_float :=
  match p with
  | Zpos p' => div (S754_finite false p' 0) (S754_finite false q 0)
  | _ => zero
  end.

(** The number a decimal literal [s]e[p] denotes, [0 <= s]. *)
Definition of_dec (s p : Z) : spec_float :=
  match p with
  | Zneg p' => of_frac s (10 ^ p')%positive
  | _ => of_Z (s * 10 ^ p)
  end.

(** [Number.isFinite]. *)
Definition isFinite (x : spec_float) : bool :=
  match x with
  | S754_zero _ | S754_finite _ _ _ => true
  | S754_infinity _ | S754_nan => false
  end.

Definition is_neg_zero (x : spec_float) : bool :=
  match x with S754_zero true => true | _ => false end.

(** The magnitude [m * 2^e] as a fraction of two integers. *)
Definition mag_num (m : positive) (e : Z) : Z := Z.pos m * 2 ^ Z.max e 0.
Definition mag_den (e : Z) : Z := 2 ^ Z.max (- e) 0.

(** The exact rational value of a finite number (0 for the others). *)
Definition to_Q (x : spec_float) : Q :=
  match x with
  | S754_finite s m e =>
      Qmake ((if s then -1 else 1) * mag_num m e) (Z.to_pos (mag_den e))
  | _ => 0%Q
  end.

(** *** Number::toString

    ECMA-262, Number::toString(x, 10): the shortest decimal [s] of [k]
    digits with [s * 10^(n-k)] rounding to [x]; of two such [s] the one
    nearer to [x].  Seventeen digits determine a binary64 number, so the
    search stops there. *)

Definition digits10 (z : Z) : Z := Z.of_nat (String.length (pretty z)).

(** [v * 10^j] for the fraction [v = p / q]. *)
Definition scale10 (p q : Z) (j : Z) : Z * Z :=
  if 0 <=? j then (p * 10 ^ j, q) else (p, q * 10 ^ (- j)).

(** The [n] with [10^(n-1) <= p/q < 10^n]. *)
Definition exp10 (p q : Z) : Z :=
  let n := digits10 p - digits10 q in
  let '(a, b) := scale10 p q (- n) in
  if a <? b then n else n + 1.

Definition rounds_to (x : spec_float) (s n k : Z) : bool :=
  eqb (of_dec s (n - k)) x.

Fixpoint shortest (fuel : nat) (x : spec_float) (p q n k : Z) : Z * Z :=
  let '(a, b) := scale10 p q (k - n) in
  let lo := a / b in
  let hi := lo + 1 in
  let nearer := if 2 * a <? (lo + hi) * b then lo
                else if (lo + hi) * b <? 2 * a then hi
                else if Z.even lo then lo else hi in
  let norm s := if s =? 10 ^ k then (1, n + 1) else (s, n) in
  match fuel with
  | O => norm nearer
  | S fuel' =>
      let ok_lo := rounds_to x lo n k in
      let ok_hi := rounds_to x hi n k && ((k =? 1) || negb (hi =? 10 ^ k)) in
      if ok_lo && ok_hi then norm nearer
      else if ok_lo then (lo, n)
      else if ok_hi then norm hi
      else shortest fuel' x p q n (k + 1)
  end.

Definition zeros (n : Z) : string :=
  String.concat "" (replicate (Z.to_nat n) "0").

Definition positive_toString (m : positive) (e : Z) : string :=
  let p := mag_num m e in
  let q := mag_den e in
  let n0 := exp10 p q in
  let '(s, n) := shortest 16 (S754_finite false m e) p q n0 1 in
  let ds := pretty s in
  let k := digits10 s in
  if (k <=? n) && (n <=? 21) then ds +:+ zeros (n - k)
  else if (0 <? n) && (n <=? 21) then
    String.substring 0 (Z.to_nat n) ds +:+ "." +:+
    String.substring (Z.to_nat n) (Z.to_nat (k - n)) ds
  else if (-6 <? n) && (n <=? 0) then "0." +:+ zeros (- n) +:+ ds
  else
    let ex := (if 0 <=? n - 1 then "e+" else "e-") +:+ pretty (Z.abs (n - 1)) in
    if k =? 1 then ds +:+ ex
    else String.substring 0 1 ds +:+ "." +:+
         String.substring 1 (Z.to_nat (k - 1)) ds +:+ ex.

Definition toString (x : spec_float) : string :=
  match x with
  | S754_nan => "NaN"
  | S754_zero _ => "0"
  | S754_infinity s => if s then "-Infinity" else "Infinity"
  | S754_finite s m e =>
      (if s then "-" else "") +:+ positive_toString m e
  end.

(** *** Number.prototype.toFixed(1)

    ECMA-262: for a finite [x] below 10^21 in magnitude, the integer [n]
    for which [n / 10 - x] is as close to zero as possible, the larger of
    two such [n]; its digits with a point before the last one. *)

Definition tenths (m : positive) (e : Z) : Z :=
  (20 * mag_num m e + mag_den e) / (2 * mag_den e).

Definition fixed1 (n : Z) : string :=
  pretty (n / 10) +:+ "." +:+ pretty (n mod 10).

Definition toFixed1 (x : spec_float) : string :=
  match x with
  | S754_finite s m e =>
      (if s then "-" else "") +:+
      (if 10 ^ 21 * mag_den e <=? mag_num m e then positive_toString m e
       else fixed1 (tenths m e))
  | S754_zero _ => fixed1 0
  | _ => toString x
  end.

End Num.

(** ** Dates

    A [Date] object holds a time value: milliseconds since the epoch, UTC.
    The day arithmetic is that of ECMA-262 (Day, TimeWithinDay,
    YearFromTime, MonthFromTime, DateFromTime) in closed form. *)

Module Date.

Definition msPerDay : Z := 86400000.
Definition Day (t : Z) : Z := t / msPerDay.
Definition TimeWithinDay (t : Z) : Z := t mod msPerDay.

(** Year, month (0 to 11) and day of the month (1 to 31) of a day number. *)
Definition civil (d : Z) : Z * Z * Z :=
  let z := d + 719468 in
  let era := z / 146097 in
  let doe := z mod 146097 in
  let yoe := (doe - doe / 1460 + doe / 36524 - doe / 146096) / 365 in
  let doy := doe - (365 * yoe + yoe / 4 - yoe / 100) in
  let mp := (5 * doy + 2) / 153 in
  let day := doy - (153 * mp + 2) / 5 + 1 in
  let m := if mp <? 10 then mp + 3 else mp - 9 in
  (yoe + era * 400 + (if m <=? 2 then 1 else 0), m - 1, day).

(** [tz t] is the offset of local time from UTC at [t], in milliseconds. *)
Definition getMonth (tz : Z -> Z) (t : Z) : Z := snd (fst (civil (Day (t + tz t)))).
Definition getDate (tz : Z -> Z) (t : Z) : Z := snd (civil (Day (t + tz t))).
Definition getTime (t : Z) : spec_float := Num.of_Z t.

Definition pad (w : Z) (n : Z) : string :=
  Num.zeros (w - Num.digits10 n) +:+ pretty n.

Definition toISOString (t : Z) : string :=
  let '(y, m, d) := civil (Day t) in
  let r := TimeWithinDay t in
  (if (0 <=? y) && (y <=? 9999) then pad 4 y
   else (if y <? 0 then "-" else "+") +:+ pad 6 (Z.abs y)) +:+
  "-" +:+ pad 2 (m + 1) +:+ "-" +:+ pad 2 d +:+
  "T" +:+ pad 2 (r / 3600000) +:+ ":" +:+ pad 2 (r / 60000 mod 60) +:+
  ":" +:+ pad 2 (r / 1000 mod 60) +:+ "." +:+ pad 3 (r mod 1000) +:+ "Z".

End Date.

(** ** Values

    Objects are association lists in property creation order, which is the
    order [JSON.stringify] writes them in.  Prototypes are not represented:
    the script reads data properties only. *)

Inductive value : Type :=
  | VUndefined
  | VNull
  | VBool (b : bool)
  | VNum (x : spec_float)
  | VStr (s : string)
  | VDate (t : Z)
  | VArr (l : list value)
  | VObj (fs : list (string * value)).

Inductive error : Type := TypeError | SyntaxError.

Inductive result (A : Type) : Type :=
  | Ok (a : A)
  | Throw (e : error).
Arguments Ok {A} a.
Arguments Throw {A} e.

Definition lookup_field {A} (k : string) (fs : list (string * A)) : option A :=
  snd <$> List.find (fun kv => bool_decide (fst kv = k)) fs.

(** [o.k] for the property names the script reads ([type], [id], [coords],
    ...): a [TypeError] on [undefined] and [null], the own property of an
    object, [undefined] elsewhere. *)
Definition get (o : value) (k : string) : result value :=
  match o with
  | VUndefined | VNull => Throw TypeError
  | VObj fs => Ok (default VUndefined (lookup_field k fs))
  | _ => Ok VUndefined
  end.

(** [a === b] with [b] a number, and with [b] a string. *)
Definition strict_eq_num (a : value) (b : spec_float) : bool :=
  match a with VNum x => Num.eqb x b | _ => false end.
Definition strict_eq_str (a : value) (b : string) : bool :=
  match a with VStr s => bool_decide (s = b) | _ => false end.

(** ToBoolean. *)
Definition truthy (v : value) : bool :=
  match v with
  | VUndefined | VNull => false
  | VBool b => b
  | VNum (S754_zero _) | VNum S754_nan => false
  | VStr "" => false
  | _ => true
  end.

(** ToString, as a template literal applies it to an interpolated value,
    returns a string or throws a [TypeError]; [converts] tells which.  The
    values of the script hold no function (records are built from numbers,
    strings, arrays and a [Date]; JSON has none), so for an object with a
    [toString] key of its own OrdinaryToPrimitive finds no method that
    returns a primitive: the own [toString] is not callable, and [valueOf],
    inherited or own, returns the object or is not callable either.  An
    object without such a key prints through [Object.prototype.toString],
    an array as its elements joined ([undefined] and [null] as nothing), a
    [Date] through [Date.prototype.toString]. *)
Fixpoint converts (v : value) : bool :=
  match v with
  | VArr l => forallb converts l
  | VObj fs =>
      match lookup_field "toString" fs with Some _ => false | None => true end
  | _ => true
  end.

(** [${v}]: the value goes into the text, the text itself is the engine's;
    the exception is that of ToString. *)
Definition interpolate (v : value) : result value :=
  if converts v then Ok v else Throw TypeError.

(** ** The workout classes *)

Definition nl : string := String "010"%char "".

Definition months : list string :=
  ["January"; "February"; "March"; "April"; "May"; "June"; "July";
   "August"; "September"; "October"; "November"; "December"].

Definition toUpperCase (c : ascii) : ascii :=
  let n := nat_of_ascii c in
  if ((97 <=? n) && (n <=? 122))%nat then ascii_of_nat (n - 32) else c.

(** [this.type[0].toUpperCase() + this.type.slice(1)], then the template's
    line breaks and indentation, the month name and the day of the month in
    local time. *)
Definition _setDescription (tz : Z -> Z) (type : string) (date : Z) : string :=
  match type with
  | String c rest => String (toUpperCase c) rest
  | EmptyString => ""
  end +:+ nl +:+ "      on" +:+ nl +:+ "      " +:+
  default "undefined" (months !! Z.to_nat (Date.getMonth tz date)) +:+
  nl +:+ "      " +:+ pretty (Date.getDate tz date).

(** The fields of the base class: [date = new Date()] at clock reading
    [now], [id = this.date.getTime()], then the constructor's assignments. *)
Definition Workout (now : Z) (coords : value) (distance duration : spec_float)
  : list (string * value) :=
  [("date", VDate now); ("id", VNum (Date.getTime now)); ("coords", coords);
   ("distance", VNum distance); ("duration", VNum duration)].

Definition calcPace (distance duration : spec_float) : value :=
  VStr (Num.toFixed1 (Num.div duration distance)).

Definition calcSpeed (distance duration : spec_float) : value :=
  VStr (Num.toFixed1 (Num.div distance (Num.div duration (Num.of_Z 60)))).

Definition Running (tz : Z -> Z) (now : Z) (coords : value)
    (distance duration cadence : spec_float) : value :=
  VObj (Workout now coords distance duration ++
        [("type", VStr "running"); ("cadence", VNum cadence);
         ("pace", calcPace distance duration);
         ("description", VStr (_setDescription tz "running" now))]).

Definition Cycling (tz : Z -> Z) (now : Z) (coords : value)
    (distance duration elevation : spec_float) : value :=
  VObj (Workout now coords distance duration ++
        [("type", VStr "cycling"); ("elevation", VNum elevation);
         ("speed", calcSpeed distance duration);
         ("description", VStr (_setDescription tz "cycling" now))]).

(** ** JSON

    A JSON text is held as the document it denotes: the spelling of
    numbers (Number::toString, read back by the parser to the same number)
    and the quoting of strings are the engine's.  The numbers of a document
    are finite. *)

Inductive json : Type :=
  | JNull
  | JBool (b : bool)
  | JNum (x : spec_float)
  | JStr (s : string)
  | JArr (l : list json)
  | JObj (fs : list (string * json)).

(** SerializeJSONProperty: [None] is the result [undefined]. A [Date] is
    written through [toJSON], a number that is not finite as [null], and
    [-0] as [0]; in an array [undefined] becomes [null], in an object the
    property is left out. *)
Fixpoint SerializeJSONProperty (v : value) : option json :=
  match v with
  | VUndefined => None
  | VNull => Some JNull
  | VBool b => Some (JBool b)
  | VNum x =>
      Some (if Num.isFinite x
            then JNum (if Num.is_neg_zero x then Num.zero else x)
            else JNull)
  | VStr s => Some (JStr s)
  | VDate t => Some (JStr (Date.toISOString t))
  | VArr l =>
      Some (JArr (List.map (fun v => default JNull (SerializeJSONProperty v)) l))
  | VObj fs =>
      Some (JObj (omap (fun kv => pair (fst kv) <$> SerializeJSONProperty (snd kv)) fs))
  end.

(** CreateDataProperty on an ordinary object: a present key keeps its
    place and takes the new value, a new key goes last.  (Keys that are
    array indices, which an engine lists first, do not occur in the
    script's records.) *)
Fixpoint set_field {A} (k : string) (v : A) (fs : list (string * A))
  : list (string * A) :=
  match fs with
  | [] => [(k, v)]
  | (k', v') :: fs' =>
      if bool_decide (k' = k) then (k', v) :: fs'
      else (k', v') :: set_field k v fs'
  end.

(** The value of a JSON document, as [JSON.parse] builds it. *)
Fixpoint internalize (j : json) : value :=
  match j with
  | JNull => VNull
  | JBool b => VBool b
  | JNum x => VNum x
  | JStr s => VStr s
  | JArr l => VArr (List.map internalize l)
  | JObj fs =>
      VObj (fold_left (fun acc kv => set_field (fst kv) (snd kv) acc)
              (List.map (fun kv => (fst kv, internalize (snd kv))) fs) [])
  end.

(** What a [localStorage] entry holds: the text of a JSON document, or a
    text that is not JSON. *)
Inductive blob : Type :=
  | JSONText (j : json)
  | OtherText (s : string).

(** [JSON.stringify(v)] as the string handed to [setItem]; the result
    [undefined] is stored as the text "undefined". *)
Definition JSON_stringify (v : value) : blob :=
  match SerializeJSONProperty v with
  | Some j => JSONText j
  | None => OtherText "undefined"
  end.

(** [JSON.parse(x)] for [x] the result of [getItem]: [null] (no entry) is
    read as the text "null"; a text that is not JSON is a [SyntaxError]. *)
Definition JSON_parse (x : option blob) : result value :=
  match x with
  | None => Ok VNull
  | Some (JSONText j) => Ok (internalize j)
  | Some (OtherText _) => Throw SyntaxError
  end.

(** ** The page and the map widget

    Calls on the collaborators are recorded in the order they are made,
    with the values the script passes. *)

Inductive handler : Type :=
  | H_toggleElevationForm
  | H_newWorkout
  | H_moveToPopup
  | H_showForm.

(** The values interpolated into the list entry's markup. *)
Record entry : Type := Entry {
  entry_type : value;
  entry_id : value;
  entry_description : value;
  entry_isCycling : bool;
  entry_distance : value;
  entry_duration : value;
  entry_metric : value;
  entry_extra : value
}.

Inductive call : Type :=
  | L_map_setView (container : string) (coords : value) (zoom : spec_float)
  | L_tileLayer_addTo (url attribution : string)
  | map_on (event : string) (h : handler)
  | map_setView (coords : value) (zoom : spec_float) (animate : bool)
                (duration : spec_float)
  | L_marker_openPopup (coords icon : value) (isCycling : bool)
                       (description type : value)
  | L_marker_addTo (coords icon : value)
  | form_insertAdjacentHTML (e : entry)
  | addEventListener (target event : string) (h : handler)
  | preventDefault
  | alert (msg : string)
  | form_classList_remove (class : string)
  | form_classList_add (class : string)
  | form_style_display (display : string)
  | setTimeout_form_style_display (display : string) (ms : Z)
  | inputDistance_focus
  | inputs_clear
  | form_row_classList_toggle (input class : string)
  | location_reload.

(** The private fields of [App] and [markerIcon]. *)
Record App : Type := mkApp {
  map : bool;
  mapZoomLevel : spec_float;
  mapEvent : value;
  workouts : value;
  markerIcon : value
}.

Record world : Type := mkWorld {
  app : App;
  localStorage : gmap string blob;
  clock : Z;
  tz : Z -> Z;
  calls : list call
}.

(** ** The monad: state, and exceptions that keep the state reached *)

Definition M (A : Type) : Type := world -> result A * world.

#[export] Instance M_ret : MRet M := fun A a w => (Ok a, w).
#[export] Instance M_bind : MBind M := fun A B f m w =>
  match m w with
  | (Ok a, w') => f a w'
  | (Throw e, w') => (Throw e, w')
  end.
#[export] Instance M_throw : MThrow error M := fun A e w => (Throw e, w).

Definition lift {A} (r : result A) : M A := fun w => (r, w).
Definition gets {A} (f : world -> A) : M A := fun w => (Ok (f w), w).
Definition modify_app (f : App -> App) : M unit := fun w =>
  (Ok tt, mkWorld (f (app w)) (localStorage w) (clock w) (tz w) (calls w)).
Definition do_call (c : call) : M unit := fun w =>
  (Ok tt, mkWorld (app w) (localStorage w) (clock w) (tz w) (calls w ++ [c])).
Definition setItem (k : string) (b : blob) : M unit := fun w =>
  (Ok tt, mkWorld (app w) (<[k := b]> (localStorage w)) (clock w) (tz w) (calls w)).
Definition removeItem (k : string) : M unit := fun w =>
  (Ok tt, mkWorld (app w) (delete k (localStorage w)) (clock w) (tz w) (calls w)).
Definition getItem (k : string) : M (option blob) :=
  gets (fun w => localStorage w !! k).

(** [l.forEach(f)]: in order, stopping at the first exception. *)
Fixpoint forEach {A} (f : A -> M unit) (l : list A) : M unit :=
  match l with
  | [] => mret tt
  | x :: l' => f x ;; forEach f l'
  end.

(** [l.find(p)]: the first element [p] accepts, [undefined] if none. *)
Fixpoint find (p : value -> result bool) (l : list value) : result value :=
  match l with
  | [] => Ok VUndefined
  | x :: l' =>
      match p x with
      | Throw e => Throw e
      | Ok true => Ok x
      | Ok false => find p l'
      end
  end.

(** ** The application *)

Definition with_map (b : bool) (a : App) : App :=
  mkApp b (mapZoomLevel a) (mapEvent a) (workouts a) (markerIcon a).
Definition with_mapEvent (v : value) (a : App) : App :=
  mkApp (map a) (mapZoomLevel a) v (workouts a) (markerIcon a).
Definition with_workouts (v : value) (a : App) : App :=
  mkApp (map a) (mapZoomLevel a) (mapEvent a) v (markerIcon a).
Definition with_markerIcon (v : value) (a : App) : App :=
  mkApp (map a) (mapZoomLevel a) (mapEvent a) (workouts a) v.

(** The field initialisers: [#mapZoomLevel = 17], [#workouts = []]. *)
Definition fresh_App : App :=
  mkApp false (Num.of_Z 17) VUndefined (VArr []) VUndefined.

Definition tile_url : string := "https://tile.openstreetmap.fr/hot/{z}/{x}/{y}.png".

Definition quote : string := String "034"%char "".

Definition tile_attribution : string :=
  "&copy; <a href=" +:+ quote +:+ "https://www.openstreetmap.org/copyright" +:+
  quote +:+ ">OpenStreetMap</a> contributors".

(** [const coords = [36.27, 49.99435]]. *)
Definition map_center : value :=
  VArr [VNum (Num.of_dec 3627 (-2)); VNum (Num.of_dec 4999435 (-5))].

Definition _loadMap (position : value) : M unit :=
  let position_coords :=
    match position with
    | VUndefined | VNull => Ok VUndefined
    | _ => get position "coords"
    end in
  pc ← lift position_coords;
  let source :=
    if truthy pc then pc
    else VObj [("latitude", VNum Num.zero); ("longitude", VNum Num.zero)] in
  latitude ← lift (get source "latitude");
  longitude ← lift (get source "longitude");
  let coords := map_center in
  zoom ← gets (fun w => mapZoomLevel (app w));
  do_call (L_map_setView "map" coords zoom);;
  modify_app (with_map true);;
  do_call (L_tileLayer_addTo tile_url tile_attribution);;
  do_call (map_on "click" H_showForm).

Definition _setMarkerIcon : M unit :=
  let pt (a b : Z) := VArr [VNum (Num.of_Z a); VNum (Num.of_Z b)] in
  modify_app (with_markerIcon
    (VObj [("iconUrl", VStr "./images/Map-Marker-Free-Download-PNG.png");
           ("iconSize", pt 50 50); ("iconAnchor", pt 23 55);
           ("popupAnchor", pt 0 (-50))])).

Definition _setLocalStorage : M unit :=
  ws ← gets (fun w => workouts (app w));
  setItem "workouts" (JSON_stringify ws).

(** The template literal is evaluated left to right, each interpolated
    value converted as it is reached, before [insertAdjacentHTML] is
    called. *)
Definition _renderWorkout (workout : value) : M unit :=
  type ← lift (get workout "type");
  let isCycling := strict_eq_str type "cycling" in
  type ← lift (interpolate type);
  id ← lift (get workout "id");
  id ← lift (interpolate id);
  description ← lift (get workout "description");
  description ← lift (interpolate description);
  distance ← lift (get workout "distance");
  distance ← lift (interpolate distance);
  duration ← lift (get workout "duration");
  duration ← lift (interpolate duration);
  metric ← lift (get workout (if isCycling then "speed" else "pace"));
  metric ← lift (interpolate metric);
  extra ← lift (get workout (if isCycling then "elevation" else "cadence"));
  extra ← lift (interpolate extra);
  do_call (form_insertAdjacentHTML
    (Entry type id description isCycling distance duration metric extra)).

(** The title is built first; [addTo(this.#map)] needs the map (Leaflet
    calls [map.addLayer]); the popup's options, with the class name
    [`${workout.type}-popup`], are evaluated once the marker is on the map,
    so that a type ToString cannot convert leaves the marker there without
    its popup. *)
Definition _renderWorkoutMarker (workout : value) : M unit :=
  type ← lift (get workout "type");
  let isCycling := strict_eq_str type "cycling" in
  description ← lift (get workout "description");
  description ← lift (interpolate description);
  coords ← lift (get workout "coords");
  icon ← gets (fun w => markerIcon (app w));
  m ← gets (fun w => map (app w));
  if m : bool then
    type ← lift (get workout "type");
    if converts type then
      do_call (L_marker_openPopup coords icon isCycling description type)
    else
      do_call (L_marker_addTo coords icon);;
      mthrow TypeError
  else mthrow TypeError.

Definition _getLocalStorage : M unit :=
  item ← getItem "workouts";
  data ← lift (JSON_parse item);
  if negb (truthy data) then mret tt
  else
    modify_app (with_workouts data);;
    match data with
    | VArr l =>
        forEach (fun work => _renderWorkout work;; _renderWorkoutMarker work) l
    | _ => mthrow TypeError
    end.

(** The form at a submit: [inputType.value] and the four fields after the
    unary plus. *)
Record fields : Type := Fields {
  inputType : string;
  inputDistance : spec_float;
  inputDuration : spec_float;
  inputCadence : spec_float;
  inputElevation : spec_float
}.

Definition validInputs (inputs : list spec_float) : bool :=
  forallb Num.isFinite inputs.

Definition allPositive (inputs : list spec_float) : bool :=
  forallb (fun input => Num.ltb Num.zero input) inputs.

Definition alert_text : string := "inputs have to be posetive numbers".

Definition _hideForm : M unit :=
  do_call (form_style_display "none");;
  do_call (form_classList_add "hidden");;
  do_call (setTimeout_form_style_display "grid" 100);;
  do_call inputs_clear.

Definition push (x : value) : M unit :=
  ws ← gets (fun w => workouts (app w));
  match ws with
  | VArr l => modify_app (with_workouts (VArr (l ++ [x])))
  | _ => mthrow TypeError
  end.

Definition _newWorkout (f : fields) : M unit :=
  do_call preventDefault;;
  mapE ← gets (fun w => mapEvent (app w));
  latlng ← lift (get mapE "latlng");
  lat ← lift (get latlng "lat");
  lng ← lift (get latlng "lng");
  let coords := VArr [lat; lng] in
  let type := inputType f in
  let distance := inputDistance f in
  let duration := inputDuration f in
  let cadence := inputCadence f in
  let elevation := inputElevation f in
  let workout := VUndefined in
  if bool_decide (type = "running") &&
     (negb (validInputs [distance; duration; cadence]) ||
      negb (allPositive [distance; duration; cadence]))
  then do_call (alert alert_text)
  else
    workout ← (if bool_decide (type = "running")
               then now ← gets clock; z ← gets tz;
                    mret (Running z now coords distance duration cadence)
               else mret workout);
    if bool_decide (type = "cycling") &&
       (negb (validInputs [distance; duration; elevation]) ||
        negb (allPositive [distance; duration]))
    then do_call (alert alert_text)
    else
      workout ← (if bool_decide (type = "cycling")
                 then now ← gets clock; z ← gets tz;
                      mret (Cycling z now coords distance duration elevation)
                 else mret workout);
      push workout;;
      _setLocalStorage;;
      _renderWorkoutMarker workout;;
      _renderWorkout workout;;
      _hideForm.

Definition _showForm (mapE : value) : M unit :=
  modify_app (with_mapEvent mapE);;
  do_call (form_classList_remove "hidden");;
  do_call inputDistance_focus.

Definition _toggleElevationForm : M unit :=
  do_call (form_row_classList_toggle "inputElevation" "form__row--hidden");;
  do_call (form_row_classList_toggle "inputCadence" "form__row--hidden").

(** [work => work.id === id]. *)
Definition has_id (id : spec_float) (work : value) : result bool :=
  match get work "id" with
  | Ok i => Ok (strict_eq_num i id)
  | Throw e => Throw e
  end.

(** [workoutEl] is [e.target.closest('.workout')]: [None] for [null],
    otherwise the element's [dataset.id] after the unary plus. *)
Definition _moveToPopup (workoutEl : option spec_float) : M unit :=
  match workoutEl with
  | None => mret tt
  | Some id =>
      ws ← gets (fun w => workouts (app w));
      workoutObj ←
        match ws with
        | VArr l =>
            lift (find (has_id id) l)
        | _ => mthrow TypeError
        end;
      m ← gets (fun w => map (app w));
      if m : bool then
        coords ← lift (get workoutObj "coords");
        zoom ← gets (fun w => mapZoomLevel (app w));
        do_call (map_setView coords zoom true (Num.of_dec 5 (-1)))
      else mthrow TypeError
  end.

Definition reset : M unit :=
  removeItem "workouts";;
  do_call location_reload.

(** [new App()]. *)
Definition constructor : M unit :=
  _loadMap VUndefined;;
  _setMarkerIcon;;
  _getLocalStorage;;
  do_call (addEventListener "inputType" "change" H_toggleElevationForm);;
  do_call (addEventListener "form" "submit" H_newWorkout);;
  do_call (addEventListener "containerWorkouts" "click" H_moveToPopup).

(** The page at load: the fields' initial values and nothing called yet. *)
Definition page_load (ls : gmap string blob) (now : Z) (z : Z -> Z) : world :=
  mkWorld fresh_App ls now z [].

(** * Vocabulary of the properties *)

(** "Rounded to 1 decimal place": the numeral of some [n] tenths, [n / 10]
    being as near to the number as a tenth can be. *)
Definition nearest_tenth (x : Q) (n : Z) : Prop :=
  (Qabs (10 * x - inject_Z n) <= 1 # 2)%Q.

(** The tenths a numeral stands for: its digits read as one integer, the
    point passed over. *)
Definition digit_of (c : ascii) : option Z :=
  let n := nat_of_ascii c in
  if ((48 <=? n) && (n <=? 57))%nat then Some (Z.of_nat (n - 48)) else None.

Fixpoint read_digits (acc : Z) (s : string) : Z :=
  match s with
  | EmptyString => acc
  | String c s' =>
      read_digits (match digit_of c with
                   | Some d => acc * 10 + d
                   | None => acc
                   end) s'
  end.

Definition tenths_of (s : string) : Z := read_digits 0 s.

Definition below_1e21 (x : spec_float) : bool :=
  match x with
  | S754_zero _ => true
  | S754_finite _ m e => Num.mag_num m e <? 10 ^ 21 * Num.mag_den e
  | _ => false
  end.

Definition is_digit (c : ascii) : bool :=
  match digit_of c with Some _ => true | None => false end.

Fixpoint all_digits (s : string) : bool :=
  match s with
  | EmptyString => true
  | String c s' => is_digit c && all_digits s'
  end.

(** A numeral with one decimal place: one digit or more, a point, one
    digit. *)
Definition point_digit (s : string) : bool :=
  match s with
  | String c (String d EmptyString) => bool_decide (c = "."%char) && is_digit d
  | _ => false
  end.

Fixpoint one_decimal (s : string) : bool :=
  match s with
  | EmptyString => false
  | String c s' => is_digit c && (point_digit s' || one_decimal s')
  end.

(** A number without a fractional part; the infinities count as such. *)
Definition whole (x : spec_float) : bool :=
  match x with
  | S754_finite _ m e => Num.mag_num m e mod Num.mag_den e =? 0
  | S754_nan => false
  | _ => true
  end.

(** The number a numeral without sign stands for: Infinity by its name,
    and otherwise the number nearest to the decimal that its digits, the
    point passed over, and the exponent after "e" spell. *)
Fixpoint before (c : ascii) (s : string) : string :=
  match s with
  | EmptyString => EmptyString
  | String a s' => if Ascii.eqb a c then EmptyString else String a (before c s')
  end.

Fixpoint after (c : ascii) (s : string) : string :=
  match s with
  | EmptyString => EmptyString
  | String a s' => if Ascii.eqb a c then s' else after c s'
  end.

Definition read_exponent (s : string) : Z :=
  match s with
  | String "-" s' => - read_digits 0 s'
  | _ => read_digits 0 s
  end.

Definition read_numeral (s : string) : spec_float :=
  if String.eqb s "Infinity" then Num.Infinity
  else
    let m := before "e" s in
    Num.of_dec (read_digits 0 m)
      (read_exponent (after "e" s) - Z.of_nat (String.length (after "." m))).

(** A numeral of the number: read, it gives Infinity for Infinity and a
    finite number of the same value for a finite one. *)
Definition stands_for (s : string) (q : spec_float) : Prop :=
  if Num.isFinite q
  then Num.isFinite (read_numeral s) = true /\
       (Num.to_Q (read_numeral s) == Num.to_Q q)%Q
  else read_numeral s = q.

(** "Rounded to 1 decimal place", said of the string a record holds.
    Below 10^21 the string is a numeral with one decimal place, and the
    tenths it spells are as near to the number as tenths can be.  From
    10^21 on (and at Infinity) the number is whole, so that rounding it to
    one decimal place leaves it as it is, and the string is a numeral of
    the number itself. *)
Definition rounded_to_1_decimal (q : spec_float) (v : value) : Prop :=
  exists s : string, v = VStr s /\
    if below_1e21 q
    then one_decimal s = true /\ nearest_tenth (Num.to_Q q) (tenths_of s)
    else whole q = true /\ stands_for s q.

(** What a division of positive finite numbers gives: zero, a positive
    number with a significand of at most 53 bits and an exponent of at
    most 971, or Infinity. *)
Definition quotient_like (q : spec_float) : Prop :=
  match q with
  | S754_zero s | S754_infinity s => s = false
  | S754_finite s m e => s = false /\ Z.pos m < 2 ^ 53 /\ e <= 971
  | S754_nan => False
  end.

Definition nonneg (x : spec_float) : Prop :=
  match x with
  | S754_zero s | S754_infinity s | S754_finite s _ _ => s = false
  | S754_nan => True
  end.

(** The significand of an integer below 2^53, shifted to full width. *)
Definition normal (p : positive) : positive :=
  match (53 - Z.pos (digits2_pos p))%Z with
  | Z.pos k => Pos.iter xO p k
  | _ => p
  end.

(** What the search returns: digits [s], at most 17 of them, at the
    exponent [n'], of a decimal that the number reads back from, or of the
    decimal of 17 digits nearest to the number. *)
Definition found (x : spec_float) (P n s n' : Z) : Prop :=
  exists k', 1 <= k' <= 17 /\ Num.digits10 s = k' /\ 0 < s /\ n <= n' /\
    (Num.rounds_to x s n' k' = true \/
     2 * Z.abs (s * 10 ^ (n' - k') - P) <= 10 ^ (n - 17)).

(** [mrs] is [N] shifted right by [k] bits, with the bit shifted out last
    and whether anything below it was set. *)
Definition shifted (N k : Z) (mrs : shr_record) : Prop :=
  exists rho, 0 <= rho < 2 ^ k /\ N = shr_m mrs * 2 ^ k + rho /\
    (shr_r mrs = true <-> 0 < k /\ 2 ^ (k - 1) <= rho) /\
    (shr_s mrs = true <-> 0 < k /\ rho mod 2 ^ (k - 1) <> 0).

(** What a number and a value read back as: a [Date] as its ISO string,
    [-0] as [0]. *)
Definition stored_num (x : spec_float) : spec_float :=
  if Num.is_neg_zero x then Num.zero else x.

Fixpoint stored (v : value) : value :=
  match v with
  | VDate t => VStr (Date.toISOString t)
  | VNum x => VNum (stored_num x)
  | VArr l => VArr (List.map stored l)
  | VObj fs => VObj (List.map (fun kv => (fst kv, stored (snd kv))) fs)
  | _ => v
  end.

(** Values that JSON can hold: no [undefined], finite numbers, objects
    with distinct keys. *)
Fixpoint storable (v : value) : bool :=
  match v with
  | VUndefined => false
  | VNum x => Num.isFinite x
  | VArr l => forallb storable l
  | VObj fs =>
      forallb (fun kv => storable (snd kv)) fs &&
      bool_decide (NoDup (List.map fst fs))
  | _ => true
  end.

(** A valid workout record: one of the two classes constructed, at a clock
    reading in the range of [Date], from inputs that pass the form's
    validation and coordinates JSON can hold; or such a record as read back
    from storage. *)
Inductive valid_workout : value -> Prop :=
  | valid_Running tz now coords distance duration cadence :
      - 8640000000000000 <= now <= 8640000000000000 ->
      storable coords = true ->
      validInputs [distance; duration; cadence] = true ->
      allPositive [distance; duration; cadence] = true ->
      valid_workout (Running tz now coords distance duration cadence)
  | valid_Cycling tz now coords distance duration elevation :
      - 8640000000000000 <= now <= 8640000000000000 ->
      storable coords = true ->
      validInputs [distance; duration; elevation] = true ->
      allPositive [distance; duration] = true ->
      valid_workout (Cycling tz now coords distance duration elevation)
  | valid_stored r :
      valid_workout r -> valid_workout (stored r).

Definition add_calls (cs : list call) (w : world) : world :=
  mkWorld (app w) (localStorage w) (clock w) (tz w) (calls w ++ cs).

Definition set_app (a : App) (w : world) : world :=
  mkWorld a (localStorage w) (clock w) (tz w) (calls w).

Definition nullish (v : value) : bool :=
  match v with VUndefined | VNull => true | _ => false end.

(** A map click has been recorded: [this.#mapEvent.latlng] can be
    destructured. *)
Definition clicked (w : world) (lat lng : value) : Prop :=
  exists latlng,
    get (mapEvent (app w)) "latlng" = Ok latlng /\
    get latlng "lat" = Ok lat /\ get latlng "lng" = Ok lng.

Definition set_localStorage (ls : gmap string blob) (w : world) : world :=
  mkWorld (app w) ls (clock w) (tz w) (calls w).

(** The four inputs the specification lists. *)
Inductive listed_invalid (f : fields) : Prop :=
  | distance_zero s :
      inputType f = "running" \/ inputType f = "cycling" ->
      inputDistance f = S754_zero s -> listed_invalid f
  | duration_minus_one :
      inputType f = "running" \/ inputType f = "cycling" ->
      inputDuration f = Num.of_Z (-1) -> listed_invalid f
  | cadence_NaN :
      inputType f = "running" ->
      inputCadence f = Num.NaN -> listed_invalid f
  | elevation_Infinity :
      inputType f = "cycling" ->
      inputElevation f = Num.Infinity -> listed_invalid f.

(** [o.k] where it does not throw. *)
Definition field (o : value) (k : string) : value :=
  match o with
  | VObj fs => default VUndefined (lookup_field k fs)
  | _ => VUndefined
  end.

(** The two calls that render a record. *)
Definition isCycling (work : value) : bool :=
  strict_eq_str (field work "type") "cycling".

Definition entry_of (work : value) : entry :=
  Entry (field work "type") (field work "id") (field work "description")
    (isCycling work) (field work "distance") (field work "duration")
    (field work (if isCycling work then "speed" else "pace"))
    (field work (if isCycling work then "elevation" else "cadence")).

Definition marker_of (icon work : value) : call :=
  L_marker_openPopup (field work "coords") icon (isCycling work)
    (field work "description") (field work "type").

Definition render_calls (icon work : value) : list call :=
  [form_insertAdjacentHTML (entry_of work); marker_of icon work].

(** A stored entry both rendering methods get through: not [undefined]
    or [null], and every field that goes into the markup or the popup one
    that ToString converts. *)
Definition renderable (work : value) : bool :=
  negb (nullish work) &&
  forallb (fun k => converts (field work k))
    ["type"; "id"; "description"; "distance"; "duration";
     if isCycling work then "speed" else "pace";
     if isCycling work then "elevation" else "cadence"].

(** What a method leaves as it found it, also when it throws. *)
Definition preserves {A X} (f : world -> X) (m : M A) : Prop :=
  forall w, f (snd (m w)) = f w.

Definition icon : value :=
  VObj [("iconUrl", VStr "./images/Map-Marker-Free-Download-PNG.png");
        ("iconSize", VArr [VNum (Num.of_Z 50); VNum (Num.of_Z 50)]);
        ("iconAnchor", VArr [VNum (Num.of_Z 23); VNum (Num.of_Z 55)]);
        ("popupAnchor", VArr [VNum (Num.of_Z 0); VNum (Num.of_Z (-50))])].

Definition map_calls : list call :=
  [L_map_setView "map" map_center (Num.of_Z 17);
   L_tileLayer_addTo tile_url tile_attribution;
   map_on "click" H_showForm].

Definition listener_calls : list call :=
  [addEventListener "inputType" "change" H_toggleElevationForm;
   addEventListener "form" "submit" H_newWorkout;
   addEventListener "containerWorkouts" "click" H_moveToPopup].

(** The application once its constructor has returned. *)
Definition started (records : list value) (ls : gmap string blob) (now : Z)
    (z : Z -> Z) : world :=
  mkWorld (mkApp true (Num.of_Z 17) VUndefined (VArr records) icon) ls now z
    (map_calls ++ flat_map (render_calls icon) records ++ listener_calls).

(** A session: the page loaded with nothing stored, a click on the map at
    (36.27, 49.99), and a running workout of 5 km in 25 min at 180 spm
    submitted. *)
Definition click_36_27_49_99 : value :=
  VObj [("latlng", VObj [("lat", VNum (Num.of_dec 3627 (-2)));
                         ("lng", VNum (Num.of_dec 4999 (-2)))])].

Definition run_5_25_180 : fields :=
  Fields "running" (Num.of_Z 5) (Num.of_Z 25) (Num.of_Z 180) Num.zero.

Definition one_run : world :=
  snd (_newWorkout run_5_25_180
         (snd (_showForm click_36_27_49_99
                 (started [] ∅ 1700000000000 (fun _ => 0))))).

Definition the_run : value :=
  Running (fun _ => 0) 1700000000000
    (VArr [VNum (Num.of_dec 3627 (-2)); VNum (Num.of_dec 4999 (-2))])
    (Num.of_Z 5) (Num.of_Z 25) (Num.of_Z 180).

(** A cycling workout of 27 km in 95 min with 523 m of climbing, a minute
    after the run. *)
Definition the_ride : value :=
  Cycling (fun _ => 0) 1700000060000
    (VArr [VNum (Num.of_dec 3628 (-2)); VNum (Num.of_dec 5001 (-2))])
    (Num.of_Z 27) (Num.of_Z 95) (Num.of_Z 523).

(** A record other than the one looked for. *)
Definition other_id (id : spec_float) (work : value) : Prop :=
  nullish work = false /\ strict_eq_num (field work "id") id = false.

Definition submitted (r : value) (l : list value) (w : world) : world :=
  mkWorld (with_workouts (VArr (l ++ [r])) (app w))
    (<["workouts" := JSON_stringify (VArr (l ++ [r]))]> (localStorage w))
    (clock w) (tz w)
    (calls w ++ [preventDefault; marker_of (markerIcon (app w)) r;
                 form_insertAdjacentHTML (entry_of r);
                 form_style_display "none"; form_classList_add "hidden";
                 setTimeout_form_style_display "grid" 100; inputs_clear]).

(** ** Sessions

    The listeners the constructor attaches are called by the page, one
    event at a time; an exception thrown by a listener ends that listener
    and leaves the state it had reached. *)

Definition positive_finite (x : spec_float) : Prop :=
  exists m e, x = S754_finite false m e.

Definition rejected (w : world) : result unit * world :=
  (Ok tt, add_calls [preventDefault; alert alert_text] w).

(** The page loaded with nothing stored and the map clicked once. *)
Definition after_click : world :=
  snd (_showForm click_36_27_49_99 (started [] ∅ 1700000000000 (fun _ => 0))).

Definition set_clock (now : Z) (w : world) : world :=
  mkWorld (app w) (localStorage w) now (tz w) (calls w).

(** A click on the map, a submit of the form at a clock reading, a click
    in the list, a change of the type selector. *)
Inductive event : Type :=
  | MapClick (mapE : value)
  | Submit (now : Z) (f : fields)
  | ListClick (workoutEl : option spec_float)
  | TypeChange.

Definition dispatch (e : event) (w : world) : world :=
  match e with
  | MapClick mapE => snd (_showForm mapE w)
  | Submit now f => snd (_newWorkout f (set_clock now w))
  | ListClick workoutEl => snd (_moveToPopup workoutEl w)
  | TypeChange => snd (_toggleElevationForm w)
  end.

Definition session (es : list event) (w : world) : world :=
  fold_left (fun w e => dispatch e w) es w.

(** The stored entry is what [JSON.stringify] makes of the workouts. *)
Definition in_sync (w : world) : Prop :=
  localStorage w !! "workouts" = Some (JSON_stringify (workouts (app w))).

(** The checks of the two types, and the record a submission that passes
    them constructs. *)
Definition passes (f : fields) : bool :=
  if bool_decide (inputType f = "running")
  then validInputs [inputDistance f; inputDuration f; inputCadence f]
       && allPositive [inputDistance f; inputDuration f; inputCadence f]
  else bool_decide (inputType f = "cycling")
       && validInputs [inputDistance f; inputDuration f; inputElevation f]
       && allPositive [inputDistance f; inputDuration f].

Definition record (z : Z -> Z) (now : Z) (coords : value) (f : fields) : value :=
  if bool_decide (inputType f = "running")
  then Running z now coords (inputDistance f) (inputDuration f) (inputCadence f)
  else Cycling z now coords (inputDistance f) (inputDuration f) (inputElevation f).

(** The record of a list that a click on the entry with [id] finds. *)
Definition first_with_id (id : spec_float) (l : list value) : option value :=
  List.find (fun work => strict_eq_num (field work "id") id) l.

(** * Properties *)

(** ** Derived metrics *)

Lemma digit_of_char d :
  (d < 10)%N -> digit_of (pretty_N_char d) = Some (Z.of_N d).
Proof.
  intros Hd. rewrite <- (N2Nat.id d).
  assert (Hn : (N.to_nat d < 10)%nat) by lia.
  destruct (N.to_nat d) as [|[|[|[|[|[|[|[|[|[|n]]]]]]]]]]; try done; lia.
Qed.

Lemma read_digits_app acc s t :
  read_digits acc (s +:+ t) = read_digits (read_digits acc s) t.
Proof. revert acc. induction s as [|c s IH]; intros acc; [done|]. apply IH. Qed.

Lemma read_pretty_N_go x s :
  read_digits 0 (pretty_N_go x s) = read_digits (Z.of_N x) s.
Proof.
  revert s. induction (N.lt_wf_0 x) as [x _ IH]. intros s.
  destruct (N.eq_dec x 0%N) as [->|Hx]; [done|].
  rewrite pretty_N_go_step by lia.
  rewrite IH by (apply N.div_lt; lia).
  cbn [read_digits]. rewrite digit_of_char by (apply N.mod_lt; lia).
  f_equal. rewrite (N.div_mod x 10) at 3 by lia. lia.
Qed.

Lemma read_pretty_Z z : 0 <= z -> read_digits 0 (pretty z) = z.
Proof.
  intros Hz. destruct z as [|p|p]; [done| |lia].
  change (pretty (Z.pos p)) with (pretty (N.pos p)).
  unfold pretty, pretty_N. rewrite decide_False by done.
  by rewrite read_pretty_N_go.
Qed.

Lemma pretty_digit d : 0 <= d < 10 -> pretty d = String (pretty_N_char (Z.to_N d)) "".
Proof.
  intros Hd. rewrite <- (Z2Nat.id d) by lia.
  assert (Hn : (Z.to_nat d < 10)%nat) by lia.
  destruct (Z.to_nat d) as [|[|[|[|[|[|[|[|[|[|n]]]]]]]]]]; try done; lia.
Qed.

(** The numeral of [n] tenths reads back as [n]. *)
Lemma tenths_of_fixed1 n : 0 <= n -> tenths_of (Num.fixed1 n) = n.
Proof.
  intros Hn. unfold tenths_of, Num.fixed1.
  assert (Hq : 0 <= n / 10) by (apply Z.div_pos; lia).
  assert (Hr : 0 <= n mod 10 < 10) by (apply Z.mod_pos_bound; lia).
  rewrite read_digits_app, read_pretty_Z by done.
  rewrite read_digits_app. cbn [read_digits]. change (digit_of ".") with (@None Z).
  cbv iota. rewrite pretty_digit by done. cbn [read_digits].
  rewrite digit_of_char by lia. cbn [read_digits].
  rewrite Z2N.id by lia. rewrite (Z.div_mod n 10) at 3 by lia. lia.
Qed.

Lemma mag_den_pos e : 0 < Num.mag_den e.
Proof. unfold Num.mag_den. apply Z.pow_pos_nonneg; lia. Qed.

Lemma mag_num_pos m e : 0 < Num.mag_num m e.
Proof.
  unfold Num.mag_num. apply Z.mul_pos_pos; [lia|].
  apply Z.pow_pos_nonneg; lia.
Qed.

Lemma tenths_nearest m e :
  nearest_tenth (Num.to_Q (S754_finite false m e)) (Num.tenths m e).
Proof.
  unfold nearest_tenth, Num.to_Q, Num.tenths.
  pose proof (mag_den_pos e) as Hd. pose proof (mag_num_pos m e) as Hn.
  set (P := Num.mag_num m e) in *. set (D := Num.mag_den e) in *.
  set (n := (20 * P + D) / (2 * D)).
  assert (Hlo : 2 * D * n <= 20 * P + D)
    by (apply Z.mul_div_le; lia).
  assert (Hhi : 20 * P + D < 2 * D * n + 2 * D).
  { pose proof (Z.mod_pos_bound (20 * P + D) (2 * D) ltac:(lia)).
    pose proof (Z.div_mod (20 * P + D) (2 * D) ltac:(lia)). subst n. lia. }
  apply Qabs_Qle_condition. unfold Qle, Qminus, Qplus, Qmult, Qopp, inject_Z.
  simpl. rewrite ?Pos.mul_1_l, ?Pos.mul_1_r, !Z2Pos.id by lia. split; nia.
Qed.

(** Rounding keeps the sign it is given. *)
Lemma binary_round_aux_sign sx mx ex lx :
  match binary_round_aux Num.prec Num.emax sx mx ex lx with
  | S754_zero s | S754_infinity s | S754_finite s _ _ => s = sx
  | S754_nan => True
  end.
Proof.
  unfold binary_round_aux.
  destruct (shr_fexp _ _ mx ex lx) as [mrs' e'].
  destruct (shr_fexp _ _ _ e' loc_Exact) as [mrs'' e''].
  destruct (shr_m mrs''); [done| |done].
  by destruct (e'' <=? _).
Qed.

Lemma positive_input x :
  Num.isFinite x = true -> Num.ltb Num.zero x = true ->
  exists m e, x = S754_finite false m e.
Proof. destruct x as [ | | |[] m e]; try done. eauto. Qed.

Lemma div_positive m1 e1 m2 e2 :
  match Num.div (S754_finite false m1 e1) (S754_finite false m2 e2) with
  | S754_zero s | S754_infinity s | S754_finite s _ _ => s = false
  | S754_nan => True
  end.
Proof.
  unfold Num.div, SFdiv.
  destruct (SFdiv_core_binary _ _ _ _ _ _) as [[mz ez] lz].
  apply (binary_round_aux_sign false).
Qed.

(** *** The result of a division *)

Lemma shr_1_m mrs : 0 <= shr_m mrs -> shr_m (shr_1 mrs) = shr_m mrs / 2.
Proof.
  destruct mrs as [m r s]. cbn [shr_m]. intros Hm.
  destruct m as [|[p|p|]|p]; cbn [shr_1 shr_m]; [done| | |done|lia].
  - rewrite Pos2Z.inj_xI. apply (Z.div_unique _ _ _ 1); lia.
  - rewrite Pos2Z.inj_xO. apply (Z.div_unique _ _ _ 0); lia.
Qed.

Lemma iter_shr_1_m n mrs :
  0 <= shr_m mrs ->
  shr_m (SpecFloat.iter_pos shr_1 n mrs) = shr_m mrs / 2 ^ Z.pos n.
Proof.
  revert mrs.
  induction n as [n IH|n IH|]; intros mrs Hm; cbn [SpecFloat.iter_pos].
  - assert (H1 : 0 <= shr_m (shr_1 mrs))
      by (rewrite shr_1_m by done; apply Z.div_pos; lia).
    assert (H2 : 0 <= shr_m (SpecFloat.iter_pos shr_1 n (shr_1 mrs)))
      by (rewrite IH by done; apply Z.div_pos;
          [done|apply Z.pow_pos_nonneg; lia]).
    rewrite IH, IH, shr_1_m by done.
    rewrite !Z.div_div by (try apply Z.pow_pos_nonneg; lia).
    f_equal. rewrite Pos2Z.inj_xI, Z.pow_add_r, Z.pow_mul_r by lia.
    change (2 ^ 2) with 4. change (2 ^ 1) with 2.
    rewrite <- Z.pow_add_r by lia.
    replace (Z.pos n + Z.pos n) with (2 * Z.pos n) by lia.
    rewrite Z.pow_mul_r by lia. change (2 ^ 2) with 4. lia.
  - assert (H2 : 0 <= shr_m (SpecFloat.iter_pos shr_1 n mrs))
      by (rewrite IH by done; apply Z.div_pos;
          [done|apply Z.pow_pos_nonneg; lia]).
    rewrite IH, IH by done.
    rewrite !Z.div_div by (try apply Z.pow_pos_nonneg; lia).
    f_equal. rewrite Pos2Z.inj_xO. rewrite <- Z.pow_add_r by lia. f_equal. lia.
  - by apply shr_1_m.
Qed.

Lemma Zdigits2_bound m : 0 <= m -> m < 2 ^ Zdigits2 m.
Proof.
  destruct m as [|p|p]; [done| |lia]. intros _. cbn [Zdigits2].
  pose proof (Z.pow_pos_nonneg 2 (Z.pos (digits2_pos p)) ltac:(lia) ltac:(lia)).
  destruct (Z.lt_ge_cases (Z.pos p) (2 ^ Z.pos (digits2_pos p))) as [|Hge];
    [done|].
  exfalso. revert Hge. clear. induction p as [p IH|p IH|]; simpl digits2_pos;
    rewrite ?Pos2Z.inj_succ, ?Z.pow_succ_r by lia; intros Hge; [| |done];
    apply IH; lia.
Qed.

Lemma shr_record_of_loc_m m l : shr_m (shr_record_of_loc m l) = m.
Proof. by destruct l as [|[]]. Qed.

(** After the shift the significand has at most 53 bits. *)
Lemma shr_fexp_bounded m e l :
  0 <= m ->
  0 <= shr_m (fst (shr_fexp Num.prec Num.emax m e l)) < 2 ^ 53.
Proof.
  intros Hm. unfold shr_fexp, shr, fexp, Num.prec.
  pose proof (Zdigits2_bound m Hm) as Hd.
  assert (Hd0 : 0 <= Zdigits2 m) by (by destruct m).
  set (d := Zdigits2 m) in *.
  destruct (Z.max (d + e - 53) (emin 53 Num.emax) - e) as [|p|p] eqn:En;
    cbn [fst].
  - rewrite shr_record_of_loc_m. split; [done|].
    eapply Z.lt_le_trans; [exact Hd|]. apply Z.pow_le_mono_r; lia.
  - rewrite iter_shr_1_m by (by rewrite shr_record_of_loc_m).
    rewrite shr_record_of_loc_m. split.
    + apply Z.div_pos; [done|apply Z.pow_pos_nonneg; lia].
    + apply Z.div_lt_upper_bound; [apply Z.pow_pos_nonneg; lia|].
      rewrite <- Z.pow_add_r by lia.
      eapply Z.lt_le_trans; [exact Hd|]. apply Z.pow_le_mono_r; lia.
  - rewrite shr_record_of_loc_m. split; [done|].
    eapply Z.lt_le_trans; [exact Hd|]. apply Z.pow_le_mono_r; lia.
Qed.

Lemma digits2_iter_xO p n :
  digits2_pos (Pos.iter xO p n) = (digits2_pos p + n)%positive.
Proof.
  induction n as [|n IH] using Pos.peano_ind.
  - simpl. lia.
  - rewrite Pos.iter_succ. simpl. rewrite IH. lia.
Qed.

Lemma Zpos_iter_xO p n : Z.pos (Pos.iter xO p n) = Z.pos p * 2 ^ Z.pos n.
Proof.
  induction n as [|n IH] using Pos.peano_ind.
  - simpl. lia.
  - rewrite Pos.iter_succ, Pos2Z.inj_xO, IH, Pos2Z.inj_succ, Z.pow_succ_r; lia.
Qed.

Lemma digits2_bounds p :
  2 ^ Z.pos (digits2_pos p) <= 2 * Z.pos p /\ Z.pos p < 2 ^ Z.pos (digits2_pos p).
Proof.
  induction p as [p [IH1 IH2]|p [IH1 IH2]|]; simpl digits2_pos;
    rewrite ?Pos2Z.inj_succ, ?Z.pow_succ_r by lia; [lia..|].
  by vm_compute.
Qed.

Lemma digits2_le_53 p : Z.pos p < 2 ^ 53 -> Z.pos (digits2_pos p) <= 53.
Proof.
  intros Hp. pose proof (digits2_bounds p) as [Hd _].
  destruct (Z.le_gt_cases (Z.pos (digits2_pos p)) 53) as [|Hgt]; [done|].
  assert (2 ^ 54 <= 2 ^ Z.pos (digits2_pos p)) by (apply Z.pow_le_mono_r; lia).
  lia.
Qed.

Lemma round_nearest_even_nonneg m l : 0 <= m -> 0 <= round_nearest_even m l.
Proof.
  intros Hm. destruct l as [|[]]; cbn [round_nearest_even]; try lia.
  destruct (Z.even m); lia.
Qed.

Lemma binary_round_aux_bounded sx mx ex lx :
  0 <= mx ->
  match binary_round_aux Num.prec Num.emax sx mx ex lx with
  | S754_zero s | S754_infinity s => s = sx
  | S754_finite s m e => s = sx /\ Z.pos m < 2 ^ 53 /\ e <= 971
  | S754_nan => False
  end.
Proof.
  intros Hm. unfold binary_round_aux.
  pose proof (shr_fexp_bounded mx ex lx Hm) as H1.
  destruct (shr_fexp Num.prec Num.emax mx ex lx) as [mrs' e']. cbn [fst] in H1.
  pose proof (shr_fexp_bounded
                (round_nearest_even (shr_m mrs') (loc_of_shr_record mrs')) e'
                loc_Exact
                (round_nearest_even_nonneg _ _ (proj1 H1))) as H2.
  destruct (shr_fexp Num.prec Num.emax _ e' loc_Exact) as [mrs'' e''].
  cbn [fst] in H2.
  destruct (shr_m mrs'') as [|m|m]; [done| |lia].
  destruct (Z.leb_spec e'' (Num.emax - Num.prec)) as [Hle|]; [|done].
  unfold Num.emax, Num.prec in Hle. split; [done|lia].
Qed.

Lemma SFdiv_core_nonneg m1 e1 m2 e2 :
  0 <= fst (fst (SFdiv_core_binary Num.prec Num.emax (Z.pos m1) e1 (Z.pos m2) e2)).
Proof.
  unfold SFdiv_core_binary.
  set (s := _ - _ - _).
  set (m' := match s with Z.pos _ => _ | Z0 => _ | Z.neg _ => _ end).
  assert (Hm' : 0 <= m').
  { subst m'. destruct s; [lia| |lia]. apply Z.shiftl_nonneg. lia. }
  pose proof (Z_div_mod m' (Z.pos m2) ltac:(lia)) as H.
  destruct (Z.div_eucl m' (Z.pos m2)) as [q r]. cbn [fst].
  destruct H as [H1 H2]. nia.
Qed.

(** A positive finite number divided by a positive number, by zero or by
    Infinity. *)
Lemma div_quotient_like x y :
  Num.isFinite x = true -> Num.ltb Num.zero x = true ->
  nonneg y -> y <> S754_nan -> quotient_like (Num.div x y).
Proof.
  intros Hf Hp Hy Hnan. destruct (positive_input x Hf Hp) as (mx & ex & ->).
  destruct y as [sy|sy| |sy my ey]; cbn in Hy |- *; try done;
    try (by subst sy).
  subst sy. unfold Num.div, SFdiv.
  pose proof (SFdiv_core_nonneg mx ex my ey) as Hq.
  destruct (SFdiv_core_binary _ _ _ _ _ _) as [[mz ez] lz]. cbn [fst] in Hq.
  apply (binary_round_aux_bounded false _ _ _ Hq).
Qed.

Lemma valid_nonneg x :
  Num.isFinite x = true -> Num.ltb Num.zero x = true -> nonneg x.
Proof. intros Hf Hp. by destruct (positive_input x Hf Hp) as (m & e & ->). Qed.

Lemma valid_not_nan x :
  Num.isFinite x = true -> x <> S754_nan.
Proof. by destruct x. Qed.

Lemma quotient_like_nonneg q : quotient_like q -> nonneg q /\ q <> S754_nan.
Proof. destruct q as [s|s| |s m e]; cbn; try done. by intros [-> _]. Qed.

(** *** Numerals with one decimal place *)

Lemma is_digit_char d : (d < 10)%N -> is_digit (pretty_N_char d) = true.
Proof. intros Hd. unfold is_digit. by rewrite digit_of_char. Qed.

Lemma all_digits_pretty_N_go x s :
  all_digits s = true -> all_digits (pretty_N_go x s) = true.
Proof.
  revert s. induction (N.lt_wf_0 x) as [x _ IH]. intros s Hs.
  destruct (N.eq_dec x 0%N) as [->|Hx]; [done|].
  rewrite pretty_N_go_step by lia. apply IH; [apply N.div_lt; lia|].
  cbn [all_digits]. by rewrite is_digit_char by (apply N.mod_lt; lia).
Qed.

Lemma pretty_N_go_nonempty x s :
  x <> 0%N \/ s <> "" -> pretty_N_go x s <> "".
Proof.
  revert s. induction (N.lt_wf_0 x) as [x _ IH]. intros s Hs.
  destruct (N.eq_dec x 0%N) as [->|Hx]; [by destruct Hs|].
  rewrite pretty_N_go_step by lia. apply IH; [apply N.div_lt; lia|].
  by right.
Qed.

Lemma digits_pretty z :
  0 <= z -> all_digits (pretty z) = true /\ pretty z <> "".
Proof.
  intros Hz. destruct z as [|p|p]; [done| |lia].
  change (pretty (Z.pos p)) with (pretty (N.pos p)).
  unfold pretty, pretty_N. rewrite decide_False by done. split.
  - by apply all_digits_pretty_N_go.
  - apply pretty_N_go_nonempty. by left.
Qed.

Lemma append_cons c s t : String c s +:+ t = String c (s +:+ t).
Proof. done. Qed.

Lemma one_decimal_app ds d :
  ds <> "" -> all_digits ds = true -> is_digit d = true ->
  one_decimal (ds +:+ String "." (String d "")) = true.
Proof.
  induction ds as [|c ds IH]; [done|]. intros _ Hall Hd.
  cbn [all_digits] in Hall. apply andb_prop in Hall as [Hc Hds].
  rewrite append_cons. cbn [one_decimal]. rewrite Hc. cbn [andb].
  destruct ds as [|c' ds].
  - change ("" +:+ String "." (String d "")) with (String "." (String d "")).
    cbn [point_digit]. by rewrite Hd.
  - rewrite IH by done. apply orb_true_r.
Qed.

(** The numeral of [n] tenths has one decimal place. *)
Lemma one_decimal_fixed1 n : 0 <= n -> one_decimal (Num.fixed1 n) = true.
Proof.
  intros Hn. unfold Num.fixed1.
  assert (Hq : 0 <= n / 10) by (apply Z.div_pos; lia).
  assert (Hr : 0 <= n mod 10 < 10) by (apply Z.mod_pos_bound; lia).
  destruct (digits_pretty _ Hq) as [Hd Hne].
  rewrite (pretty_digit (n mod 10)) by done.
  change ("." +:+ String ?c "") with (String "." (String c "")).
  apply one_decimal_app; [done..|]. apply is_digit_char. lia.
Qed.

Lemma tenths_nonneg m e : 0 <= Num.tenths m e.
Proof.
  unfold Num.tenths. pose proof (mag_den_pos e). pose proof (mag_num_pos m e).
  apply Z.div_pos; lia.
Qed.

(** *** Counting decimal digits *)

Lemma length_pretty_N_go x s :
  (0 < x)%N ->
  exists L : Z,
    0 < L /\
    Z.of_nat (String.length (pretty_N_go x s)) = Z.of_nat (String.length s) + L /\
    10 ^ (L - 1) <= Z.of_N x < 10 ^ L.
Proof.
  revert s. induction (N.lt_wf_0 x) as [x _ IH]. intros s Hx.
  rewrite pretty_N_go_step by lia.
  destruct (N.eq_dec (x / 10)%N 0%N) as [E|E].
  - rewrite E. exists 1. split; [lia|]. split.
    + change (pretty_N_go 0 ?t) with t. cbn [String.length]. lia.
    + apply N.div_small_iff in E; [|lia].
      assert (10 ^ (1 - 1) = 1) as -> by reflexivity.
      assert (10 ^ 1 = 10) as -> by reflexivity. lia.
  - destruct (IH (x / 10)%N) with (s := String (pretty_N_char (x mod 10)%N) s)
      as (L & HL & Hlen & Hlo & Hhi);
      [apply N.div_lt; lia|by apply N.neq_0_lt_0|].
    exists (L + 1). split; [lia|]. split.
    + rewrite Hlen. cbn [String.length]. lia.
    + replace (L + 1 - 1) with (L - 1 + 1) by lia.
      rewrite !Z.pow_add_r by lia. change (10 ^ 1) with 10.
      rewrite N2Z.inj_div in Hlo, Hhi. change (Z.of_N 10) with 10 in *.
      pose proof (Z.div_mod (Z.of_N x) 10 ltac:(lia)).
      pose proof (Z.mod_pos_bound (Z.of_N x) 10 ltac:(lia)). lia.
Qed.

Lemma digits10_spec z :
  0 < z -> 0 < Num.digits10 z /\ 10 ^ (Num.digits10 z - 1) <= z < 10 ^ Num.digits10 z.
Proof.
  intros Hz. destruct z as [|p|p]; [lia| |lia]. unfold Num.digits10.
  change (pretty (Z.pos p)) with (pretty (N.pos p)).
  unfold pretty, pretty_N. rewrite decide_False by done.
  destruct (length_pretty_N_go (N.pos p) "") as (L & HL & Hlen & Hb); [lia|].
  rewrite Hlen. cbn [String.length]. change (Z.of_N (N.pos p)) with (Z.pos p) in Hb.
  by replace (Z.of_nat 0 + L) with L by lia.
Qed.

Lemma pow10_digits_unique z k :
  1 <= k -> 10 ^ (k - 1) <= z < 10 ^ k -> Num.digits10 z = k.
Proof.
  intros Hk [Hlo Hhi].
  assert (Hz : 0 < z).
  { eapply Z.lt_le_trans; [|exact Hlo]. apply Z.pow_pos_nonneg; lia. }
  destruct (digits10_spec z Hz) as (Hd & Hlo' & Hhi').
  set (d := Num.digits10 z) in *.
  destruct (Z.lt_trichotomy d k) as [Hlt|[->|Hgt]]; [|done|]; exfalso.
  - assert (10 ^ d <= 10 ^ (k - 1)) by (apply Z.pow_le_mono_r; lia). lia.
  - assert (10 ^ k <= 10 ^ (d - 1)) by (apply Z.pow_le_mono_r; lia). lia.
Qed.

(** [exp10] of a whole number is the count of its digits. *)
Lemma exp10_integer p : 0 < p -> Num.exp10 p 1 = Num.digits10 p.
Proof.
  intros Hp. destruct (digits10_spec p Hp) as (Hd & Hlo & Hhi).
  unfold Num.exp10. change (Num.digits10 1) with 1.
  set (d := Num.digits10 p) in *. unfold Num.scale10.
  destruct (0 <=? - (d - 1)) eqn:E.
  - apply Z.leb_le in E. assert (d = 1) as -> by lia.
    change (- (1 - 1)) with 0. change (10 ^ 0) with 1.
    destruct (p * 1 <? 1) eqn:E'; [apply Z.ltb_lt in E'; lia|lia].
  - replace (- - (d - 1)) with (d - 1) by lia. rewrite Z.mul_1_l.
    destruct (p <? 10 ^ (d - 1)) eqn:E'; [apply Z.ltb_lt in E'; lia|lia].
Qed.

(** *** The digits Number::toString finds, for a whole number *)

Lemma of_dec_nonneg s p : 0 <= p -> Num.of_dec s p = Num.of_Z (s * 10 ^ p).
Proof. intros Hp. by destruct p. Qed.

Lemma found_norm x P n k s :
  1 <= k <= 17 -> 17 < n ->
  10 ^ (k - 1) <= s <= 10 ^ k ->
  (Num.rounds_to x s n k = true \/
   2 * Z.abs (s * 10 ^ (n - k) - P) <= 10 ^ (n - 17)) ->
  found x P n (fst (if s =? 10 ^ k then (1, n + 1) else (s, n)))
              (snd (if s =? 10 ^ k then (1, n + 1) else (s, n))).
Proof.
  intros Hk Hn Hs H. destruct (Z.eqb_spec s (10 ^ k)) as [->|Hne]; cbn [fst snd].
  - exists 1. split; [lia|]. split; [done|]. split; [lia|]. split; [lia|].
    assert (E : 1 * 10 ^ (n + 1 - 1) = 10 ^ k * 10 ^ (n - k)).
    { rewrite <- Z.pow_add_r by lia. rewrite Z.mul_1_l. f_equal. lia. }
    unfold Num.rounds_to in *. rewrite !of_dec_nonneg in * by lia.
    by rewrite E.
  - assert (0 < 10 ^ (k - 1)) by (apply Z.pow_pos_nonneg; lia).
    exists k. split; [done|]. split; [apply pow10_digits_unique; lia|].
    split; [lia|]. split; [lia|done].
Qed.

Lemma shortest_found x P n fuel k :
  1 <= k -> k + Z.of_nat fuel = 17 ->
  10 ^ (n - 1) <= P < 10 ^ n -> 17 < n ->
  found x P n (fst (Num.shortest fuel x P 1 n k))
              (snd (Num.shortest fuel x P 1 n k)).
Proof.
  revert k. induction fuel as [|fuel IH]; intros k Hk Hf HP Hn.
  all: cbn [Num.shortest]; unfold Num.scale10;
    destruct (Z.leb_spec 0 (k - n)) as [Hle|Hlt]; [lia|];
    replace (- (k - n)) with (n - k) by lia; rewrite Z.mul_1_l;
    set (T := 10 ^ (n - k));
    assert (HT : 0 < T) by (apply Z.pow_pos_nonneg; lia);
    assert (HTk : 10 ^ (k - 1) * T = 10 ^ (n - 1))
      by (subst T; rewrite <- Z.pow_add_r by lia; f_equal; lia);
    assert (HTk' : T * 10 ^ k = 10 ^ n)
      by (subst T; rewrite <- Z.pow_add_r by lia; f_equal; lia);
    set (lo := P / T);
    assert (Hk1 : 0 < 10 ^ (k - 1)) by (apply Z.pow_pos_nonneg; lia);
    assert (Hlo1 : 10 ^ (k - 1) <= lo)
      by (apply Z.div_le_lower_bound; lia);
    assert (Hlo2 : lo < 10 ^ k)
      by (apply Z.div_lt_upper_bound; lia);
    assert (Hlo3 : lo * T <= P < (lo + 1) * T)
      by (pose proof (Z.div_mod P T ltac:(lia));
          pose proof (Z.mod_pos_bound P T ltac:(lia)); subst lo; nia);
    set (nearer := if 2 * P <? (lo + (lo + 1)) * T then lo
                   else if (lo + (lo + 1)) * T <? 2 * P then lo + 1
                   else if Z.even lo then lo else lo + 1).
  - (* seventeen digits: the nearest *)
    assert (k = 17) as -> by lia.
    assert (Hnear : 10 ^ (17 - 1) <= nearer <= 10 ^ 17 /\
                    2 * Z.abs (nearer * T - P) <= T).
    { subst nearer.
      destruct (Z.ltb_spec (2 * P) ((lo + (lo + 1)) * T)); [split; lia|].
      destruct (Z.ltb_spec ((lo + (lo + 1)) * T) (2 * P)); [split; lia|].
      destruct (Z.even lo); split; lia. }
    destruct Hnear as [Hb Hd]. apply found_norm; [lia|done|done|].
    right. by subst T.
  - assert (Hnear : nearer = lo \/ nearer = lo + 1).
    { subst nearer.
      destruct (_ <? _); [by left|]. destruct (_ <? _); [by right|].
      destruct (Z.even lo); [by left|by right]. }
    destruct (Num.rounds_to x lo n k) eqn:Elo;
      destruct (Num.rounds_to x (lo + 1) n k) eqn:Ehi; cbn [andb].
    + destruct ((k =? 1) || negb (lo + 1 =? 10 ^ k)) eqn:Eok; cbn [andb].
      * apply found_norm; [lia|done| |].
        -- destruct Hnear as [-> | ->]; lia.
        -- left. by destruct Hnear as [-> | ->].
      * cbn [fst snd]. exists k. split; [lia|].
        split; [apply pow10_digits_unique; lia|]. split; [lia|].
        split; [lia|by left].
    + cbn [fst snd]. exists k. split; [lia|].
      split; [apply pow10_digits_unique; lia|]. split; [lia|].
      split; [lia|by left].
    + destruct ((k =? 1) || negb (lo + 1 =? 10 ^ k)) eqn:Eok; cbn [andb].
      * apply found_norm; [lia|done|lia|by left].
      * apply IH; [lia|lia|done|done].
    + apply IH; [lia|lia|done|done].
Qed.

(** *** Rounding a whole number to binary64 *)

Lemma shifted_start N : shifted N 0 (shr_record_of_loc N loc_Exact).
Proof.
  exists 0. cbn [shr_record_of_loc shr_m shr_r shr_s].
  split; [by vm_compute|]. split; [lia|]. split; split; (done || lia).
Qed.

Lemma shifted_shr_1 N k mrs :
  0 <= k -> 0 <= shr_m mrs -> shifted N k mrs -> shifted N (k + 1) (shr_1 mrs).
Proof.
  intros Hk Hm (rho & Hrho & HN & Hr & Hs).
  assert (Hpow : 2 ^ (k + 1) = 2 * 2 ^ k)
    by (rewrite Z.pow_add_r by lia; change (2 ^ 1) with 2; lia).
  assert (Hpos : 0 < 2 ^ k) by (apply Z.pow_pos_nonneg; lia).
  unfold shifted. replace (k + 1 - 1) with k by lia.
  assert (Hsticky : orb (shr_r mrs) (shr_s mrs) = true <-> rho <> 0).
  { rewrite orb_true_iff, Hr, Hs. destruct (Z.eq_dec k 0) as [->|Hk0].
    - change (2 ^ 0) with 1 in Hrho. split; [lia|lia].
    - assert (Hp1 : 0 < 2 ^ (k - 1)) by (apply Z.pow_pos_nonneg; lia).
      pose proof (Z.mod_pos_bound rho (2 ^ (k - 1)) Hp1) as Hmb.
      split.
      + intros [[_ H1]|[_ H1]]; [lia|]. intros ->.
        by rewrite Z.mod_0_l in H1 by lia.
      + intros Hne. destruct (Z.le_gt_cases (2 ^ (k - 1)) rho); [left; lia|].
        right. split; [lia|]. rewrite Z.mod_small by lia. done. }
  destruct mrs as [m r s]. cbn [shr_m shr_r shr_s] in *.
  assert (Hmod : (2 ^ k + rho) mod 2 ^ k = rho).
  { rewrite <- (Z.mul_1_l (2 ^ k)) at 1.
    rewrite Z.add_comm, Z.mod_add by lia. apply Z.mod_small. lia. }
  destruct m as [|[p|p|]|p]; cbn [shr_1 shr_m shr_r shr_s]; [| | | |lia].
  - exists rho. cbn [shr_m shr_r shr_s]. split; [lia|]. split; [lia|]. split.
    + split; [done|lia].
    + rewrite Hsticky. rewrite Z.mod_small by lia. split; [lia|tauto].
  - exists (2 ^ k + rho). split; [lia|]. split; [lia|]. split.
    + split; [lia|done].
    + rewrite Hsticky, Hmod. split; [lia|tauto].
  - exists rho. split; [lia|]. split; [lia|]. split.
    + split; [done|lia].
    + rewrite Hsticky. rewrite Z.mod_small by lia. split; [lia|tauto].
  - exists (2 ^ k + rho). split; [lia|]. split; [lia|]. split.
    + split; [lia|done].
    + rewrite Hsticky, Hmod. split; [lia|tauto].
Qed.

Lemma shifted_iter N n k mrs :
  0 <= k -> 0 <= shr_m mrs -> shifted N k mrs ->
  shifted N (k + Z.pos n) (SpecFloat.iter_pos shr_1 n mrs).
Proof.
  assert (Hnn : forall n mrs, 0 <= shr_m mrs ->
                  0 <= shr_m (SpecFloat.iter_pos shr_1 n mrs)).
  { intros n' mrs' H. rewrite iter_shr_1_m by done.
    apply Z.div_pos; [done|apply Z.pow_pos_nonneg; lia]. }
  assert (Hn1 : forall mrs, 0 <= shr_m mrs -> 0 <= shr_m (shr_1 mrs)).
  { intros mrs' H. rewrite shr_1_m by done. apply Z.div_pos; lia. }
  revert k mrs.
  induction n as [n IH|n IH|]; intros k mrs Hk Hm H; cbn [SpecFloat.iter_pos].
  - replace (k + Z.pos n~1) with (k + 1 + Z.pos n + Z.pos n) by lia.
    apply IH; [lia|by apply Hnn, Hn1|].
    apply IH; [lia|by apply Hn1|]. by apply shifted_shr_1.
  - replace (k + Z.pos n~0) with (k + Z.pos n + Z.pos n) by lia.
    apply IH; [lia|by apply Hnn|]. by apply IH.
  - by apply shifted_shr_1.
Qed.

(** Rounding to nearest, away from the ties. *)
Lemma round_shifted N p mrs :
  0 < p -> shifted N p mrs ->
  (2 * (N - shr_m mrs * 2 ^ p) < 2 ^ p ->
   round_nearest_even (shr_m mrs) (loc_of_shr_record mrs) = shr_m mrs) /\
  (2 ^ p < 2 * (N - shr_m mrs * 2 ^ p) ->
   round_nearest_even (shr_m mrs) (loc_of_shr_record mrs) = shr_m mrs + 1).
Proof.
  intros Hp (rho & Hrho & HN & Hr & Hs).
  assert (Hpow : 2 ^ p = 2 * 2 ^ (p - 1)).
  { replace p with (p - 1 + 1) at 1 by lia.
    rewrite Z.pow_add_r by lia. change (2 ^ 1) with 2. lia. }
  assert (Hp1 : 0 < 2 ^ (p - 1)) by (apply Z.pow_pos_nonneg; lia).
  replace (N - shr_m mrs * 2 ^ p) with rho by lia.
  destruct mrs as [m r s]. cbn [shr_m shr_r shr_s] in *.
  assert (Hr' : r = true -> 2 ^ (p - 1) <= rho) by (intros E; by apply Hr).
  assert (Hr'' : r = false -> rho < 2 ^ (p - 1)).
  { intros E. destruct (Z.le_gt_cases (2 ^ (p - 1)) rho) as [Hle|]; [|lia].
    destruct Hr as [_ Hr]. rewrite Hr in E by done. discriminate E. }
  assert (Hs' : s = false -> rho mod 2 ^ (p - 1) = 0).
  { intros E. destruct (Z.eq_dec (rho mod 2 ^ (p - 1)) 0) as [|Hne]; [done|].
    destruct Hs as [_ Hs]. rewrite Hs in E by done. discriminate E. }
  destruct r, s; cbn [loc_of_shr_record round_nearest_even].
  - specialize (Hr' eq_refl). split; [lia|done].
  - specialize (Hr' eq_refl). specialize (Hs' eq_refl).
    apply Z.mod_divide in Hs'; [|lia]. destruct Hs' as [c Hc].
    set (h := 2 ^ (p - 1)) in *.
    split; intros H; exfalso; [lia|].
    assert (1 < c) by nia. assert (c < 2) by nia. lia.
  - specialize (Hr'' eq_refl). split; [done|lia].
  - specialize (Hr'' eq_refl). split; [done|lia].
Qed.

Lemma digits2_of_bounds p d :
  2 ^ (d - 1) <= Z.pos p < 2 ^ d -> Z.pos (digits2_pos p) = d.
Proof.
  intros [Hlo Hhi]. pose proof (digits2_bounds p) as [H1 H2].
  set (D := Z.pos (digits2_pos p)) in *.
  assert (HD : 2 ^ D = 2 * 2 ^ (D - 1)).
  { replace D with (D - 1 + 1) at 1 by lia.
    rewrite Z.pow_add_r by lia. change (2 ^ 1) with 2. lia. }
  assert (Hd0 : 0 < d).
  { destruct (Z.lt_ge_cases 0 d); [done|]. exfalso.
    destruct (Z.eq_dec d 0) as [->|];
      [change (2 ^ 0) with 1 in Hhi|rewrite Z.pow_neg_r in Hhi by lia]; lia. }
  destruct (Z.lt_trichotomy D d) as [Hlt|[|Hgt]]; [|done|]; exfalso.
  - assert (2 ^ D <= 2 ^ (d - 1)) by (apply Z.pow_le_mono_r; lia). lia.
  - assert (2 ^ d <= 2 ^ (D - 1)) by (apply Z.pow_le_mono_r; lia). lia.
Qed.

(** The second half of [binary_round_aux]: a significand of 53 bits is
    kept, the significand 2^53 is halved. *)
Lemma finish_53 s m e :
  2 ^ 52 <= Z.pos m < 2 ^ 53 -> -1074 <= e <= 971 ->
  (let '(mrs'', e'') := shr_fexp Num.prec Num.emax (Z.pos m) e loc_Exact in
   match shr_m mrs'' with
   | Z0 => S754_zero s
   | Z.pos m' =>
       if e'' <=? Num.emax - Num.prec then S754_finite s m' e''
       else S754_infinity s
   | Z.neg _ => S754_nan
   end) = S754_finite s m e.
Proof.
  intros Hm He. unfold shr_fexp. cbn [Zdigits2].
  rewrite (digits2_of_bounds m 53) by (change (53 - 1) with 52; lia).
  assert (Hf : fexp Num.prec Num.emax (53 + e) - e = 0)
    by (unfold fexp, emin, Num.prec, Num.emax; lia).
  rewrite Hf. cbn [shr shr_record_of_loc shr_m].
  destruct (Z.leb_spec e (Num.emax - Num.prec)) as [|Hgt]; [done|].
  unfold Num.emax, Num.prec in Hgt. lia.
Qed.

Lemma finish_2_53 s e :
  -1074 <= e -> e + 1 <= 971 ->
  (let '(mrs'', e'') := shr_fexp Num.prec Num.emax (2 ^ 53) e loc_Exact in
   match shr_m mrs'' with
   | Z0 => S754_zero s
   | Z.pos m' =>
       if e'' <=? Num.emax - Num.prec then S754_finite s m' e''
       else S754_infinity s
   | Z.neg _ => S754_nan
   end) = S754_finite s (2 ^ 52)%positive (e + 1).
Proof.
  intros He1 He2. unfold shr_fexp.
  change (Zdigits2 (2 ^ 53)) with 54.
  assert (Hf : fexp Num.prec Num.emax (54 + e) - e = 1)
    by (unfold fexp, emin, Num.prec, Num.emax; lia).
  rewrite Hf. cbn [shr SpecFloat.iter_pos shr_record_of_loc].
  change (shr_m (shr_1 {| shr_m := 2 ^ 53; shr_r := false; shr_s := false |}))
    with (Z.pos (2 ^ 52)).
  destruct (Z.leb_spec (e + 1) (Num.emax - Num.prec)) as [|Hgt]; [done|].
  unfold Num.emax, Num.prec in Hgt. lia.
Qed.

(** A whole number within half a gap of a binary64 number (a quarter gap
    where the gap below is the smaller one) rounds to it. *)
Lemma of_Z_nearest pN mc ec :
  2 ^ 52 <= Z.pos mc < 2 ^ 53 -> 2 <= ec <= 971 ->
  2 * Z.abs (Z.pos pN - Z.pos mc * 2 ^ ec) < 2 ^ ec ->
  (Z.pos mc = 2 ^ 52 -> Z.pos pN < Z.pos mc * 2 ^ ec ->
   4 * (Z.pos mc * 2 ^ ec - Z.pos pN) < 2 ^ ec) ->
  Num.of_Z (Z.pos pN) = S754_finite false mc ec.
Proof.
  intros Hmc Hec Hnear Hlow.
  set (N := Z.pos pN) in *. set (G := 2 ^ ec) in *.
  assert (HG : 0 < G) by (apply Z.pow_pos_nonneg; lia).
  assert (HG2 : G = 2 * 2 ^ (ec - 1)).
  { subst G. replace ec with (ec - 1 + 1) at 1 by lia.
    rewrite Z.pow_add_r by lia. change (2 ^ 1) with 2. lia. }
  assert (HG1 : 0 < 2 ^ (ec - 1)) by (apply Z.pow_pos_nonneg; lia).
  assert (Hp : forall j, 0 <= j -> 2 ^ (j + ec) = 2 ^ j * G)
    by (intros j Hj; subst G; rewrite Z.pow_add_r; lia).
  change (2 ^ 52) with 4503599627370496 in *.
  change (2 ^ 53) with 9007199254740992 in *.
  pose proof (digits2_bounds pN) as [Hd1 Hd2].
  set (d := Z.pos (digits2_pos pN)) in *. fold N in Hd1, Hd2.
  assert (Hd : d = 53 + ec \/ d = 52 + ec).
  { destruct (Z.le_gt_cases d (51 + ec)) as [Hle|Hgt].
    { exfalso. assert (2 ^ d <= 2 ^ (51 + ec)) by (apply Z.pow_le_mono_r; lia).
      rewrite Hp in * by lia. change (2 ^ 51) with 2251799813685248 in *. nia. }
    destruct (Z.le_gt_cases (54 + ec) d) as [Hle|Hgt'].
    { exfalso. assert (2 ^ (54 + ec) <= 2 ^ d) by (apply Z.pow_le_mono_r; lia).
      rewrite Hp in * by lia. change (2 ^ 54) with 18014398509481984 in *. nia. }
    destruct (Z.le_gt_cases (53 + ec) d); [left|right]; lia. }
  change (Num.of_Z N) with (binary_round Num.prec Num.emax false pN 0).
  unfold binary_round. fold d.
  assert (Hfexp : fexp Num.prec Num.emax (d + 0) = d - 53)
    by (unfold fexp, emin, Num.prec, Num.emax; lia).
  rewrite Hfexp. unfold shl_align.
  destruct (d - 53 - 0) as [|q|q] eqn:Eq; [lia| |lia].
  set (mrs := SpecFloat.iter_pos shr_1 q (shr_record_of_loc N loc_Exact)).
  assert (Hfirst : shr_fexp Num.prec Num.emax N 0 loc_Exact = (mrs, Z.pos q)).
  { unfold shr_fexp, N. cbn [Zdigits2]. fold d. rewrite Hfexp, Eq. done. }
  unfold binary_round_aux. fold N. rewrite Hfirst.
  assert (Hsh : shifted N (Z.pos q) mrs).
  { change (Z.pos q) with (0 + Z.pos q). apply shifted_iter; [lia| |].
    - rewrite shr_record_of_loc_m. lia.
    - apply shifted_start. }
  destruct (round_shifted N (Z.pos q) mrs ltac:(lia) Hsh) as [Hdown Hup].
  destruct Hsh as (rho & Hrho & HN & _).
  set (M0 := shr_m mrs) in *.
  destruct Hd as [Hd|Hd].
  - (* the same binade *)
    assert (Hq : Z.pos q = ec) by lia. rewrite Hq in *. fold G in Hrho, HN, Hdown, Hup.
    assert (HM : round_nearest_even M0 (loc_of_shr_record mrs) = Z.pos mc).
    { destruct (Z.le_gt_cases (Z.pos mc * G) N) as [Hge|Hlt].
      - assert (M0 = Z.pos mc) by nia. rewrite Hdown; [done|lia].
      - assert (M0 = Z.pos mc - 1) by nia. rewrite Hup; [lia|lia]. }
    rewrite HM. apply finish_53; lia.
  - (* just below a power of two *)
    assert (Hq : Z.pos q = ec - 1) by lia. rewrite Hq in *.
    assert (HN52 : N < 4503599627370496 * G).
    { assert (E52 : 2 ^ d = 4503599627370496 * G)
        by (replace d with (52 + ec) by lia; by rewrite Hp by lia).
      lia. }
    assert (Hmc52 : Z.pos mc = 4503599627370496) by nia.
    specialize (Hlow Hmc52 ltac:(nia)).
    assert (HM0 : M0 = 9007199254740991) by nia.
    assert (HM : round_nearest_even M0 (loc_of_shr_record mrs)
                 = 9007199254740992).
    { rewrite Hup; lia. }
    rewrite HM. change 9007199254740992 with (2 ^ 53).
    rewrite finish_2_53 by lia.
    replace (ec - 1 + 1) with ec by lia. f_equal.
    apply Pos2Z.inj. rewrite Hmc52. done.
Qed.

(** *** Reading the numeral back *)

Lemma digit_not c a : is_digit c = true -> is_digit a = false -> Ascii.eqb c a = false.
Proof.
  intros Hc Ha. destruct (Ascii.eqb_spec c a) as [->|]; [|done].
  by rewrite Hc in Ha.
Qed.

Lemma before_digits c s t :
  all_digits s = true -> is_digit c = false ->
  before c (s +:+ t) = s +:+ before c t.
Proof.
  intros Hs Hc. induction s as [|a s IH]; [done|].
  cbn [all_digits] in Hs. apply andb_prop in Hs as [Ha Hs].
  rewrite !append_cons. cbn [before]. rewrite (digit_not a c) by done.
  by rewrite IH.
Qed.

Lemma after_digits c s t :
  all_digits s = true -> is_digit c = false ->
  after c (s +:+ t) = after c t.
Proof.
  intros Hs Hc. induction s as [|a s IH]; [done|].
  cbn [all_digits] in Hs. apply andb_prop in Hs as [Ha Hs].
  rewrite !append_cons. cbn [after]. rewrite (digit_not a c) by done.
  by rewrite IH.
Qed.

Lemma substring_all s : String.substring 0 (String.length s) s = s.
Proof. induction s as [|a s IH]; [done|]. cbn. by rewrite IH. Qed.

Lemma append_empty s : s +:+ "" = s.
Proof. induction s as [|a s IH]; [done|]. by rewrite append_cons, IH. Qed.

Ltac read_step c :=
  repeat (progress
    (cbn [before after String.length];
     rewrite ?(digit_not c "e"), ?(digit_not c ".") by done;
     change (Ascii.eqb "e" "e") with true;
     change (Ascii.eqb "." "e") with false;
     change (Ascii.eqb "." ".") with true;
     cbv iota)).

(** The numeral in exponent notation of the digits [ds] at the exponent
    [n - 1] spells the integer of the digits, with all but the first
    after the point. *)
Lemma read_exponent_form c r n :
  is_digit c = true -> all_digits r = true -> 1 <= n ->
  let ds := String c r in
  let k := Z.of_nat (String.length ds) in
  let str :=
    if k =? 1 then ds +:+ ("e+" +:+ pretty (n - 1))
    else String.substring 0 1 ds +:+ "." +:+
         String.substring 1 (Z.to_nat (k - 1)) ds +:+ ("e+" +:+ pretty (n - 1)) in
  String.eqb str "Infinity" = false /\
  read_digits 0 (before "e" str) = read_digits 0 ds /\
  Z.of_nat (String.length (after "." (before "e" str))) = k - 1 /\
  read_exponent (after "e" str) = n - 1.
Proof.
  intros Hc Hr Hn. cbv zeta.
  assert (He : is_digit "e" = false) by done.
  assert (Hp : is_digit "." = false) by done.
  assert (Hex : read_exponent ("+" +:+ pretty (n - 1)) = n - 1).
  { change (read_exponent ("+" +:+ pretty (n - 1)))
      with (read_digits 0 (String "+" (pretty (n - 1)))).
    cbn [read_digits]. change (digit_of "+") with (@None Z). cbv iota.
    apply read_pretty_Z. lia. }
  cbn [String.length]. rewrite Nat2Z.inj_succ.
  destruct (Z.eqb_spec (Z.succ (Z.of_nat (String.length r))) 1) as [E|E].
  - assert (r = "") as -> by (destruct r; [done|cbn [String.length] in E; lia]).
    change (String c "" +:+ ("e+" +:+ pretty (n - 1)))
      with (String c (String "e" ("+" +:+ pretty (n - 1)))).
    cbn [String.eqb]. rewrite (digit_not c "I") by done.
    read_step c. split; [done|]. split; [done|]. split; [lia|done].
  - replace (Z.to_nat (Z.succ (Z.of_nat (String.length r)) - 1))
      with (String.length r) by lia.
    change (String.substring 0 1 (String c r))
      with (String c (String.substring 0 0 r)).
    assert (String.substring 0 0 r = "") as -> by (by destruct r).
    change (String.substring 1 (String.length r) (String c r))
      with (String.substring 0 (String.length r) r).
    rewrite substring_all.
    change (String c "" +:+ "." +:+ r +:+ ("e+" +:+ pretty (n - 1)))
      with (String c (String "." (r +:+ String "e" ("+" +:+ pretty (n - 1))))).
    cbn [String.eqb]. rewrite (digit_not c "I") by done.
    read_step c. rewrite before_digits, after_digits by done.
    read_step c. rewrite append_empty. read_step c.
    split; [done|]. split; [|split; [lia|done]].
    cbn [read_digits]. change (digit_of ".") with (@None Z). done.
Qed.

Lemma eqb_finite y s m e :
  Num.eqb y (S754_finite s m e) = true -> y = S754_finite s m e.
Proof.
  unfold Num.eqb, SFeqb, SFcompare.
  destruct y as [sy|sy| |sy my ey]; try done; try (by destruct s);
    try (by destruct sy).
  change (PosDef.Pos.compare_cont Eq my m) with (Pos.compare my m).
  destruct sy, s; try done;
    destruct (Z.compare_spec ey e) as [->| |]; try done;
    destruct (Pos.compare_spec my m) as [->| |]; done.
Qed.

Lemma pretty_head z :
  0 < z ->
  exists c r, pretty z = String c r /\ is_digit c = true /\ all_digits r = true.
Proof.
  intros Hz. destruct (digits_pretty z ltac:(lia)) as [Hd Hne].
  destruct (pretty z) as [|c r]; [done|]. cbn [all_digits] in Hd.
  apply andb_prop in Hd as [Hc Hr]. by exists c, r.
Qed.

(** A number of at most 53 bits, from 2^69 on, in its form of exactly 53
    bits. *)
Lemma canonical_form m e :
  Z.pos m < 2 ^ 53 -> 2 ^ 69 <= Z.pos m * 2 ^ e -> 0 <= e <= 971 ->
  exists mc ec,
    2 ^ 52 <= Z.pos mc < 2 ^ 53 /\ 17 <= ec <= 971 /\
    Z.pos mc * 2 ^ ec = Z.pos m * 2 ^ e.
Proof.
  intros Hm Hv He. pose proof (digits2_bounds m) as [Hd1 Hd2].
  pose proof (digits2_le_53 m Hm) as Hd53.
  set (d := Z.pos (digits2_pos m)) in *.
  assert (Hj : 2 ^ 53 = 2 ^ d * 2 ^ (53 - d))
    by (rewrite <- Z.pow_add_r by lia; f_equal; lia).
  assert (Hjp : 0 < 2 ^ (53 - d)) by (apply Z.pow_pos_nonneg; lia).
  assert (Hdp : 0 < 2 ^ d) by (apply Z.pow_pos_nonneg; lia).
  assert (Hep : 0 < 2 ^ e) by (apply Z.pow_pos_nonneg; lia).
  assert (Hed : 70 - d <= e).
  { destruct (Z.le_gt_cases (70 - d) e) as [|Hlt]; [done|]. exfalso.
    assert (2 ^ e <= 2 ^ (69 - d)) by (apply Z.pow_le_mono_r; lia).
    assert (2 ^ 69 = 2 ^ d * 2 ^ (69 - d))
      by (rewrite <- Z.pow_add_r by lia; f_equal; lia).
    assert (0 < 2 ^ (69 - d)) by (apply Z.pow_pos_nonneg; lia). nia. }
  exists (Z.to_pos (Z.pos m * 2 ^ (53 - d))), (e - (53 - d)).
  rewrite Z2Pos.id by lia.
  assert (He2 : 2 ^ e = 2 ^ (53 - d) * 2 ^ (e - (53 - d)))
    by (rewrite <- Z.pow_add_r by lia; f_equal; lia).
  assert (H52 : 2 ^ 53 = 2 * 2 ^ 52) by done.
  split; [|split; [lia|]].
  - split; nia.
  - rewrite He2. lia.
Qed.

(** From 10^21 on the numeral Number::toString gives reads back as the
    number. *)
Lemma toString_reads_back m e :
  Z.pos m < 2 ^ 53 -> 0 <= e <= 971 -> 10 ^ 21 <= Z.pos m * 2 ^ e ->
  exists mc ec,
    read_numeral (Num.positive_toString m e) = S754_finite false mc ec /\
    0 <= ec /\ Z.pos mc * 2 ^ ec = Z.pos m * 2 ^ e.
Proof.
  intros Hm He Hv. unfold Num.positive_toString.
  assert (Hnum : Num.mag_num m e = Z.pos m * 2 ^ e)
    by (unfold Num.mag_num; by rewrite Z.max_l by lia).
  assert (Hden : Num.mag_den e = 1)
    by (unfold Num.mag_den; by rewrite Z.max_r by lia).
  rewrite Hnum, Hden. set (P := Z.pos m * 2 ^ e) in *.
  assert (HP : 0 < P) by (change (10 ^ 21) with 1000000000000000000000 in Hv; lia).
  rewrite exp10_integer by done.
  destruct (digits10_spec P HP) as (Hn0 & Hlo & Hhi).
  set (n := Num.digits10 P) in *.
  assert (Hn : 21 < n).
  { destruct (Z.le_gt_cases n 21) as [Hle|]; [|done]. exfalso.
    assert (10 ^ n <= 10 ^ 21) by (apply Z.pow_le_mono_r; lia). lia. }
  pose proof (shortest_found (S754_finite false m e) P n 16 1
                ltac:(lia) ltac:(lia) (conj Hlo Hhi) ltac:(lia)) as Hf.
  destruct (Num.shortest 16 (S754_finite false m e) P 1 n 1) as [s n'].
  cbn [fst snd] in Hf. destruct Hf as (k' & Hk' & Hdig & Hs & Hn' & Hcase).
  rewrite Hdig.
  rewrite (proj2 (Z.leb_gt n' 21)) by lia. rewrite !andb_false_r.
  rewrite (proj2 (Z.leb_gt n' 0)) by lia. rewrite andb_false_r.
  rewrite (proj2 (Z.leb_le 0 (n' - 1))) by lia.
  rewrite Z.abs_eq by lia.
  destruct (pretty_head s Hs) as (c & r & Hds & Hc & Hr).
  assert (Hlen : Z.of_nat (String.length (String c r)) = k')
    by (rewrite <- Hdig, <- Hds; done).
  rewrite Hds.
  destruct (read_exponent_form c r n' Hc Hr ltac:(lia))
    as (Hinf & Hman & Hfrac & Hexp).
  rewrite Hlen in *.
  unfold read_numeral. rewrite Hinf, Hman, Hfrac, Hexp.
  rewrite <- Hds, read_pretty_Z by lia.
  replace (n' - 1 - (k' - 1)) with (n' - k') by lia.
  destruct Hcase as [Hrt|Hnear].
  { apply eqb_finite in Hrt. exists m, e. split; [exact Hrt|]. split; [lia|done]. }
  rewrite of_dec_nonneg by lia.
  assert (H69 : 2 ^ 69 <= P).
  { change (10 ^ 21) with 1000000000000000000000 in Hv.
    change (2 ^ 69) with 590295810358705651712. lia. }
  destruct (canonical_form m e Hm H69 He) as (mc & ec & Hmc & Hec & Heq).
  fold P in Heq.
  assert (Hpw : 0 < 10 ^ (n' - k')) by (apply Z.pow_pos_nonneg; lia).
  assert (HN : 0 < s * 10 ^ (n' - k')) by nia.
  destruct (s * 10 ^ (n' - k')) as [|pN|] eqn:EN; try lia.
  assert (HT : 0 < 2 ^ ec) by (apply Z.pow_pos_nonneg; lia).
  assert (HD : 10 ^ (n - 1) = 10 ^ (n - 17) * 10 ^ 16)
    by (rewrite <- Z.pow_add_r by lia; f_equal; lia).
  change (10 ^ 16) with 10000000000000000 in HD.
  change (2 ^ 53) with 9007199254740992 in Hmc.
  change (2 ^ 52) with 4503599627370496 in Hmc.
  assert (Hup : Z.pos mc * 2 ^ ec <= 9007199254740991 * 2 ^ ec) by nia.
  exists mc, ec. split; [|split; [lia|done]].
  apply of_Z_nearest.
  - change (2 ^ 53) with 9007199254740992.
    change (2 ^ 52) with 4503599627370496. lia.
  - lia.
  - rewrite Heq. lia.
  - intros E52 Hlt. rewrite Heq.
    change (2 ^ 52) with 4503599627370496 in E52. rewrite E52 in Heq. lia.
Qed.

(** *** From 10^21 on *)

Lemma from_1e21 m e :
  Z.pos m < 2 ^ 53 ->
  below_1e21 (S754_finite false m e) = false ->
  0 <= e /\ 10 ^ 21 <= Z.pos m * 2 ^ e.
Proof.
  intros Hm Hlt. cbn [below_1e21] in Hlt. apply Z.ltb_ge in Hlt.
  unfold Num.mag_num, Num.mag_den in Hlt.
  destruct (Z.le_gt_cases 0 e) as [He|He].
  - rewrite (Z.max_r (- e) 0), (Z.max_l e 0) in Hlt by lia.
    change (2 ^ 0) with 1 in Hlt. split; [done|lia].
  - exfalso. rewrite (Z.max_r e 0) in Hlt by lia.
    rewrite (Z.max_l (- e) 0) in Hlt by lia.
    assert (1 <= 2 ^ (- e)) by (apply Z.lt_pred_le, Z.pow_pos_nonneg; lia).
    change (2 ^ 0) with 1 in Hlt. change (2 ^ 53) with 9007199254740992 in Hm.
    change (10 ^ 21) with 1000000000000000000000 in Hlt. nia.
Qed.

Lemma to_Q_whole m e :
  0 <= e -> Num.to_Q (S754_finite false m e) = inject_Z (Z.pos m * 2 ^ e).
Proof.
  intros He. unfold Num.to_Q, Num.mag_num, Num.mag_den.
  rewrite Z.max_l, Z.max_r by lia. by rewrite Z.mul_1_l.
Qed.

(** From 10^21 on a number with a significand of 53 bits is whole. *)
Lemma whole_from_1e21 m e :
  Z.pos m < 2 ^ 53 ->
  below_1e21 (S754_finite false m e) = false ->
  whole (S754_finite false m e) = true.
Proof.
  intros Hm Hlt. cbn [below_1e21 whole] in *. apply Z.ltb_ge in Hlt.
  apply Z.eqb_eq. unfold Num.mag_num, Num.mag_den in *.
  destruct (Z.le_gt_cases 0 e) as [He|He].
  - rewrite (Z.max_r (- e) 0) by lia. apply Z.mod_1_r.
  - exfalso. rewrite (Z.max_r e 0) in Hlt by lia.
    rewrite (Z.max_l (- e) 0) in Hlt by lia.
    assert (1 <= 2 ^ (- e)) by (apply Z.lt_pred_le, Z.pow_pos_nonneg; lia).
    change (2 ^ 0) with 1 in Hlt. change (2 ^ 53) with 9007199254740992 in Hm.
    change (10 ^ 21) with 1000000000000000000000 in Hlt. nia.
Qed.

(** [toFixed(1)] of a quotient of positive numbers. *)
Lemma toFixed1_rounds q :
  quotient_like q -> rounded_to_1_decimal q (VStr (Num.toFixed1 q)).
Proof.
  intros Hq. exists (Num.toFixed1 q). split; [done|].
  destruct q as [s|s| |s m e]; cbn in Hq; [subst s|subst s|done|].
  - cbn [below_1e21]. split; [done|]. by vm_compute.
  - cbn [below_1e21]. by split.
  - destruct Hq as (-> & Hm & He).
    destruct (below_1e21 (S754_finite false m e)) eqn:Hlt.
    + assert (Hs : Num.toFixed1 (S754_finite false m e)
                   = Num.fixed1 (Num.tenths m e)).
      { cbn [below_1e21] in Hlt. apply Z.ltb_lt in Hlt. cbn [Num.toFixed1].
        destruct (Z.leb_spec (10 ^ 21 * Num.mag_den e) (Num.mag_num m e));
          [lia|done]. }
      rewrite Hs. pose proof (tenths_nonneg m e).
      split; [by apply one_decimal_fixed1|].
      rewrite tenths_of_fixed1 by done. apply tenths_nearest.
    + split; [by apply whole_from_1e21|].
      destruct (from_1e21 m e Hm Hlt) as [He0 Hv].
      assert (Hs : Num.toFixed1 (S754_finite false m e)
                   = Num.positive_toString m e).
      { cbn [below_1e21] in Hlt. apply Z.ltb_ge in Hlt. cbn [Num.toFixed1].
        destruct (Z.leb_spec (10 ^ 21 * Num.mag_den e) (Num.mag_num m e));
          [done|lia]. }
      rewrite Hs.
      destruct (toString_reads_back m e Hm (conj He0 He) Hv)
        as (mc & ec & Hread & Hec & Heq).
      unfold stands_for. cbn [Num.isFinite]. rewrite Hread. split; [done|].
      by rewrite !to_Q_whole, Heq by done.
Qed.

(** C4: for valid inputs the [pace] a [Running] record is constructed
    with is the quotient [duration / distance], the binary64 division,
    rounded to one decimal place: a numeral with one fractional digit whose
    tenths are the nearest to the quotient, and from 10^21 on, where the
    quotient is a whole number, a numeral that reads as the quotient
    itself. *)
Theorem running_pace_rounded tz now coords distance duration cadence :
  validInputs [distance; duration; cadence] = true ->
  allPositive [distance; duration; cadence] = true ->
  exists pace,
    get (Running tz now coords distance duration cadence) "pace" = Ok pace /\
    rounded_to_1_decimal (Num.div duration distance) pace.
Proof.
  intros Hv Hp. simpl in Hv, Hp.
  apply andb_prop in Hv as [Hv1 Hv]. apply andb_prop in Hv as [Hv2 _].
  apply andb_prop in Hp as [Hp1 Hp]. apply andb_prop in Hp as [Hp2 _].
  exists (calcPace distance duration). split; [done|].
  apply toFixed1_rounds. apply div_quotient_like; [done|done| |].
  - by apply valid_nonneg.
  - by apply valid_not_nan.
Qed.

Lemma running_pace_rounded_witness :
  exists pace,
    get (Running (fun _ => 0) 1700000000000 VNull
           (Num.of_Z 5) (Num.of_Z 25) (Num.of_Z 180)) "pace" = Ok pace /\
    rounded_to_1_decimal (Num.div (Num.of_Z 25) (Num.of_Z 5)) pace.
Proof. apply running_pace_rounded; reflexivity. Defined.

(** C5: for valid inputs the [speed] a [Cycling] record is constructed
    with is the quotient [distance / (duration / 60)], both divisions in
    binary64, rounded to one decimal place in the same sense. *)
Theorem cycling_speed_rounded tz now coords distance duration elevation :
  validInputs [distance; duration; elevation] = true ->
  allPositive [distance; duration] = true ->
  exists speed,
    get (Cycling tz now coords distance duration elevation) "speed" = Ok speed /\
    rounded_to_1_decimal
      (Num.div distance (Num.div duration (Num.of_Z 60))) speed.
Proof.
  intros Hv Hp. simpl in Hv, Hp.
  apply andb_prop in Hv as [Hv1 Hv]. apply andb_prop in Hv as [Hv2 _].
  apply andb_prop in Hp as [Hp1 Hp]. apply andb_prop in Hp as [Hp2 _].
  exists (calcSpeed distance duration). split; [done|].
  apply toFixed1_rounds.
  assert (Hinner : quotient_like (Num.div duration (Num.of_Z 60)))
    by (by apply div_quotient_like).
  apply quotient_like_nonneg in Hinner as [Hn Hnan].
  by apply div_quotient_like.
Qed.

Lemma cycling_speed_rounded_witness :
  exists speed,
    get (Cycling (fun _ => 0) 1700000000000 VNull
           (Num.of_Z 27) (Num.of_Z 95) (Num.of_Z 523)) "speed" = Ok speed /\
    rounded_to_1_decimal
      (Num.div (Num.of_Z 27) (Num.div (Num.of_Z 95) (Num.of_Z 60))) speed.
Proof. apply cycling_speed_rounded; reflexivity. Defined.

(** The readings at the ends of the scale.  A pace of 25 min over 5 km is
    "5.0".  At duration 1e21 and distance 1 the quotient is the whole
    number 10^21 and the pace is its numeral, "1e+21", which reads as
    10^21; at duration 1e308 and distance 1e-308 the division overflows
    and the pace is "Infinity". *)
Lemma running_pace_examples :
  get (Running (fun _ => 0) 1700000000000 VNull
         (Num.of_Z 5) (Num.of_Z 25) (Num.of_Z 180)) "pace" = Ok (VStr "5.0") /\
  get (Running (fun _ => 0) 1700000000000 VNull
         (Num.of_Z 1) (Num.of_dec 1 21) (Num.of_Z 180)) "pace"
  = Ok (VStr "1e+21") /\
  (Num.to_Q (Num.div (Num.of_dec 1 21) (Num.of_Z 1)) == inject_Z (10 ^ 21))%Q /\
  (Num.to_Q (read_numeral "1e+21") == inject_Z (10 ^ 21))%Q /\
  get (Running (fun _ => 0) 1700000000000 VNull
         (Num.of_dec 1 (-308)) (Num.of_dec 1 308) (Num.of_Z 180)) "pace"
  = Ok (VStr "Infinity").
Proof.
  split; [by vm_compute|]. split; [by vm_compute|]. split; [by vm_compute|].
  split; by vm_compute.
Qed.

(** ** Identifiers *)

(** A significand of full width, or the smallest exponent, is kept as it
    is. *)
Lemma binary_round_aux_canonical s m e :
  bounded Num.prec Num.emax m e = true ->
  binary_round_aux Num.prec Num.emax s (Z.pos m) e loc_Exact
    = S754_finite s m e.
Proof.
  unfold bounded, canonical_mantissa. intros [Hc He]%andb_prop.
  apply Z.eqb_eq in Hc.
  unfold binary_round_aux, shr_fexp. simpl Zdigits2.
  rewrite Hc, Z.sub_diag. simpl. rewrite Hc, Z.sub_diag. simpl.
  by rewrite He.
Qed.

Lemma binary_round_integer s p :
  Z.pos p < 2 ^ 53 ->
  binary_round Num.prec Num.emax s p 0
  = S754_finite s (normal p) (Z.pos (digits2_pos p) - 53).
Proof.
  intros Hp. pose proof (digits2_le_53 p Hp) as Hd53.
  unfold binary_round.
  assert (Hfexp : fexp Num.prec Num.emax (Z.pos (digits2_pos p) + 0)
                  = Z.pos (digits2_pos p) - 53).
  { unfold fexp, emin, Num.prec, Num.emax. lia. }
  rewrite Hfexp. unfold shl_align, normal.
  replace (Z.pos (digits2_pos p) - 53 - 0) with (- (53 - Z.pos (digits2_pos p))) by lia.
  destruct (53 - Z.pos (digits2_pos p)) as [|k|k] eqn:Hk; simpl Z.opp; cbv iota.
  - replace (Z.pos (digits2_pos p) - 53) with 0 by lia.
    apply binary_round_aux_canonical.
    unfold bounded, canonical_mantissa, fexp, emin, Num.prec, Num.emax.
    apply andb_true_intro. split; [apply Z.eqb_eq|apply Z.leb_le]; lia.
  - apply binary_round_aux_canonical.
    unfold bounded, canonical_mantissa, fexp, emin, Num.prec, Num.emax.
    rewrite digits2_iter_xO.
    apply andb_true_intro. split; [apply Z.eqb_eq|apply Z.leb_le]; lia.
  - lia.
Qed.

Lemma of_Z_pos p :
  Z.pos p < 2 ^ 53 ->
  Num.of_Z (Z.pos p) = S754_finite false (normal p) (Z.pos (digits2_pos p) - 53).
Proof. apply binary_round_integer. Qed.

Lemma of_Z_neg p :
  Z.pos p < 2 ^ 53 ->
  Num.of_Z (Z.neg p) = S754_finite true (normal p) (Z.pos (digits2_pos p) - 53).
Proof. apply binary_round_integer. Qed.

Lemma Zpos_normal p :
  Z.pos p < 2 ^ 53 ->
  Z.pos (normal p) = Z.pos p * 2 ^ (53 - Z.pos (digits2_pos p)).
Proof.
  intros Hp. pose proof (digits2_le_53 p Hp) as Hd53. unfold normal.
  destruct (53 - Z.pos (digits2_pos p)) as [|k|k] eqn:Hk.
  - simpl. lia.
  - apply Zpos_iter_xO.
  - lia.
Qed.

Lemma to_Q_integer s p :
  Z.pos p < 2 ^ 53 ->
  (Num.to_Q (S754_finite s (normal p) (Z.pos (digits2_pos p) - 53))
   == inject_Z ((if s then -1 else 1) * Z.pos p))%Q.
Proof.
  intros Hp. pose proof (digits2_le_53 p Hp) as Hd53.
  unfold Num.to_Q, Num.mag_num, Num.mag_den.
  rewrite Zpos_normal by done.
  rewrite Z.max_r by lia.
  replace (Z.max (- (Z.pos (digits2_pos p) - 53)) 0)
    with (53 - Z.pos (digits2_pos p)) by lia.
  assert (0 < 2 ^ (53 - Z.pos (digits2_pos p))) by (apply Z.pow_pos_nonneg; lia).
  unfold Qeq, inject_Z. simpl Qnum. simpl Qden.
  rewrite Z2Pos.id by done. destruct s; lia.
Qed.

(** The number of an integer of magnitude below 2^53 is that integer. *)
Lemma of_Z_exact t :
  - 2 ^ 53 < t < 2 ^ 53 -> (Num.to_Q (Num.of_Z t) == inject_Z t)%Q.
Proof.
  intros [H0 Ht]. destruct t as [|p|p]; [done| |].
  - rewrite of_Z_pos by done. rewrite to_Q_integer by done.
    by rewrite Z.mul_1_l.
  - rewrite of_Z_neg by lia. rewrite to_Q_integer by lia.
    by replace (-1 * Z.pos p) with (Z.neg p) by lia.
Qed.

(** Of two integers below 2^53 the smaller has fewer binary digits, or as
    many and the smaller shifted significand. *)
Lemma normal_lt p q :
  Z.pos p < Z.pos q -> Z.pos q < 2 ^ 53 ->
  Z.pos (digits2_pos p) < Z.pos (digits2_pos q) \/
  (digits2_pos p = digits2_pos q /\ (normal p < normal q)%positive).
Proof.
  intros Hpq Hq.
  pose proof (digits2_bounds p) as [Hp1 Hp2].
  pose proof (digits2_bounds q) as [Hq1 Hq2].
  pose proof (digits2_le_53 q Hq) as Hd53.
  destruct (Z.compare_spec (Z.pos (digits2_pos p)) (Z.pos (digits2_pos q)))
    as [He|He|He]; [right|by left|exfalso].
  - injection He as He. split; [done|].
    change (Z.pos (normal p) < Z.pos (normal q)).
    rewrite !Zpos_normal by lia. rewrite He.
    apply Z.mul_lt_mono_pos_r; [|lia].
    apply Z.pow_pos_nonneg; lia.
  - assert (2 ^ (Z.pos (digits2_pos q) + 1) <= 2 ^ Z.pos (digits2_pos p))
      by (apply Z.pow_le_mono_r; lia).
    rewrite Z.pow_add_r in * by lia. lia.
Qed.

(** On integers of magnitude below 2^53 the order of the numbers is the
    order of the integers. *)
Lemma of_Z_lt a b :
  - 2 ^ 53 < a -> a < b -> b < 2 ^ 53 -> Num.ltb (Num.of_Z a) (Num.of_Z b) = true.
Proof.
  intros Ha Hab Hb. destruct a as [|p|p], b as [|q|q]; try lia;
    rewrite ?of_Z_pos, ?of_Z_neg by lia; try done.
  - (* both after the epoch *)
    unfold Num.ltb, SFltb, SFcompare.
    destruct (normal_lt p q) as [Hd|[Hd Hm]]; [lia..| |].
    + by rewrite (proj2 (Z.compare_lt_iff _ _)) by lia.
    + rewrite Hd, Z.compare_refl, Pos.compare_cont_spec. simpl.
      by rewrite (proj2 (Pos.compare_lt_iff _ _) Hm).
  - (* both before the epoch *)
    unfold Num.ltb, SFltb, SFcompare.
    destruct (normal_lt q p) as [Hd|[Hd Hm]]; [lia..| |].
    + by rewrite (proj2 (Z.compare_gt_iff _ _)) by lia.
    + rewrite Hd, Z.compare_refl, Pos.compare_cont_spec. simpl.
      by rewrite (proj2 (Pos.compare_gt_iff _ _) Hm).
Qed.

Lemma ltb_irrefl_eqb x y : Num.ltb x y = true -> Num.eqb x y = false.
Proof.
  unfold Num.ltb, Num.eqb, SFltb, SFeqb.
  by destruct (SFcompare x y) as [[]|].
Qed.

(** ** Persistence *)

(** Induction on values through the lists of arrays and objects. *)
Lemma value_nested_ind (P : value -> Prop) :
  P VUndefined -> P VNull -> (forall b, P (VBool b)) ->
  (forall x, P (VNum x)) -> (forall s, P (VStr s)) ->
  (forall t, P (VDate t)) ->
  (forall l, Forall P l -> P (VArr l)) ->
  (forall fs, Forall (fun kv => P (snd kv)) fs -> P (VObj fs)) ->
  forall v, P v.
Proof.
  intros Hu Hn Hb Hx Hs Hd Ha Ho. fix IH 1.
  intros [| |b|x|s|t|l|fs];
    [exact Hu|exact Hn|exact (Hb b)|exact (Hx x)|exact (Hs s)|exact (Hd t)| |].
  - apply Ha. induction l as [|v l IHl]; constructor; [apply IH|apply IHl].
  - apply Ho. induction fs as [|[k v] fs IHfs]; constructor;
      [apply IH|apply IHfs].
Qed.

Lemma set_field_fresh {A} k (v : A) fs :
  k ∉ List.map fst fs -> set_field k v fs = fs ++ [(k, v)].
Proof.
  induction fs as [|[k' v'] fs IH]; simpl; [done|].
  intros Hk. rewrite not_elem_of_cons in Hk. destruct Hk as [Hne Hk].
  rewrite bool_decide_eq_false_2 by done. by rewrite IH.
Qed.

Lemma fold_set_field {A} (l acc : list (string * A)) :
  NoDup (List.map fst (acc ++ l)) ->
  fold_left (fun a kv => set_field (fst kv) (snd kv) a) l acc = acc ++ l.
Proof.
  revert acc. induction l as [|[k v] l IH]; intros acc Hnd; simpl.
  - by rewrite app_nil_r.
  - rewrite set_field_fresh.
    + rewrite IH; rewrite <- app_assoc; done.
    + rewrite List.map_app in Hnd. apply NoDup_app in Hnd as (_ & Hdis & _).
      intros Hin. apply (Hdis k Hin). simpl. left.
Qed.

Lemma stored_num_idemp x : stored_num (stored_num x) = stored_num x.
Proof. by destruct x as [[]|[]| |[] m e]. Qed.

Lemma keys_map_snd {A B} (f : A -> B) (fs : list (string * A)) :
  List.map fst (List.map (fun kv => (fst kv, f (snd kv))) fs) = List.map fst fs.
Proof. induction fs as [|[k x] fs IH]; [done|]. simpl. by rewrite IH. Qed.

Lemma Serialize_VArr l :
  SerializeJSONProperty (VArr l)
  = Some (JArr (List.map (fun v => default JNull (SerializeJSONProperty v)) l)).
Proof. done. Qed.

Lemma Serialize_VObj fs :
  SerializeJSONProperty (VObj fs)
  = Some (JObj (omap (fun kv => pair (fst kv) <$> SerializeJSONProperty (snd kv)) fs)).
Proof. done. Qed.

Lemma internalize_JArr l : internalize (JArr l) = VArr (List.map internalize l).
Proof. done. Qed.

Lemma internalize_JObj fs :
  internalize (JObj fs)
  = VObj (fold_left (fun acc kv => set_field (fst kv) (snd kv) acc)
            (List.map (fun kv => (fst kv, internalize (snd kv))) fs) []).
Proof. done. Qed.

Lemma stored_VArr l : stored (VArr l) = VArr (List.map stored l).
Proof. done. Qed.

Lemma stored_VObj fs :
  stored (VObj fs) = VObj (List.map (fun kv => (fst kv, stored (snd kv))) fs).
Proof. done. Qed.

Lemma storable_VArr l : storable (VArr l) = forallb storable l.
Proof. done. Qed.

Lemma storable_VObj fs :
  storable (VObj fs)
  = forallb (fun kv => storable (snd kv)) fs && bool_decide (NoDup (List.map fst fs)).
Proof. done. Qed.

(** Writing a value JSON can hold and reading it back gives its stored
    form. *)
Lemma stringify_parse v :
  storable v = true ->
  exists j, SerializeJSONProperty v = Some j /\ internalize j = stored v.
Proof.
  induction v as [| |b|x|s|t|l IH|fs IH] using value_nested_ind; intros Hv;
    try done; try (eexists; split; [reflexivity|done]).
  - (* number *)
    exists (JNum (stored_num x)). simpl in *. by rewrite Hv.
  - (* array *)
    rewrite Serialize_VArr. eexists. split; [reflexivity|].
    rewrite internalize_JArr, stored_VArr. f_equal.
    rewrite storable_VArr in Hv.
    induction IH as [|x l Hx _ IHl]; [done|].
    cbn [forallb] in Hv. apply andb_prop in Hv as [Hx' Hl].
    cbn [List.map]. destruct (Hx Hx') as (j & -> & <-). cbn [default from_option id].
    f_equal. by apply IHl.
  - (* object *)
    rewrite storable_VObj in Hv.
    apply andb_prop in Hv as [Hall Hnd]. apply bool_decide_eq_true in Hnd.
    rewrite Serialize_VObj. eexists. split; [reflexivity|].
    rewrite internalize_JObj, stored_VObj. f_equal.
    assert (Hmap :
      List.map (fun kv => (fst kv, internalize (snd kv)))
        (omap (fun kv => pair (fst kv) <$> SerializeJSONProperty (snd kv)) fs)
      = List.map (fun kv => (fst kv, stored (snd kv))) fs).
    { clear Hnd. induction IH as [|[k x] fs Hx _ IHfs]; [done|].
      cbn [forallb snd] in Hall. apply andb_prop in Hall as [Hx' Hfs].
      cbn [snd] in Hx. destruct (Hx Hx') as (j & Hj & Hs).
      cbn [omap list_omap fst snd]. rewrite Hj. cbn [fmap option_fmap option_map].
      cbn [List.map fst snd]. rewrite Hs. f_equal. by apply IHfs. }
    rewrite Hmap. rewrite fold_set_field; [done|].
    rewrite app_nil_l. by rewrite keys_map_snd.
Qed.

Lemma storable_stored v : storable v = true -> storable (stored v) = true.
Proof.
  induction v as [| |b|x|s|t|l IH|fs IH] using value_nested_ind; intros Hv;
    try done.
  - by destruct x as [[]|[]| |[] m e].
  - rewrite stored_VArr, storable_VArr in *.
    induction IH as [|x l Hx _ IHl]; [done|].
    cbn [forallb List.map] in *. apply andb_prop in Hv as [Hx' Hl].
    rewrite (Hx Hx'). by apply IHl.
  - rewrite stored_VObj, storable_VObj in *.
    apply andb_prop in Hv as [Hall Hnd].
    rewrite keys_map_snd, Hnd, andb_true_r. clear Hnd.
    induction IH as [|[k x] fs Hx _ IHfs]; [done|].
    cbn [forallb List.map fst snd] in *. apply andb_prop in Hall as [Hx' Hfs].
    rewrite (Hx Hx'). by apply IHfs.
Qed.

(** Records read back from storage are read back unchanged. *)
Lemma stored_idemp v : stored (stored v) = stored v.
Proof.
  induction v as [| |b|x|s|t|l IH|fs IH] using value_nested_ind; try done.
  - simpl. by rewrite stored_num_idemp.
  - rewrite !stored_VArr. f_equal. rewrite List.map_map.
    induction IH as [|x l Hx _ IHl]; [done|].
    cbn [List.map]. by rewrite Hx, IHl.
  - rewrite !stored_VObj. f_equal. rewrite List.map_map.
    induction IH as [|[k x] fs Hx _ IHfs]; [done|].
    cbn [List.map fst snd] in *. by rewrite Hx, IHfs.
Qed.

Lemma of_Z_finite t : - 2 ^ 53 < t < 2 ^ 53 -> Num.isFinite (Num.of_Z t) = true.
Proof.
  intros [H0 Ht]. destruct t as [|p|p]; [done| |].
  - by rewrite of_Z_pos.
  - by rewrite of_Z_neg by lia.
Qed.

Lemma valid_workout_storable r : valid_workout r -> storable r = true.
Proof.
  induction 1 as [tz now coords d t c Hn Hc Hv Hp
                 |tz now coords d t e Hn Hc Hv Hp|r _ IH].
  - simpl in Hv. apply andb_prop in Hv as [Hv1 Hv].
    apply andb_prop in Hv as [Hv2 Hv]. apply andb_prop in Hv as [Hv3 _].
    unfold Running, Workout, calcPace, Date.getTime. rewrite storable_VObj.
    apply andb_true_intro. split; [|by vm_compute].
    cbn [Datatypes.app forallb snd storable].
    rewrite Hc, Hv1, Hv2, Hv3, of_Z_finite by lia. done.
  - simpl in Hv. apply andb_prop in Hv as [Hv1 Hv].
    apply andb_prop in Hv as [Hv2 Hv]. apply andb_prop in Hv as [Hv3 _].
    unfold Cycling, Workout, calcSpeed, Date.getTime. rewrite storable_VObj.
    apply andb_true_intro. split; [|by vm_compute].
    cbn [Datatypes.app forallb snd storable].
    rewrite Hc, Hv1, Hv2, Hv3, of_Z_finite by lia. done.
  - by apply storable_stored.
Qed.

(** ** Running the methods *)

Lemma bind_eq {A B} (m : M A) (k : A -> M B) w :
  (m ≫= k) w = match m w with
                | (Ok a, w') => k a w'
                | (Throw e, w') => (Throw e, w')
                end.
Proof. done. Qed.

Lemma add_calls_app a b w : add_calls b (add_calls a w) = add_calls (a ++ b) w.
Proof. unfold add_calls. simpl. by rewrite app_assoc. Qed.

Lemma add_calls_nil w : add_calls [] w = w.
Proof. destruct w. unfold add_calls. simpl. by rewrite app_nil_r. Qed.

Lemma bind_gets {A B} (f : world -> A) (k : A -> M B) w :
  (gets f ≫= k) w = k (f w) w.
Proof. done. Qed.

Lemma bind_lift_Ok {A B} (a : A) (k : A -> M B) w : (lift (Ok a) ≫= k) w = k a w.
Proof. done. Qed.

Lemma bind_lift_Throw {A B} e (k : A -> M B) w :
  (lift (Throw e) ≫= k) w = (Throw e, w).
Proof. done. Qed.

Lemma bind_ret {A B} (a : A) (k : A -> M B) w : (mret a ≫= k) w = k a w.
Proof. done. Qed.

Lemma bind_throw {A B} e (k : A -> M B) w : (mthrow e ≫= k) w = (Throw e, w).
Proof. done. Qed.

Lemma bind_do_call {B} c (k : unit -> M B) w :
  (do_call c ≫= k) w = k tt (add_calls [c] w).
Proof. done. Qed.

Lemma bind_modify_app {B} g (k : unit -> M B) w :
  (modify_app g ≫= k) w = k tt (set_app (g (app w)) w).
Proof. done. Qed.

Lemma bind_assoc {A B C} (m : M A) (f : A -> M B) (g : B -> M C) w :
  ((m ≫= f) ≫= g) w = (m ≫= fun a => f a ≫= g) w.
Proof. rewrite !bind_eq. by destruct (m w) as [[a|e] w']. Qed.

Lemma run_do_call c w : do_call c w = (Ok tt, add_calls [c] w).
Proof. done. Qed.

Lemma run_ret {A} (a : A) w : (mret a : M A) w = (Ok a, w).
Proof. done. Qed.

Lemma run_throw {A} e w : (mthrow e : M A) w = (Throw e, w).
Proof. done. Qed.

Lemma run_modify_app g w : modify_app g w = (Ok tt, set_app (g (app w)) w).
Proof. done. Qed.

Lemma app_add_calls cs w : app (add_calls cs w) = app w.
Proof. done. Qed.

Lemma app_set_app a w : app (set_app a w) = a.
Proof. done. Qed.

Create Rewrite HintDb run.

#[local] Hint Rewrite @bind_gets @bind_lift_Ok @bind_lift_Throw @bind_ret @bind_throw
  @bind_do_call @bind_modify_app @run_do_call @run_ret @run_throw
  @run_modify_app add_calls_app app_add_calls app_set_app : run.

Ltac run := repeat (progress (autorewrite with run; cbn beta iota)).

(** A submission that fails the checks of its type: one alert, nothing
    else. *)
Lemma newWorkout_running_rejected w f lat lng :
  clicked w lat lng ->
  inputType f = "running" ->
  validInputs [inputDistance f; inputDuration f; inputCadence f]
  && allPositive [inputDistance f; inputDuration f; inputCadence f] = false ->
  _newWorkout f w = (Ok tt, add_calls [preventDefault; alert alert_text] w).
Proof.
  intros (latlng & H1 & H2 & H3) Ht Hbad.
  unfold _newWorkout. run. rewrite H1. run. rewrite H2. run. rewrite H3. run.
  rewrite Ht. rewrite bool_decide_eq_true_2 by done.
  apply andb_false_iff in Hbad as [-> | ->]; simpl;
    rewrite ?orb_true_r; by run.
Qed.

Lemma newWorkout_cycling_rejected w f lat lng :
  clicked w lat lng ->
  inputType f = "cycling" ->
  validInputs [inputDistance f; inputDuration f; inputElevation f]
  && allPositive [inputDistance f; inputDuration f] = false ->
  _newWorkout f w = (Ok tt, add_calls [preventDefault; alert alert_text] w).
Proof.
  intros (latlng & H1 & H2 & H3) Ht Hbad.
  unfold _newWorkout. run. rewrite H1. run. rewrite H2. run. rewrite H3. run.
  rewrite Ht. rewrite (bool_decide_eq_false_2 ("cycling" = "running")) by done.
  rewrite bool_decide_eq_true_2 by done.
  cbn [andb]. run.
  apply andb_false_iff in Hbad as [-> | ->]; simpl;
    rewrite ?orb_true_r; by run.
Qed.

Lemma bind_run {A B} (m : M A) (k : A -> M B) w a w' :
  m w = (Ok a, w') -> (m ≫= k) w = k a w'.
Proof. intros H. by rewrite bind_eq, H. Qed.

Lemma run_setLocalStorage w :
  _setLocalStorage w
  = (Ok tt, set_localStorage
              (<["workouts" := JSON_stringify (workouts (app w))]> (localStorage w)) w).
Proof. done. Qed.

Lemma run_push x w l :
  workouts (app w) = VArr l ->
  push x w = (Ok tt, set_app (with_workouts (VArr (l ++ [x])) (app w)) w).
Proof. intros H. unfold push. run. rewrite H. by run. Qed.

(** C6: with a map click recorded, a submission with distance 0, with
    duration -1, with cadence NaN for a running workout, or with elevation
    Infinity for a cycling workout raises the alert and returns; no record
    is created, and the workouts and the stored blob are as before. *)
Theorem validation_rejects w f lat lng :
  clicked w lat lng ->
  listed_invalid f ->
  _newWorkout f w = (Ok tt, add_calls [preventDefault; alert alert_text] w) /\
  workouts (app (snd (_newWorkout f w))) = workouts (app w) /\
  localStorage (snd (_newWorkout f w)) = localStorage w.
Proof.
  intros Hc Hf.
  assert (H : _newWorkout f w
              = (Ok tt, add_calls [preventDefault; alert alert_text] w)).
  { destruct Hf as [s [Ht|Ht] Hx|[Ht|Ht] Hx|Ht Hx|Ht Hx].
    - eapply newWorkout_running_rejected; [done..|].
      apply andb_false_iff. right. simpl. rewrite Hx. by destruct s.
    - eapply newWorkout_cycling_rejected; [done..|].
      apply andb_false_iff. right. simpl. rewrite Hx. by destruct s.
    - eapply newWorkout_running_rejected; [done..|].
      apply andb_false_iff. right. simpl. rewrite Hx.
      by rewrite andb_false_r.
    - eapply newWorkout_cycling_rejected; [done..|].
      apply andb_false_iff. right. simpl. rewrite Hx.
      by rewrite andb_false_r.
    - eapply newWorkout_running_rejected; [done..|].
      apply andb_false_iff. left. simpl. rewrite Hx.
      by rewrite !andb_false_r.
    - eapply newWorkout_cycling_rejected; [done..|].
      apply andb_false_iff. left. simpl. rewrite Hx.
      by rewrite !andb_false_r. }
  by rewrite H.
Qed.

(** C10: with a map click recorded and a type that is neither 'running'
    nor 'cycling', a submission raises no alert whatever the fields hold,
    appends [undefined] to the workouts and stores the collection, the
    entry written as [null]; the marker rendering then throws. *)
Theorem unknown_type_stores_undefined w f lat lng l :
  clicked w lat lng ->
  inputType f <> "running" ->
  inputType f <> "cycling" ->
  workouts (app w) = VArr l ->
  _newWorkout f w
  = (Throw TypeError,
     mkWorld (with_workouts (VArr (l ++ [VUndefined])) (app w))
       (<["workouts" := JSON_stringify (VArr (l ++ [VUndefined]))]> (localStorage w))
       (clock w) (tz w) (calls w ++ [preventDefault])) /\
  JSON_stringify (VArr (l ++ [VUndefined]))
  = JSONText (JArr (List.map (fun v => default JNull (SerializeJSONProperty v)) l
                    ++ [JNull])).
Proof.
  intros (latlng & H1 & H2 & H3) Hr Hcy Hl. split.
  - unfold _newWorkout. run. rewrite H1. run. rewrite H2. run. rewrite H3. run.
    rewrite !bool_decide_eq_false_2 by done. cbn [andb]. run.
    erewrite bind_run by (apply run_push; rewrite app_add_calls; exact Hl).
    erewrite bind_run by apply run_setLocalStorage.
    done.
  - unfold JSON_stringify. rewrite Serialize_VArr. by rewrite List.map_app.
Qed.

Lemma get_field o k : nullish o = false -> get o k = Ok (field o k).
Proof. by destruct o. Qed.

Lemma truthy_not_nullish v : truthy v = true -> nullish v = false.
Proof. by destruct v. Qed.

(** C9: whatever is passed as the position, the map is created with its
    view at [36.27, 49.99435] and the zoom level 17 of the application; the
    latitude and longitude read from the position go nowhere. *)
Theorem loadMap_fixed_center position w :
  mapZoomLevel (app w) = Num.of_Z 17 ->
  _loadMap position w
  = (Ok tt,
     add_calls [L_map_setView "map"
                  (VArr [VNum (Num.of_dec 3627 (-2)); VNum (Num.of_dec 4999435 (-5))])
                  (Num.of_Z 17);
                L_tileLayer_addTo tile_url tile_attribution;
                map_on "click" H_showForm]
       (set_app (with_map true (app w)) w)).
Proof.
  intros Hz. unfold _loadMap.
  assert (Hpc : exists pc,
    match position with
    | VUndefined | VNull => Ok VUndefined
    | _ => get position "coords"
    end = Ok pc) by (destruct position; simpl; eauto).
  destruct Hpc as [pc ->]. run.
  assert (Hsrc : nullish (if truthy pc then pc
                          else VObj [("latitude", VNum Num.zero);
                                     ("longitude", VNum Num.zero)]) = false).
  { destruct (truthy pc) eqn:E; [by apply truthy_not_nullish|done]. }
  rewrite !(get_field _ _ Hsrc). run. rewrite Hz.
  unfold add_calls, set_app. simpl. by rewrite <- !app_assoc.
Qed.

Lemma loadMap_fixed_center_witness :
  _loadMap (VObj [("coords", VObj [("latitude", VNum (Num.of_Z 51));
                                   ("longitude", VNum (Num.of_Z 7))])])
    (page_load ∅ 1700000000000 (fun _ => 0))
  = (Ok tt,
     add_calls [L_map_setView "map"
                  (VArr [VNum (Num.of_dec 3627 (-2)); VNum (Num.of_dec 4999435 (-5))])
                  (Num.of_Z 17);
                L_tileLayer_addTo tile_url tile_attribution;
                map_on "click" H_showForm]
       (set_app (with_map true (app (page_load ∅ 1700000000000 (fun _ => 0))))
          (page_load ∅ 1700000000000 (fun _ => 0)))).
Proof. apply loadMap_fixed_center. reflexivity. Defined.

Lemma interpolate_converts v : converts v = true -> interpolate v = Ok v.
Proof. intros H. unfold interpolate. by rewrite H. Qed.

Lemma renderable_not_nullish work : renderable work = true -> nullish work = false.
Proof. intros [Hn _]%andb_prop. by apply negb_true_iff. Qed.

Lemma run_renderWorkout work w :
  renderable work = true ->
  _renderWorkout work w
  = (Ok tt, add_calls [form_insertAdjacentHTML (entry_of work)] w).
Proof.
  intros Hr. pose proof (renderable_not_nullish _ Hr) as Hw.
  apply andb_prop in Hr as [_ Hc]. cbn [forallb] in Hc. unfold isCycling in Hc.
  apply andb_prop in Hc as [H1 Hc]. apply andb_prop in Hc as [H2 Hc].
  apply andb_prop in Hc as [H3 Hc]. apply andb_prop in Hc as [H4 Hc].
  apply andb_prop in Hc as [H5 Hc]. apply andb_prop in Hc as [H6 Hc].
  apply andb_prop in Hc as [H7 _].
  unfold _renderWorkout.
  repeat (progress (rewrite ?(get_field _ _ Hw), ?(interpolate_converts _ H1),
                      ?(interpolate_converts _ H2), ?(interpolate_converts _ H3),
                      ?(interpolate_converts _ H4), ?(interpolate_converts _ H5),
                      ?(interpolate_converts _ H6), ?(interpolate_converts _ H7);
                    run)).
  done.
Qed.

Lemma run_renderWorkoutMarker work w :
  renderable work = true ->
  map (app w) = true ->
  _renderWorkoutMarker work w
  = (Ok tt, add_calls [marker_of (markerIcon (app w)) work] w).
Proof.
  intros Hr Hm. pose proof (renderable_not_nullish _ Hr) as Hw.
  apply andb_prop in Hr as [_ Hc]. cbn [forallb] in Hc.
  apply andb_prop in Hc as [H1 Hc]. apply andb_prop in Hc as [_ Hc].
  apply andb_prop in Hc as [H3 _].
  unfold _renderWorkoutMarker.
  repeat (progress (rewrite ?(get_field _ _ Hw), ?(interpolate_converts _ H3);
                    run)).
  rewrite Hm.
  repeat (progress (rewrite ?(get_field _ _ Hw); run)).
  rewrite H1. by run.
Qed.

Lemma run_forEach_render l w :
  Forall (fun work => renderable work = true) l ->
  map (app w) = true ->
  forEach (fun work => _renderWorkout work;; _renderWorkoutMarker work) l w
  = (Ok tt, add_calls (flat_map (render_calls (markerIcon (app w))) l) w).
Proof.
  intros Hl. revert w. induction Hl as [|work l Hw _ IH]; intros w Hm.
  - simpl. by rewrite add_calls_nil.
  - cbn [forEach flat_map]. rewrite bind_assoc.
    erewrite bind_run by (by apply run_renderWorkout).
    erewrite bind_run by (by apply run_renderWorkoutMarker).
    rewrite IH by done. by run.
Qed.

Lemma preserves_bind {A B X} (f : world -> X) (m : M A) (k : A -> M B) :
  preserves f m -> (forall a, preserves f (k a)) -> preserves f (m ≫= k).
Proof.
  intros Hm Hk w. rewrite bind_eq. specialize (Hm w).
  destruct (m w) as [[a|e] w']; simpl in *; [by rewrite Hk|done].
Qed.

Lemma preserves_pure {A X} (f : world -> X) (r : result A) : preserves f (lift r).
Proof. done. Qed.

Lemma preserves_gets {A X} (f : world -> X) (g : world -> A) : preserves f (gets g).
Proof. done. Qed.

Lemma preserves_forEach {A X} (f : world -> X) (g : A -> M unit) l :
  (forall a, preserves f (g a)) -> preserves f (forEach g l).
Proof.
  intros Hg. induction l as [|a l IH]; [done|].
  cbn [forEach]. apply preserves_bind; [apply Hg|done].
Qed.

Section Frame.

Context {X : Type} (f : world -> X).
Hypothesis f_calls : forall c w, f (add_calls [c] w) = f w.

Lemma renderWorkout_preserves work : preserves f (_renderWorkout work).
Proof.
  unfold _renderWorkout.
  repeat (apply preserves_bind; [apply preserves_pure|intros ?]).
  intros w. apply f_calls.
Qed.

Lemma renderWorkoutMarker_preserves work :
  preserves f (_renderWorkoutMarker work).
Proof.
  unfold _renderWorkoutMarker.
  repeat (apply preserves_bind; [apply preserves_pure|intros ?]).
  apply preserves_bind; [apply preserves_gets|intros ?].
  apply preserves_bind; [apply preserves_gets|intros [|]]; [|done].
  apply preserves_bind; [apply preserves_pure|intros type].
  destruct (converts type); [intros w; apply f_calls|].
  apply preserves_bind; [intros w; apply f_calls|done].
Qed.

Lemma render_all_preserves l :
  preserves f
    (forEach (fun work => _renderWorkout work;; _renderWorkoutMarker work) l).
Proof.
  apply preserves_forEach. intros work.
  apply preserves_bind; [apply renderWorkout_preserves|intros _].
  apply renderWorkoutMarker_preserves.
Qed.
End Frame.

Lemma getLocalStorage_preserves_localStorage : preserves localStorage _getLocalStorage.
Proof.
  unfold _getLocalStorage.
  apply preserves_bind; [done|intros item].
  apply preserves_bind; [apply preserves_pure|intros data].
  destruct (negb (truthy data)); [done|].
  apply preserves_bind; [done|intros _].
  destruct data; try done. by apply render_all_preserves.
Qed.

Lemma constructor_preserves_localStorage : preserves localStorage constructor.
Proof.
  unfold constructor.
  apply preserves_bind; [|intros _].
  { by intros w. }
  apply preserves_bind; [done|intros _].
  apply preserves_bind; [apply getLocalStorage_preserves_localStorage|intros _].
  repeat (apply preserves_bind; [done|intros _]). done.
Qed.

Lemma run_loadMap_setMarkerIcon ls now z (k : unit -> M unit) :
  (_loadMap VUndefined;; _setMarkerIcon;; k tt) (page_load ls now z)
  = k tt (mkWorld (mkApp true (Num.of_Z 17) VUndefined (VArr []) icon) ls now z
            map_calls).
Proof. done. Qed.

(** C8: when the stored blob is an array of records that can be
    rendered, as every record the application has saved can, the
    constructor takes them as the workouts and renders each, list entry
    then marker, in the stored order, between creating the map and
    attaching the listeners; and whatever is stored, the constructor writes
    nothing to [localStorage]. *)
Theorem hydration_replays_without_writing ls now z js :
  ls !! "workouts" = Some (JSONText (JArr js)) ->
  Forall (fun j => renderable (internalize j) = true) js ->
  constructor (page_load ls now z)
  = (Ok tt, started (List.map internalize js) ls now z) /\
  forall w, localStorage (snd (constructor w)) = localStorage w.
Proof.
  intros Hls Hjs. split; [|apply constructor_preserves_localStorage].
  unfold constructor.
  rewrite (run_loadMap_setMarkerIcon ls now z
             (fun _ => _getLocalStorage;; _)).
  unfold _getLocalStorage, getItem. rewrite !bind_assoc. run. cbn [localStorage].
  rewrite Hls. cbn [JSON_parse]. run. rewrite internalize_JArr.
  cbn [truthy negb]. rewrite !bind_assoc. run.
  erewrite bind_run.
  2:{ apply run_forEach_render; [|done].
      clear Hls. induction Hjs as [|j js Hj _ IH]; [by constructor|].
      cbn [List.map]. constructor; [exact Hj|exact IH]. }
  run. unfold started, add_calls, set_app. simpl.
  by rewrite <- !app_assoc.
Qed.

Lemma hydration_replays_without_writing_witness :
  constructor
    (page_load
       {["workouts" := JSON_stringify (VArr [the_run; the_ride])]}
       1700000120000 (fun _ => 0))
  = (Ok tt,
     started
       (List.map internalize
          (List.map (fun v => default JNull (SerializeJSONProperty v))
             [the_run; the_ride]))
       {["workouts" := JSON_stringify (VArr [the_run; the_ride])]}
       1700000120000 (fun _ => 0)) /\
  forall w, localStorage (snd (constructor w)) = localStorage w.
Proof.
  apply hydration_replays_without_writing.
  - rewrite lookup_singleton_eq. reflexivity.
  - constructor; [reflexivity|]. constructor; [reflexivity|constructor].
Defined.

(** C2 (amended): when [localStorage] has no entry under the key, the
    constructor returns normally with no workouts, nothing rendered and the
    listeners attached. *)
Theorem startup_without_entry ls now z :
  ls !! "workouts" = None ->
  constructor (page_load ls now z) = (Ok tt, started [] ls now z).
Proof.
  intros Hls. unfold constructor.
  rewrite (run_loadMap_setMarkerIcon ls now z (fun _ => _getLocalStorage;; _)).
  unfold _getLocalStorage, getItem. rewrite !bind_assoc. run. cbn [localStorage].
  rewrite Hls. cbn [JSON_parse]. run. cbn [truthy negb]. by run.
Qed.

Lemma startup_without_entry_witness :
  constructor (page_load ∅ 1700000000000 (fun _ => 0))
  = (Ok tt, started [] ∅ 1700000000000 (fun _ => 0)).
Proof. apply startup_without_entry. apply lookup_empty. Defined.

(** C2, as stated, fails for a stored text that is not JSON: the
    constructor throws the [SyntaxError] of [JSON.parse] before the
    listeners are attached. *)
Lemma startup_with_malformed_blob :
  constructor (page_load {["workouts" := OtherText "{"]} 1700000000000 (fun _ => 0))
  = (Throw SyntaxError,
     mkWorld (mkApp true (Num.of_Z 17) VUndefined (VArr []) icon)
       {["workouts" := OtherText "{"]} 1700000000000 (fun _ => 0) map_calls).
Proof.
  unfold constructor.
  rewrite (run_loadMap_setMarkerIcon _ _ _ (fun _ => _getLocalStorage;; _)).
  unfold _getLocalStorage, getItem. rewrite !bind_assoc. run. cbn [localStorage].
  by rewrite lookup_singleton_eq.
Qed.

Lemma stored_num_of_Z t :
  - 2 ^ 53 < t < 2 ^ 53 -> stored_num (Num.of_Z t) = Num.of_Z t.
Proof.
  intros [H0 Ht]. destruct t as [|p|p]; [done| |].
  - by rewrite of_Z_pos.
  - by rewrite of_Z_neg by lia.
Qed.

Lemma stored_num_positive x :
  Num.isFinite x = true -> Num.ltb Num.zero x = true -> stored_num x = x.
Proof. intros Hf Hp. by destruct (positive_input x Hf Hp) as (m & e & ->). Qed.

(** A valid running record as read back from storage: the [date] as its
    ISO string, the coordinates in their stored form, every other property
    as constructed. *)
Lemma stored_Running tz now coords distance duration cadence :
  - 8640000000000000 <= now <= 8640000000000000 ->
  validInputs [distance; duration; cadence] = true ->
  allPositive [distance; duration; cadence] = true ->
  stored (Running tz now coords distance duration cadence)
  = VObj [("date", VStr (Date.toISOString now));
          ("id", VNum (Date.getTime now)); ("coords", stored coords);
          ("distance", VNum distance); ("duration", VNum duration);
          ("type", VStr "running"); ("cadence", VNum cadence);
          ("pace", calcPace distance duration);
          ("description", VStr (_setDescription tz "running" now))].
Proof.
  intros Hn Hv Hp. simpl in Hv, Hp.
  apply andb_prop in Hv as [Hv1 Hv]. apply andb_prop in Hv as [Hv2 Hv].
  apply andb_prop in Hv as [Hv3 _].
  apply andb_prop in Hp as [Hp1 Hp]. apply andb_prop in Hp as [Hp2 Hp].
  apply andb_prop in Hp as [Hp3 _].
  unfold Running, Workout, calcPace, Date.getTime. rewrite stored_VObj.
  cbn [Datatypes.app List.map fst snd]. cbn [stored].
  by rewrite stored_num_of_Z, !stored_num_positive by (done || lia).
Qed.

Lemma stored_Cycling tz now coords distance duration elevation :
  - 8640000000000000 <= now <= 8640000000000000 ->
  validInputs [distance; duration; elevation] = true ->
  allPositive [distance; duration] = true ->
  stored (Cycling tz now coords distance duration elevation)
  = VObj [("date", VStr (Date.toISOString now));
          ("id", VNum (Date.getTime now)); ("coords", stored coords);
          ("distance", VNum distance); ("duration", VNum duration);
          ("type", VStr "cycling"); ("elevation", VNum (stored_num elevation));
          ("speed", calcSpeed distance duration);
          ("description", VStr (_setDescription tz "cycling" now))].
Proof.
  intros Hn Hv Hp. simpl in Hv, Hp.
  apply andb_prop in Hv as [Hv1 Hv]. apply andb_prop in Hv as [Hv2 _].
  apply andb_prop in Hp as [Hp1 Hp]. apply andb_prop in Hp as [Hp2 _].
  unfold Cycling, Workout, calcSpeed, Date.getTime. rewrite stored_VObj.
  cbn [Datatypes.app List.map fst snd]. cbn [stored].
  by rewrite stored_num_of_Z, !stored_num_positive by (done || lia).
Qed.

Lemma getLocalStorage_workouts w j :
  localStorage w !! "workouts" = Some (JSONText j) ->
  truthy (internalize j) = true ->
  workouts (app (snd (_getLocalStorage w))) = internalize j.
Proof.
  intros Hls Ht. unfold _getLocalStorage, getItem. run. rewrite Hls.
  cbn [JSON_parse]. run. rewrite Ht. cbn [negb]. run.
  destruct (internalize j) as [| |b|x|s|t|l|fs]; try done.
  by rewrite (render_all_preserves (fun w => workouts (app w))).
Qed.

(** C1 (amended): saving a sequence of valid workout records and loading
    the blob returns the records in the same order, each with the same
    properties in the same order and the same values, except that a [Date]
    is a string, its ISO form, and a [-0] is [0]; saving and loading what
    was loaded returns it unchanged. *)
Theorem save_load_stored w w' rs :
  workouts (app w) = VArr rs ->
  Forall valid_workout rs ->
  localStorage w' = localStorage (snd (_setLocalStorage w)) ->
  workouts (app (snd (_getLocalStorage w'))) = VArr (List.map stored rs) /\
  List.map stored (List.map stored rs) = List.map stored rs.
Proof.
  intros Hw Hv Hls. split.
  - assert (Hst : storable (VArr rs) = true).
    { rewrite storable_VArr. clear Hw.
      induction Hv as [|r rs Hr _ IH]; [done|].
      cbn [forallb]. by rewrite (valid_workout_storable r Hr). }
    destruct (stringify_parse _ Hst) as (j & Hj & Hi).
    rewrite stored_VArr in Hi. rewrite <- Hi.
    apply getLocalStorage_workouts; [|by rewrite Hi].
    rewrite Hls, run_setLocalStorage. cbn [snd set_localStorage localStorage].
    rewrite lookup_insert_eq, Hw. unfold JSON_stringify. by rewrite Hj.
  - rewrite List.map_map. apply List.map_ext. intros r. apply stored_idemp.
Qed.

Lemma the_run_valid : valid_workout the_run.
Proof. by apply valid_Running. Qed.

Lemma one_run_workouts : workouts (app one_run) = VArr [the_run].
Proof. by vm_compute. Qed.

Lemma save_load_stored_witness :
  workouts (app (snd (_getLocalStorage (snd (_setLocalStorage one_run)))))
  = VArr (List.map stored [the_run]) /\
  List.map stored (List.map stored [the_run]) = List.map stored [the_run].
Proof.
  apply (save_load_stored one_run (snd (_setLocalStorage one_run)) [the_run]).
  - by vm_compute.
  - constructor; [|constructor]. apply valid_Running; by vm_compute.
  - reflexivity.
Defined.

(** C1, as stated, fails for the record of the session [one_run]: it is
    valid, it is saved, and what the next page load reads back is not equal
    to it: its [date] is a string. *)
Lemma save_load_changes_date :
  valid_workout the_run /\
  workouts (app one_run) = VArr [the_run] /\
  localStorage one_run !! "workouts" = Some (JSON_stringify (VArr [the_run])) /\
  workouts (app (snd (constructor
                        (page_load (localStorage one_run) 1700000060000 (fun _ => 0)))))
  <> VArr [the_run] /\
  field the_run "date" = VDate 1700000000000 /\
  field (stored the_run) "date" = VStr "2023-11-14T22:13:20.000Z".
Proof.
  split; [apply the_run_valid|]. split; [by vm_compute|].
  split; [by vm_compute|]. split; [|by vm_compute].
  assert (H : workouts (app (snd (constructor
                (page_load (localStorage one_run) 1700000060000 (fun _ => 0)))))
              = VArr [stored the_run]) by (by vm_compute).
  rewrite H. intros E. vm_compute in E. discriminate E.
Qed.

(** *** The list click *)

Lemma has_id_field id work :
  nullish work = false -> has_id id work = Ok (strict_eq_num (field work "id") id).
Proof. intros Hn. unfold has_id. by rewrite (get_field _ _ Hn). Qed.

Lemma find_cons p x l :
  find p (x :: l) = match p x with
                    | Throw e => Throw e
                    | Ok true => Ok x
                    | Ok false => find p l
                    end.
Proof. done. Qed.

Lemma find_other id l l' :
  Forall (other_id id) l -> find (has_id id) (l ++ l') = find (has_id id) l'.
Proof.
  induction 1 as [|work l [Hn Hid] _ IH]; [done|].
  rewrite <- app_comm_cons, find_cons, has_id_field, Hid; done.
Qed.

Lemma find_present id l work l' :
  Forall (other_id id) l ->
  nullish work = false ->
  strict_eq_num (field work "id") id = true ->
  find (has_id id) (l ++ work :: l') = Ok work.
Proof.
  intros Hl Hn Hid. rewrite find_other by done.
  by rewrite find_cons, has_id_field, Hid.
Qed.

Lemma find_absent id l :
  Forall (other_id id) l -> find (has_id id) l = Ok VUndefined.
Proof.
  intros Hl. rewrite <- (app_nil_r l). by rewrite find_other.
Qed.

(** A click outside every list entry does nothing. *)
Lemma moveToPopup_outside w : _moveToPopup None w = (Ok tt, w).
Proof. done. Qed.

(** A click on the entry of a record in the workouts moves the map to the
    record's coordinates. *)
Lemma moveToPopup_present w id l work l' :
  map (app w) = true ->
  workouts (app w) = VArr (l ++ work :: l') ->
  Forall (other_id id) l ->
  nullish work = false ->
  strict_eq_num (field work "id") id = true ->
  _moveToPopup (Some id) w
  = (Ok tt, add_calls [map_setView (field work "coords") (mapZoomLevel (app w))
                         true (Num.of_dec 5 (-1))] w).
Proof.
  intros Hm Hw Hl Hn Hid. unfold _moveToPopup. run. rewrite Hw.
  rewrite find_present by done. run. rewrite Hm.
  rewrite (get_field _ _ Hn). by run.
Qed.

(** A click carrying an id that no record has: [find] returns [undefined]
    and reading its [coords] throws. *)
Lemma moveToPopup_absent w id l :
  map (app w) = true ->
  workouts (app w) = VArr l ->
  Forall (other_id id) l ->
  _moveToPopup (Some id) w = (Throw TypeError, w).
Proof.
  intros Hm Hw Hl. unfold _moveToPopup. run. rewrite Hw.
  rewrite find_absent by done. run. rewrite Hm. by run.
Qed.

(** C3: in the session [one_run], a click on an element of class
    [workout] whose [data-id] is 1 throws a [TypeError]; no call reaches the
    map. *)
Theorem list_click_unknown_id_throws :
  workouts (app one_run) = VArr [the_run] /\
  has_id (Num.of_Z 1) the_run = Ok false /\
  _moveToPopup (Some (Num.of_Z 1)) one_run = (Throw TypeError, one_run).
Proof.
  split; [by vm_compute|]. split; [by vm_compute|].
  apply (moveToPopup_absent one_run (Num.of_Z 1) [the_run]);
    [by vm_compute..|].
  constructor; [|constructor]. split; by vm_compute.
Qed.

(** The same click with the record's own id moves the map to it. *)
Lemma list_click_known_id_moves :
  _moveToPopup (Some (Num.of_Z 1700000000000)) one_run
  = (Ok tt, add_calls [map_setView (field the_run "coords")
                         (mapZoomLevel (app one_run)) true (Num.of_dec 5 (-1))]
              one_run).
Proof.
  apply (moveToPopup_present one_run (Num.of_Z 1700000000000) [] the_run []).
  - by vm_compute.
  - by vm_compute.
  - constructor.
  - by vm_compute.
  - by vm_compute.
Qed.

(** *** Accepted submissions *)

Lemma run_submit_tail r l w :
  renderable r = true ->
  map (app w) = true ->
  workouts (app w) = VArr l ->
  (push r;; _setLocalStorage;; _renderWorkoutMarker r;; _renderWorkout r;;
   _hideForm) (add_calls [preventDefault] w)
  = (Ok tt, submitted r l w).
Proof.
  intros Hn Hm Hl.
  erewrite bind_run by (apply run_push; rewrite app_add_calls; exact Hl).
  erewrite bind_run by apply run_setLocalStorage.
  erewrite bind_run by (by apply run_renderWorkoutMarker).
  erewrite bind_run by (by apply run_renderWorkout).
  unfold _hideForm. run. unfold submitted, add_calls, set_app, set_localStorage.
  simpl. by rewrite <- !app_assoc.
Qed.

(** A running workout that passes the checks is constructed at the clock's
    reading, appended, stored and rendered. *)
Lemma newWorkout_running_accepted w f lat lng l :
  clicked w lat lng ->
  map (app w) = true ->
  workouts (app w) = VArr l ->
  inputType f = "running" ->
  validInputs [inputDistance f; inputDuration f; inputCadence f] = true ->
  allPositive [inputDistance f; inputDuration f; inputCadence f] = true ->
  _newWorkout f w
  = (Ok tt, submitted (Running (tz w) (clock w) (VArr [lat; lng])
                         (inputDistance f) (inputDuration f) (inputCadence f)) l w).
Proof.
  intros (latlng & H1 & H2 & H3) Hm Hl Ht Hv Hp.
  unfold _newWorkout. run. rewrite H1. run. rewrite H2. run. rewrite H3. run.
  rewrite Ht, Hv, Hp. rewrite bool_decide_eq_true_2 by done.
  rewrite (bool_decide_eq_false_2 ("running" = "cycling")) by done.
  cbn [andb orb negb]. rewrite bind_assoc. run. cbn [andb]. run.
  by apply run_submit_tail.
Qed.

Lemma newWorkout_cycling_accepted w f lat lng l :
  clicked w lat lng ->
  map (app w) = true ->
  workouts (app w) = VArr l ->
  inputType f = "cycling" ->
  validInputs [inputDistance f; inputDuration f; inputElevation f] = true ->
  allPositive [inputDistance f; inputDuration f] = true ->
  _newWorkout f w
  = (Ok tt, submitted (Cycling (tz w) (clock w) (VArr [lat; lng])
                         (inputDistance f) (inputDuration f) (inputElevation f)) l w).
Proof.
  intros (latlng & H1 & H2 & H3) Hm Hl Ht Hv Hp.
  unfold _newWorkout. run. rewrite H1. run. rewrite H2. run. rewrite H3. run.
  rewrite Ht, Hv, Hp.
  rewrite (bool_decide_eq_true_2 ("cycling" = "cycling")) by done.
  rewrite (bool_decide_eq_false_2 ("cycling" = "running")) by done.
  cbn [andb orb negb]. run. rewrite bind_assoc. run.
  by apply run_submit_tail.
Qed.

Lemma clicked_after_click :
  clicked (snd (_showForm click_36_27_49_99 (started [] ∅ 1700000000000 (fun _ => 0))))
    (VNum (Num.of_dec 3627 (-2))) (VNum (Num.of_dec 4999 (-2))).
Proof. eexists. repeat split; reflexivity. Defined.

Lemma validation_rejects_witness :
  _newWorkout (Fields "running" Num.zero (Num.of_Z 25) (Num.of_Z 180) Num.zero)
    (snd (_showForm click_36_27_49_99 (started [] ∅ 1700000000000 (fun _ => 0))))
  = (Ok tt, add_calls [preventDefault; alert alert_text]
              (snd (_showForm click_36_27_49_99
                      (started [] ∅ 1700000000000 (fun _ => 0))))) /\
  workouts (app (snd (_newWorkout
                        (Fields "running" Num.zero (Num.of_Z 25) (Num.of_Z 180) Num.zero)
                        (snd (_showForm click_36_27_49_99
                                (started [] ∅ 1700000000000 (fun _ => 0)))))))
  = workouts (app (snd (_showForm click_36_27_49_99
                          (started [] ∅ 1700000000000 (fun _ => 0))))) /\
  localStorage (snd (_newWorkout
                       (Fields "running" Num.zero (Num.of_Z 25) (Num.of_Z 180) Num.zero)
                       (snd (_showForm click_36_27_49_99
                               (started [] ∅ 1700000000000 (fun _ => 0))))))
  = localStorage (snd (_showForm click_36_27_49_99
                         (started [] ∅ 1700000000000 (fun _ => 0)))).
Proof.
  apply (validation_rejects _ _ _ _ clicked_after_click).
  apply (distance_zero _ false); [by left|reflexivity].
Defined.

Lemma unknown_type_stores_undefined_witness :
  _newWorkout (Fields "swimming" (Num.of_Z (-3)) Num.NaN Num.zero Num.Infinity)
    (snd (_showForm click_36_27_49_99 (started [] ∅ 1700000000000 (fun _ => 0))))
  = (Throw TypeError,
     mkWorld
       (with_workouts (VArr ([] ++ [VUndefined]))
          (app (snd (_showForm click_36_27_49_99
                       (started [] ∅ 1700000000000 (fun _ => 0))))))
       (<["workouts" := JSON_stringify (VArr ([] ++ [VUndefined]))]>
          (localStorage (snd (_showForm click_36_27_49_99
                                (started [] ∅ 1700000000000 (fun _ => 0))))))
       (clock (snd (_showForm click_36_27_49_99
                      (started [] ∅ 1700000000000 (fun _ => 0)))))
       (tz (snd (_showForm click_36_27_49_99
                   (started [] ∅ 1700000000000 (fun _ => 0)))))
       (calls (snd (_showForm click_36_27_49_99
                      (started [] ∅ 1700000000000 (fun _ => 0))))
        ++ [preventDefault])) /\
  JSON_stringify (VArr ([] ++ [VUndefined]))
  = JSONText (JArr (List.map (fun v => default JNull (SerializeJSONProperty v)) []
                    ++ [JNull])).
Proof.
  apply (unknown_type_stores_undefined _ _ _ _ [] clicked_after_click);
    [discriminate|discriminate|reflexivity].
Defined.

(** ** Further properties of the methods *)

(** *** The checks of a submission *)

Lemma positive_finite_checks x :
  Num.isFinite x && Num.ltb Num.zero x = true <-> positive_finite x.
Proof.
  split.
  - intros [Hf Hp]%andb_prop. by apply positive_input.
  - by intros (m & e & ->).
Qed.

(** X1: a list of inputs passes both [validInputs] and [allPositive]
    exactly when every input is a finite number above zero: NaN, the
    infinities, both zeros and the negative numbers fail. *)
Theorem checks_accept_positive_finite inputs :
  validInputs inputs && allPositive inputs = true <->
  Forall positive_finite inputs.
Proof.
  unfold validInputs, allPositive. induction inputs as [|x l IH].
  - split; [constructor|done].
  - cbn [forallb]. rewrite Forall_cons, <- IH, <- positive_finite_checks.
    rewrite !andb_true_iff. tauto.
Qed.

(** X2: with a click recorded, the map created and the workouts an array,
    a running submission is decided by distance, duration and cadence
    alone: if all three pass the checks the record is constructed at the
    clock's reading, appended, stored, rendered as marker and list entry,
    and the form is hidden; otherwise there is the alert and nothing
    else. *)
Theorem running_submission_decided w f lat lng l :
  clicked w lat lng ->
  map (app w) = true ->
  workouts (app w) = VArr l ->
  inputType f = "running" ->
  _newWorkout f w
  = if validInputs [inputDistance f; inputDuration f; inputCadence f]
       && allPositive [inputDistance f; inputDuration f; inputCadence f]
    then (Ok tt, submitted (Running (tz w) (clock w) (VArr [lat; lng])
                              (inputDistance f) (inputDuration f)
                              (inputCadence f)) l w)
    else rejected w.
Proof.
  intros Hc Hm Hl Ht.
  destruct (validInputs _ && allPositive _) eqn:E.
  - apply andb_prop in E as [Hv Hp]. by eapply newWorkout_running_accepted.
  - by eapply newWorkout_running_rejected.
Qed.

Lemma running_submission_decided_witness :
  _newWorkout run_5_25_180 after_click
  = if validInputs [inputDistance run_5_25_180; inputDuration run_5_25_180;
                    inputCadence run_5_25_180]
       && allPositive [inputDistance run_5_25_180; inputDuration run_5_25_180;
                       inputCadence run_5_25_180]
    then (Ok tt, submitted (Running (tz after_click) (clock after_click)
                              (VArr [VNum (Num.of_dec 3627 (-2));
                                     VNum (Num.of_dec 4999 (-2))])
                              (inputDistance run_5_25_180)
                              (inputDuration run_5_25_180)
                              (inputCadence run_5_25_180)) [] after_click)
    else rejected after_click.
Proof.
  apply (running_submission_decided _ _ _ _ [] clicked_after_click);
    reflexivity.
Defined.

(** X3: under the same conditions a cycling submission is decided by
    distance, duration and elevation: distance and duration must pass both
    checks, the elevation need only be finite (zero and negative
    elevations are accepted), and the cadence field is not looked at. *)
Theorem cycling_submission_decided w f lat lng l :
  clicked w lat lng ->
  map (app w) = true ->
  workouts (app w) = VArr l ->
  inputType f = "cycling" ->
  _newWorkout f w
  = if validInputs [inputDistance f; inputDuration f; inputElevation f]
       && allPositive [inputDistance f; inputDuration f]
    then (Ok tt, submitted (Cycling (tz w) (clock w) (VArr [lat; lng])
                              (inputDistance f) (inputDuration f)
                              (inputElevation f)) l w)
    else rejected w.
Proof.
  intros Hc Hm Hl Ht.
  destruct (validInputs _ && allPositive _) eqn:E.
  - apply andb_prop in E as [Hv Hp]. by eapply newWorkout_cycling_accepted.
  - by eapply newWorkout_cycling_rejected.
Qed.

Lemma cycling_submission_decided_witness :
  _newWorkout (Fields "cycling" (Num.of_Z 27) (Num.of_Z 95) Num.NaN (Num.of_Z (-40)))
    after_click
  = (Ok tt, submitted (Cycling (tz after_click) (clock after_click)
                         (VArr [VNum (Num.of_dec 3627 (-2));
                                VNum (Num.of_dec 4999 (-2))])
                         (Num.of_Z 27) (Num.of_Z 95) (Num.of_Z (-40)))
              [] after_click).
Proof.
  apply (cycling_submission_decided _
           (Fields "cycling" (Num.of_Z 27) (Num.of_Z 95) Num.NaN (Num.of_Z (-40)))
           _ _ [] clicked_after_click);
    reflexivity.
Defined.

(** X4: a submit before any click on the map throws a [TypeError] at
    [this.#mapEvent.latlng], after [preventDefault] and before any check:
    no alert, no record, nothing stored. *)
Theorem submission_without_click_throws w f :
  nullish (mapEvent (app w)) = true ->
  _newWorkout f w = (Throw TypeError, add_calls [preventDefault] w).
Proof.
  intros Hn. unfold _newWorkout. run.
  by destruct (mapEvent (app w)).
Qed.

Lemma submission_without_click_throws_witness :
  _newWorkout run_5_25_180 (started [] ∅ 1700000000000 (fun _ => 0))
  = (Throw TypeError,
     add_calls [preventDefault] (started [] ∅ 1700000000000 (fun _ => 0))).
Proof. apply submission_without_click_throws. reflexivity. Defined.

(** *** What the listeners leave alone *)

Lemma preserves_call {X} (f : world -> X) c :
  (forall c w, f (add_calls [c] w) = f w) -> preserves f (do_call c).
Proof. intros Hf w. apply Hf. Qed.

Lemma preserves_throw {A X} (f : world -> X) (e : error) :
  preserves f (mthrow e : M A).
Proof. done. Qed.

Lemma preserves_ret {A X} (f : world -> X) (a : A) : preserves f (mret a : M A).
Proof. done. Qed.

Section Listeners.

Context {X : Type} (f : world -> X).
Hypothesis f_calls : forall c w, f (add_calls [c] w) = f w.

Lemma hideForm_preserves : preserves f _hideForm.
Proof.
  unfold _hideForm.
  repeat (apply preserves_bind; [by apply preserves_call|intros _]).
  by apply preserves_call.
Qed.

Lemma moveToPopup_preserves workoutEl : preserves f (_moveToPopup workoutEl).
Proof.
  destruct workoutEl as [id|]; [|done]. unfold _moveToPopup.
  apply preserves_bind; [apply preserves_gets|intros ws].
  apply preserves_bind.
  { destruct ws; try apply preserves_throw. apply preserves_pure. }
  intros workoutObj.
  apply preserves_bind; [apply preserves_gets|intros [|]];
    [|apply preserves_throw].
  apply preserves_bind; [apply preserves_pure|intros coords].
  apply preserves_bind; [apply preserves_gets|intros zoom].
  by apply preserves_call.
Qed.

Lemma toggleElevationForm_preserves : preserves f _toggleElevationForm.
Proof.
  unfold _toggleElevationForm.
  apply preserves_bind; [by apply preserves_call|intros _].
  by apply preserves_call.
Qed.

(** The part of a submission after the checks, for what neither the
    workouts nor the stored entry can change. *)
Hypothesis f_workouts :
  forall v w, f (set_app (with_workouts v (app w)) w) = f w.
Hypothesis f_setItem :
  forall b w, f (snd (setItem "workouts" b w)) = f w.

Lemma push_preserves x : preserves f (push x).
Proof.
  unfold push. apply preserves_bind; [apply preserves_gets|intros ws].
  destruct ws; try apply preserves_throw. intros w. apply f_workouts.
Qed.

Lemma setLocalStorage_preserves : preserves f _setLocalStorage.
Proof.
  unfold _setLocalStorage.
  apply preserves_bind; [apply preserves_gets|intros ws].
  intros w. apply f_setItem.
Qed.

Lemma submit_tail_preserves x :
  preserves f (push x;; _setLocalStorage;; _renderWorkoutMarker x;;
               _renderWorkout x;; _hideForm).
Proof.
  apply preserves_bind; [apply push_preserves|intros _].
  apply preserves_bind; [apply setLocalStorage_preserves|intros _].
  apply preserves_bind; [by apply renderWorkoutMarker_preserves|intros _].
  apply preserves_bind; [by apply renderWorkout_preserves|intros _].
  apply hideForm_preserves.
Qed.

Lemma newWorkout_preserves fl : preserves f (_newWorkout fl).
Proof.
  unfold _newWorkout.
  apply preserves_bind; [by apply preserves_call|intros _].
  apply preserves_bind; [apply preserves_gets|intros mapE].
  apply preserves_bind; [apply preserves_pure|intros latlng].
  apply preserves_bind; [apply preserves_pure|intros lat].
  apply preserves_bind; [apply preserves_pure|intros lng].
  cbv zeta.
  destruct (bool_decide (inputType fl = "running") && _);
    [by apply preserves_call|].
  apply preserves_bind.
  { destruct (bool_decide (inputType fl = "running")); [|apply preserves_ret].
    apply preserves_bind; [apply preserves_gets|intros now].
    apply preserves_bind; [apply preserves_gets|intros z].
    apply preserves_ret. }
  intros workout.
  destruct (bool_decide (inputType fl = "cycling") && _);
    [by apply preserves_call|].
  apply preserves_bind.
  { destruct (bool_decide (inputType fl = "cycling")); [|apply preserves_ret].
    apply preserves_bind; [apply preserves_gets|intros now].
    apply preserves_bind; [apply preserves_gets|intros z].
    apply preserves_ret. }
  intros workout'. apply submit_tail_preserves.
Qed.

End Listeners.

(** X5: a click in the list, wherever it lands and whether or not it
    throws, changes no field of the application and nothing stored. *)
Theorem list_click_changes_nothing workoutEl w :
  app (snd (_moveToPopup workoutEl w)) = app w /\
  localStorage (snd (_moveToPopup workoutEl w)) = localStorage w.
Proof.
  split.
  - by apply (moveToPopup_preserves app).
  - by apply (moveToPopup_preserves localStorage).
Qed.

(** X6: a submit, whatever the form holds and however it ends, leaves the
    map, the zoom level, the recorded click and the marker icon as they
    were, and changes no stored entry other than the one under
    'workouts'. *)
Theorem submission_frame f w :
  map (app (snd (_newWorkout f w))) = map (app w) /\
  mapZoomLevel (app (snd (_newWorkout f w))) = mapZoomLevel (app w) /\
  mapEvent (app (snd (_newWorkout f w))) = mapEvent (app w) /\
  markerIcon (app (snd (_newWorkout f w))) = markerIcon (app w) /\
  forall k, k <> "workouts" ->
    localStorage (snd (_newWorkout f w)) !! k = localStorage w !! k.
Proof.
  repeat split.
  - by apply (newWorkout_preserves (fun w => map (app w))).
  - by apply (newWorkout_preserves (fun w => mapZoomLevel (app w))).
  - by apply (newWorkout_preserves (fun w => mapEvent (app w))).
  - by apply (newWorkout_preserves (fun w => markerIcon (app w))).
  - intros k Hk.
    apply (newWorkout_preserves (fun w => localStorage w !! k)); try done.
    intros b w'. cbn [setItem snd localStorage]. by apply lookup_insert_ne.
Qed.

(** *** Workouts and the stored entry move together *)

(** A submit ends before anything is appended, or runs the appending part
    on some value. *)
Lemma newWorkout_paths f w :
  (exists r cs, _newWorkout f w = (r, add_calls cs w)) \/
  (exists x, _newWorkout f w
             = (push x;; _setLocalStorage;; _renderWorkoutMarker x;;
                _renderWorkout x;; _hideForm) (add_calls [preventDefault] w)).
Proof.
  assert (Hend : forall r cs (o : result unit * world),
            o = (r, add_calls cs w) ->
            (exists r cs, o = (r, add_calls cs w)) \/
            (exists x, o = (push x;; _setLocalStorage;; _renderWorkoutMarker x;;
                            _renderWorkout x;; _hideForm)
                             (add_calls [preventDefault] w))) by eauto.
  assert (Htail : forall x (o : result unit * world),
            o = (push x;; _setLocalStorage;; _renderWorkoutMarker x;;
                 _renderWorkout x;; _hideForm) (add_calls [preventDefault] w) ->
            (exists r cs, o = (r, add_calls cs w)) \/
            (exists x, o = (push x;; _setLocalStorage;; _renderWorkoutMarker x;;
                            _renderWorkout x;; _hideForm)
                             (add_calls [preventDefault] w))) by eauto.
  unfold _newWorkout. run.
  destruct (get (mapEvent (app w)) "latlng") as [latlng|e]; run;
    [|by eapply Hend].
  destruct (get latlng "lat") as [lat|e]; run; [|by eapply Hend].
  destruct (get latlng "lng") as [lng|e]; run; [|by eapply Hend].
  destruct (bool_decide (inputType f = "running")) eqn:Hr; cbn [andb].
  - destruct (negb _ || negb _); run; [by eapply Hend|].
    repeat (progress (rewrite ?bind_assoc; run)).
    destruct (bool_decide (inputType f = "cycling")); cbn [andb].
    + destruct (negb _ || negb _); run; [by eapply Hend|].
      repeat (progress (rewrite ?bind_assoc; run)). by eapply Htail.
    + run. by eapply Htail.
  - run.
    destruct (bool_decide (inputType f = "cycling")); cbn [andb].
    + destruct (negb _ || negb _); run; [by eapply Hend|].
      repeat (progress (rewrite ?bind_assoc; run)). by eapply Htail.
    + run. by eapply Htail.
Qed.

Lemma submit_tail_outcome x w :
  let w' := snd ((push x;; _setLocalStorage;; _renderWorkoutMarker x;;
                  _renderWorkout x;; _hideForm) w) in
  (workouts (app w') = workouts (app w) /\ localStorage w' = localStorage w) \/
  (exists l, workouts (app w) = VArr l /\
             workouts (app w') = VArr (l ++ [x]) /\ in_sync w').
Proof.
  cbv zeta. destruct (workouts (app w)) as [| |b|n|s|t|l|fs] eqn:Hw;
    try (left;
         assert (Hout : (push x;; _setLocalStorage;; _renderWorkoutMarker x;;
                         _renderWorkout x;; _hideForm) w = (Throw TypeError, w))
           by (unfold push; rewrite bind_assoc; run; rewrite Hw; by run);
         by rewrite Hout).
  right. exists l. split; [done|].
  erewrite bind_run by (by apply run_push).
  erewrite bind_run by apply run_setLocalStorage.
  set (w2 := set_localStorage _ _).
  set (rest := _renderWorkoutMarker x;; _renderWorkout x;; _hideForm).
  assert (Happ : app (snd (rest w2)) = app w2).
  { apply (preserves_bind app); [by apply renderWorkoutMarker_preserves|].
    intros _. apply (preserves_bind app); [by apply renderWorkout_preserves|].
    intros _. by apply hideForm_preserves. }
  assert (Hls : localStorage (snd (rest w2)) = localStorage w2).
  { apply (preserves_bind localStorage);
      [by apply renderWorkoutMarker_preserves|].
    intros _.
    apply (preserves_bind localStorage); [by apply renderWorkout_preserves|].
    intros _. by apply hideForm_preserves. }
  unfold in_sync. rewrite Happ, Hls. subst w2.
  cbn [app localStorage set_localStorage set_app workouts with_workouts].
  split; [done|]. apply lookup_insert_eq.
Qed.

(** X7: a submit either leaves the workouts and everything stored as they
    were, or appends exactly one value to the workouts, the earlier ones
    untouched, and stores the collection: the stored entry is then
    [JSON.stringify] of the workouts, also when rendering throws
    afterwards. *)
Theorem submission_appends_and_stores f w :
  (workouts (app (snd (_newWorkout f w))) = workouts (app w) /\
   localStorage (snd (_newWorkout f w)) = localStorage w) \/
  (exists l x, workouts (app w) = VArr l /\
               workouts (app (snd (_newWorkout f w))) = VArr (l ++ [x]) /\
               in_sync (snd (_newWorkout f w))).
Proof.
  destruct (newWorkout_paths f w) as [(r & cs & ->)|[x ->]]; [by left|].
  destruct (submit_tail_outcome x (add_calls [preventDefault] w))
    as [H|(l & Hl & Hw & Hs)]; [by left|].
  right. by exists l, x.
Qed.

(** *** The constructor, by what is stored *)

(** The application when [_getLocalStorage] is entered. *)
Lemma run_getLocalStorage_at_start ls now z :
  constructor (page_load ls now z)
  = (_getLocalStorage;;
     do_call (addEventListener "inputType" "change" H_toggleElevationForm);;
     do_call (addEventListener "form" "submit" H_newWorkout);;
     do_call (addEventListener "containerWorkouts" "click" H_moveToPopup))
      (mkWorld (mkApp true (Num.of_Z 17) VUndefined (VArr []) icon) ls now z
         map_calls).
Proof. done. Qed.

Ltac run_all := repeat (progress (rewrite ?bind_assoc; run)).

Lemma constructor_of_falsy ls now z data :
  JSON_parse (ls !! "workouts") = Ok data ->
  truthy data = false ->
  constructor (page_load ls now z) = (Ok tt, started [] ls now z).
Proof.
  intros Hp Ht. rewrite run_getLocalStorage_at_start.
  unfold _getLocalStorage, getItem. rewrite !bind_assoc. run.
  cbn [localStorage]. rewrite Hp. run_all. rewrite Ht. cbn [negb]. by run.
Qed.

Lemma constructor_of_array ls now z l :
  JSON_parse (ls !! "workouts") = Ok (VArr l) ->
  Forall (fun work => renderable work = true) l ->
  constructor (page_load ls now z) = (Ok tt, started l ls now z).
Proof.
  intros Hp Hl. rewrite run_getLocalStorage_at_start.
  unfold _getLocalStorage, getItem. rewrite !bind_assoc. run.
  cbn [localStorage]. rewrite Hp. run_all. cbn [truthy negb]. run_all.
  erewrite bind_run by (by apply run_forEach_render).
  run. unfold started, add_calls, set_app. simpl. by rewrite <- !app_assoc.
Qed.

Lemma bind_run_Throw {A B} (m : M A) (k : A -> M B) w e w' :
  m w = (Throw e, w') -> (m ≫= k) w = (Throw e, w').
Proof. intros H. by rewrite bind_eq, H. Qed.

(** An entry that cannot be rendered: the list entry's template throws
    before anything is called. *)
Lemma run_renderWorkout_unrenderable work w :
  renderable work = false ->
  _renderWorkout work w = (Throw TypeError, w).
Proof.
  intros Hr. unfold _renderWorkout. destruct (nullish work) eqn:Hw.
  - by destruct work.
  - unfold renderable in Hr. rewrite Hw in Hr. cbn [negb andb forallb] in Hr.
    unfold isCycling in Hr. unfold interpolate.
    repeat (rewrite ?(get_field _ _ Hw); run;
            match goal with
            | |- context [converts ?v] =>
                destruct (converts v) eqn:?; [|by run]
            end).
    discriminate Hr.
Qed.

Lemma run_forEach_render_stops l x l' w :
  Forall (fun work => renderable work = true) l ->
  renderable x = false ->
  map (app w) = true ->
  forEach (fun work => _renderWorkout work;; _renderWorkoutMarker work)
    (l ++ x :: l') w
  = (Throw TypeError,
     add_calls (flat_map (render_calls (markerIcon (app w))) l) w).
Proof.
  intros Hl Hx. revert w. induction Hl as [|work l Hw _ IH]; intros w Hm.
  - cbn [Datatypes.app forEach flat_map]. rewrite add_calls_nil, bind_assoc.
    by erewrite bind_run_Throw by (by apply run_renderWorkout_unrenderable).
  - cbn [Datatypes.app forEach flat_map]. rewrite bind_assoc.
    erewrite bind_run by (by apply run_renderWorkout).
    erewrite bind_run by (by apply run_renderWorkoutMarker).
    rewrite IH by done. by run.
Qed.

Lemma constructor_of_array_stops ls now z l x l' :
  JSON_parse (ls !! "workouts") = Ok (VArr (l ++ x :: l')) ->
  Forall (fun work => renderable work = true) l ->
  renderable x = false ->
  constructor (page_load ls now z)
  = (Throw TypeError,
     mkWorld (mkApp true (Num.of_Z 17) VUndefined (VArr (l ++ x :: l')) icon)
       ls now z (map_calls ++ flat_map (render_calls icon) l)).
Proof.
  intros Hp Hl Hx. rewrite run_getLocalStorage_at_start.
  unfold _getLocalStorage, getItem. rewrite !bind_assoc. run.
  cbn [localStorage]. rewrite Hp. run_all. cbn [truthy negb]. run_all.
  erewrite bind_run_Throw by (by apply run_forEach_render_stops).
  done.
Qed.

(** X8: a stored text that is JSON for [null], [false], [0] or the empty
    string is treated like no entry: the application starts with no
    workouts and nothing rendered, and the entry stays as it is. *)
Theorem startup_with_falsy_document ls now z j :
  ls !! "workouts" = Some (JSONText j) ->
  truthy (internalize j) = false ->
  constructor (page_load ls now z) = (Ok tt, started [] ls now z).
Proof.
  intros Hls Ht. apply (constructor_of_falsy _ _ _ (internalize j)); [|done].
  by rewrite Hls.
Qed.

Lemma startup_with_falsy_document_witness :
  constructor (page_load {["workouts" := JSONText (JNum Num.zero)]}
                 1700000000000 (fun _ => 0))
  = (Ok tt, started [] {["workouts" := JSONText (JNum Num.zero)]}
              1700000000000 (fun _ => 0)).
Proof.
  apply (startup_with_falsy_document _ _ _ (JNum Num.zero));
    [apply lookup_singleton_eq|reflexivity].
Defined.

(** X9: a stored JSON document that is truthy and not an array (an
    object, a non-empty string, a number other than 0, [true]) becomes the
    value of [#workouts], and the constructor then throws a [TypeError] at
    [forEach]: nothing is rendered and no listener is attached. *)
Theorem startup_with_non_array ls now z j :
  ls !! "workouts" = Some (JSONText j) ->
  truthy (internalize j) = true ->
  (forall l, j <> JArr l) ->
  constructor (page_load ls now z)
  = (Throw TypeError,
     mkWorld (mkApp true (Num.of_Z 17) VUndefined (internalize j) icon)
       ls now z map_calls).
Proof.
  intros Hls Ht Hj. rewrite run_getLocalStorage_at_start.
  unfold _getLocalStorage, getItem. rewrite !bind_assoc. run.
  cbn [localStorage]. rewrite Hls. cbn [JSON_parse]. run_all. rewrite Ht.
  cbn [negb]. run_all.
  destruct j as [|b|x|s|l|fs]; try done. by destruct (Hj l).
Qed.

Lemma startup_with_non_array_witness :
  constructor (page_load {["workouts" := JSONText (JObj [])]}
                 1700000000000 (fun _ => 0))
  = (Throw TypeError,
     mkWorld (mkApp true (Num.of_Z 17) VUndefined (internalize (JObj [])) icon)
       {["workouts" := JSONText (JObj [])]} 1700000000000 (fun _ => 0)
       map_calls).
Proof.
  apply startup_with_non_array;
    [apply lookup_singleton_eq|reflexivity|discriminate].
Defined.

(** X10: when the stored array holds an entry that cannot be rendered
    ([null], or a record one of whose displayed fields ToString cannot
    convert, such as an object with a [toString] key of its own), the
    entries before it are rendered in order, the constructor throws a
    [TypeError] at that entry before anything of it is rendered, the
    entries after it are not rendered and no listener is attached; the whole
    array is the value of [#workouts]. *)
Theorem startup_stops_at_unrenderable_entry ls now z js j js' :
  ls !! "workouts" = Some (JSONText (JArr (js ++ j :: js'))) ->
  Forall (fun j => renderable (internalize j) = true) js ->
  renderable (internalize j) = false ->
  constructor (page_load ls now z)
  = (Throw TypeError,
     mkWorld (mkApp true (Num.of_Z 17) VUndefined
                (VArr (List.map internalize (js ++ j :: js'))) icon)
       ls now z
       (map_calls ++ flat_map (render_calls icon) (List.map internalize js))).
Proof.
  intros Hls Hjs Hj. rewrite List.map_app. cbn [List.map].
  apply constructor_of_array_stops; [| |exact Hj].
  - rewrite Hls. cbn [JSON_parse]. rewrite internalize_JArr, List.map_app.
    done.
  - clear Hls. induction Hjs as [|j0 js Hj0 _ IH]; [by constructor|].
    cbn [List.map]. constructor; [exact Hj0|exact IH].
Qed.

Lemma startup_stops_at_unrenderable_entry_witness :
  constructor
    (page_load
       {["workouts" :=
           JSONText
             (JArr ([JObj [("type", JStr "running"); ("id", JNum (Num.of_Z 7))]]
                    ++ JObj [("type", JObj [("toString", JNum Num.zero)])]
                    :: [JNull]))]}
       1700000000000 (fun _ => 0))
  = (Throw TypeError,
     mkWorld (mkApp true (Num.of_Z 17) VUndefined
                (VArr (List.map internalize
                         ([JObj [("type", JStr "running");
                                 ("id", JNum (Num.of_Z 7))]]
                          ++ JObj [("type", JObj [("toString", JNum Num.zero)])]
                          :: [JNull]))) icon)
       {["workouts" :=
           JSONText
             (JArr ([JObj [("type", JStr "running"); ("id", JNum (Num.of_Z 7))]]
                    ++ JObj [("type", JObj [("toString", JNum Num.zero)])]
                    :: [JNull]))]}
       1700000000000 (fun _ => 0)
       (map_calls
        ++ flat_map (render_calls icon)
             (List.map internalize
                [JObj [("type", JStr "running"); ("id", JNum (Num.of_Z 7))]]))).
Proof.
  apply startup_stops_at_unrenderable_entry;
    [apply lookup_singleton_eq| |reflexivity].
  constructor; [reflexivity|constructor].
Defined.

(** *** The next page load *)

(** X11: [reset] removes the entry under 'workouts' and nothing else,
    leaves the application's fields alone and reloads the page; the page
    then starts with no workouts, whatever was stored before. *)
Theorem reset_then_reload w now z :
  reset w
  = (Ok tt, add_calls [location_reload]
              (set_localStorage (delete "workouts" (localStorage w)) w)) /\
  constructor (page_load (localStorage (snd (reset w))) now z)
  = (Ok tt, started [] (delete "workouts" (localStorage w)) now z).
Proof.
  assert (H : reset w
              = (Ok tt, add_calls [location_reload]
                          (set_localStorage (delete "workouts" (localStorage w)) w)))
    by done.
  split; [done|]. rewrite H. cbn [snd add_calls set_localStorage localStorage].
  apply (constructor_of_falsy _ _ _ VNull); [|done].
  by rewrite lookup_delete_eq.
Qed.

Lemma newWorkout_accepted w f lat lng l :
  clicked w lat lng ->
  map (app w) = true ->
  workouts (app w) = VArr l ->
  passes f = true ->
  _newWorkout f w
  = (Ok tt, submitted (record (tz w) (clock w) (VArr [lat; lng]) f) l w).
Proof.
  intros Hc Hm Hl Hp. unfold passes, record in *.
  destruct (bool_decide (inputType f = "running")) eqn:Hr.
  - apply bool_decide_eq_true in Hr. apply andb_prop in Hp as [Hv Hpos].
    by eapply newWorkout_running_accepted.
  - apply andb_prop in Hp as [Hp Hpos]. apply andb_prop in Hp as [Hcy Hv].
    apply bool_decide_eq_true in Hcy. by eapply newWorkout_cycling_accepted.
Qed.

Lemma record_valid z now coords f :
  passes f = true ->
  - 8640000000000000 <= now <= 8640000000000000 ->
  storable coords = true ->
  valid_workout (record z now coords f).
Proof.
  intros Hp Hn Hc. unfold passes, record in *.
  destruct (bool_decide (inputType f = "running")).
  - apply andb_prop in Hp as [Hv Hpos]. by apply valid_Running.
  - apply andb_prop in Hp as [Hp Hpos]. apply andb_prop in Hp as [_ Hv].
    by apply valid_Cycling.
Qed.

(** The fields of a valid record that go into the markup are strings and
    numbers, before and after storage. *)
Lemma valid_workout_renderable r :
  valid_workout r -> renderable (stored r) = true.
Proof.
  induction 1 as [z now coords d t c Hn Hc Hv Hp
                 |z now coords d t e Hn Hc Hv Hp|r _ IH].
  - by rewrite stored_Running.
  - by rewrite stored_Cycling.
  - by rewrite stored_idemp.
Qed.

Lemma valid_workouts_renderable rs :
  Forall valid_workout rs ->
  Forall (fun work => renderable work = true) (List.map stored rs).
Proof.
  induction 1 as [|r rs Hr _ IH]; cbn [List.map]; constructor; [|exact IH].
  by apply valid_workout_renderable.
Qed.

Lemma valid_workouts_storable rs :
  Forall valid_workout rs -> forallb storable rs = true.
Proof.
  induction 1 as [|r rs Hr _ IH]; [done|].
  cbn [forallb]. by rewrite (valid_workout_storable r Hr).
Qed.

Lemma internalize_serialize_list l :
  forallb storable l = true ->
  List.map internalize
    (List.map (fun v => default JNull (SerializeJSONProperty v)) l)
  = List.map stored l.
Proof.
  induction l as [|v l IH]; [done|]. cbn [forallb List.map].
  intros [Hv Hl]%andb_prop. destruct (stringify_parse v Hv) as (j & -> & <-).
  cbn [default from_option id]. by rewrite IH.
Qed.

(** X12: a submission that passes the checks of its type survives the
    reload: the next page load, whenever it happens, starts with the
    earlier records and the new one, in order and in their stored form,
    renders each of them and attaches the listeners. *)
Theorem accepted_submission_survives_reload w f lat lng l now z :
  clicked w lat lng ->
  map (app w) = true ->
  workouts (app w) = VArr l ->
  Forall valid_workout l ->
  storable lat = true -> storable lng = true ->
  - 8640000000000000 <= clock w <= 8640000000000000 ->
  passes f = true ->
  constructor (page_load (localStorage (snd (_newWorkout f w))) now z)
  = (Ok tt,
     started (List.map stored (l ++ [record (tz w) (clock w) (VArr [lat; lng]) f]))
       (localStorage (snd (_newWorkout f w))) now z).
Proof.
  intros Hc Hm Hl Hv Hlat Hlng Hn Hp.
  rewrite (newWorkout_accepted _ _ _ _ _ Hc Hm Hl Hp).
  cbn [snd submitted localStorage].
  assert (Hall : Forall valid_workout
                   (l ++ [record (tz w) (clock w) (VArr [lat; lng]) f])).
  { apply Forall_app. split; [done|]. constructor; [|constructor].
    apply record_valid; [done..|]. rewrite storable_VArr. cbn [forallb].
    by rewrite Hlat, Hlng. }
  apply constructor_of_array; [|by apply valid_workouts_renderable].
  rewrite lookup_insert_eq. unfold JSON_stringify. rewrite Serialize_VArr.
  cbn [JSON_parse]. rewrite internalize_JArr.
  by rewrite internalize_serialize_list by (by apply valid_workouts_storable).
Qed.

Lemma accepted_submission_survives_reload_witness :
  constructor (page_load (localStorage (snd (_newWorkout run_5_25_180 after_click)))
                 1700000060000 (fun _ => 0))
  = (Ok tt,
     started (List.map stored
                ([] ++ [record (tz after_click) (clock after_click)
                          (VArr [VNum (Num.of_dec 3627 (-2));
                                 VNum (Num.of_dec 4999 (-2))]) run_5_25_180]))
       (localStorage (snd (_newWorkout run_5_25_180 after_click)))
       1700000060000 (fun _ => 0)).
Proof.
  apply (accepted_submission_survives_reload _ _ _ _ [] _ _ clicked_after_click);
    [reflexivity|reflexivity|constructor|reflexivity|reflexivity| |reflexivity].
  split; apply Z.leb_le; reflexivity.
Defined.

Lemma newWorkout_other_type_storage w f lat lng l :
  clicked w lat lng ->
  workouts (app w) = VArr l ->
  inputType f <> "running" ->
  inputType f <> "cycling" ->
  localStorage (snd (_newWorkout f w))
  = <["workouts" := JSON_stringify (VArr (l ++ [VUndefined]))]> (localStorage w).
Proof.
  intros (latlng & H1 & H2 & H3) Hl Hr Hcy.
  unfold _newWorkout. run. rewrite H1. run. rewrite H2. run. rewrite H3. run.
  rewrite !bool_decide_eq_false_2 by done. cbn [andb]. run.
  erewrite bind_run by (apply run_push; rewrite app_add_calls; exact Hl).
  erewrite bind_run by apply run_setLocalStorage.
  done.
Qed.

(** X13: after a submission of a type that is neither 'running' nor
    'cycling' the stored array ends in [null], and every later page load
    renders the earlier records and then throws a [TypeError] at that
    entry: the listeners of the form and of the list are never attached. *)
Theorem unknown_type_breaks_next_load w f lat lng l now z :
  clicked w lat lng ->
  workouts (app w) = VArr l ->
  Forall valid_workout l ->
  inputType f <> "running" ->
  inputType f <> "cycling" ->
  constructor (page_load (localStorage (snd (_newWorkout f w))) now z)
  = (Throw TypeError,
     mkWorld (mkApp true (Num.of_Z 17) VUndefined
                (VArr (List.map stored l ++ VNull :: [])) icon)
       (localStorage (snd (_newWorkout f w))) now z
       (map_calls ++ flat_map (render_calls icon) (List.map stored l))).
Proof.
  intros Hc Hl Hv Hr Hcy.
  rewrite (newWorkout_other_type_storage _ _ _ _ _ Hc Hl Hr Hcy).
  apply constructor_of_array_stops;
    [|by apply valid_workouts_renderable|done].
  rewrite lookup_insert_eq. unfold JSON_stringify. rewrite Serialize_VArr.
  cbn [JSON_parse]. rewrite internalize_JArr, !List.map_app.
  by rewrite internalize_serialize_list by (by apply valid_workouts_storable).
Qed.

Lemma unknown_type_breaks_next_load_witness :
  constructor
    (page_load
       (localStorage
          (snd (_newWorkout
                  (Fields "swimming" (Num.of_Z 2) (Num.of_Z 60) Num.zero Num.zero)
                  after_click)))
       1700000060000 (fun _ => 0))
  = (Throw TypeError,
     mkWorld (mkApp true (Num.of_Z 17) VUndefined
                (VArr (List.map stored [] ++ VNull :: [])) icon)
       (localStorage
          (snd (_newWorkout
                  (Fields "swimming" (Num.of_Z 2) (Num.of_Z 60) Num.zero Num.zero)
                  after_click)))
       1700000060000 (fun _ => 0)
       (map_calls ++ flat_map (render_calls icon) (List.map stored []))).
Proof.
  apply (unknown_type_breaks_next_load _ _ _ _ [] _ _ clicked_after_click);
    [reflexivity|constructor|discriminate|discriminate].
Defined.

(** X14: a valid record read back from storage gives the list entry it
    gave when it was constructed: type, id, description, distance,
    duration, pace or speed and cadence or elevation are the same values
    (an elevation of [-0], which is read back as [0], apart). *)
Theorem reloaded_entry_same r :
  valid_workout r ->
  field r "elevation" <> VNum (S754_zero true) ->
  entry_of (stored r) = entry_of r.
Proof.
  intros Hr He. destruct Hr as [z now coords d t c Hn Hc Hv Hp
                               |z now coords d t e Hn Hc Hv Hp|r Hr].
  - by rewrite stored_Running.
  - rewrite stored_Cycling by done.
    assert (Hs : stored_num e = e).
    { by destruct e as [[]|[]| |[] m x]. }
    by rewrite Hs.
  - by rewrite stored_idemp.
Qed.

Lemma reloaded_entry_same_witness : entry_of (stored the_run) = entry_of the_run.
Proof.
  apply reloaded_entry_same; [|discriminate].
  apply valid_Running; [lia|reflexivity..].
Defined.

(** *** The list click, in general *)

Lemma eqb_of_Z_refl t :
  - 2 ^ 53 < t < 2 ^ 53 -> Num.eqb (Num.of_Z t) (Num.of_Z t) = true.
Proof.
  intros [H0 Ht]. destruct t as [|p|p]; [done| |].
  - rewrite of_Z_pos by done. unfold Num.eqb, SFeqb, SFcompare.
    by rewrite Z.compare_refl, Pos.compare_refl.
  - rewrite of_Z_neg by lia. unfold Num.eqb, SFeqb, SFcompare.
    by rewrite Z.compare_refl, Pos.compare_refl.
Qed.

Lemma find_first_with_id id l :
  Forall (fun work => nullish work = false) l ->
  find (has_id id) l = Ok (default VUndefined (first_with_id id l)).
Proof.
  unfold first_with_id. induction 1 as [|work l Hw _ IH]; [done|].
  rewrite find_cons, has_id_field by done. cbn [List.find].
  by destruct (strict_eq_num (field work "id") id).
Qed.

(** X15: with the map created and the workouts an array of records, a
    click on a list entry moves the map, animated over half a second and at
    the application's zoom level, to the coordinates of the first record
    whose [id] is the entry's; if there is none it throws a [TypeError]
    and calls nothing. *)
Theorem list_click_decided w id l :
  map (app w) = true ->
  workouts (app w) = VArr l ->
  Forall (fun work => nullish work = false) l ->
  _moveToPopup (Some id) w
  = match first_with_id id l with
    | Some work =>
        (Ok tt, add_calls [map_setView (field work "coords")
                             (mapZoomLevel (app w)) true (Num.of_dec 5 (-1))] w)
    | None => (Throw TypeError, w)
    end.
Proof.
  intros Hm Hw Hl. unfold _moveToPopup. run. rewrite Hw.
  rewrite find_first_with_id by done. run. rewrite Hm.
  destruct (first_with_id id l) as [work|] eqn:E;
    cbn [default from_option Datatypes.id].
  - apply List.find_some in E as [Hin _].
    rewrite List.Forall_forall in Hl. rewrite (get_field _ _ (Hl _ Hin)).
    by run.
  - by run.
Qed.

Lemma list_click_decided_witness :
  _moveToPopup (Some (Num.of_Z 1700000000000)) one_run
  = match first_with_id (Num.of_Z 1700000000000) [the_run] with
    | Some work =>
        (Ok tt, add_calls [map_setView (field work "coords")
                             (mapZoomLevel (app one_run)) true
                             (Num.of_dec 5 (-1))] one_run)
    | None => (Throw TypeError, one_run)
    end.
Proof.
  apply list_click_decided; [reflexivity|reflexivity|].
  constructor; [reflexivity|constructor].
Defined.

(** X16: once a submission has passed the checks, a click on the entry
    it rendered (the entry carries the record's [id], the clock reading of
    the submission) moves the map to the coordinates of the map click the
    record was made from, provided no earlier record has that [id]. *)
Theorem list_click_finds_submitted w f lat lng l :
  clicked w lat lng ->
  map (app w) = true ->
  workouts (app w) = VArr l ->
  Forall (other_id (Num.of_Z (clock w))) l ->
  - 8640000000000000 <= clock w <= 8640000000000000 ->
  passes f = true ->
  _moveToPopup (Some (Num.of_Z (clock w))) (snd (_newWorkout f w))
  = (Ok tt, add_calls [map_setView (VArr [lat; lng]) (mapZoomLevel (app w))
                         true (Num.of_dec 5 (-1))]
              (snd (_newWorkout f w))).
Proof.
  intros Hc Hm Hl Ho Hn Hp.
  rewrite (newWorkout_accepted _ _ _ _ _ Hc Hm Hl Hp). cbn [snd].
  assert (Hid : field (record (tz w) (clock w) (VArr [lat; lng]) f) "id"
                = VNum (Num.of_Z (clock w)))
    by (unfold record; by destruct (bool_decide _)).
  assert (Hco : field (record (tz w) (clock w) (VArr [lat; lng]) f) "coords"
                = VArr [lat; lng])
    by (unfold record; by destruct (bool_decide _)).
  set (r := record (tz w) (clock w) (VArr [lat; lng]) f) in *.
  rewrite (moveToPopup_present _ (Num.of_Z (clock w)) l r []).
  - by rewrite Hco.
  - exact Hm.
  - done.
  - exact Ho.
  - subst r. unfold record. by destruct (bool_decide _).
  - rewrite Hid. cbn [strict_eq_num]. apply eqb_of_Z_refl. lia.
Qed.

Lemma list_click_finds_submitted_witness :
  _moveToPopup (Some (Num.of_Z (clock after_click)))
    (snd (_newWorkout run_5_25_180 after_click))
  = (Ok tt, add_calls [map_setView (VArr [VNum (Num.of_dec 3627 (-2));
                                          VNum (Num.of_dec 4999 (-2))])
                         (mapZoomLevel (app after_click)) true
                         (Num.of_dec 5 (-1))]
              (snd (_newWorkout run_5_25_180 after_click))).
Proof.
  apply (list_click_finds_submitted _ _ _ _ [] clicked_after_click);
    [reflexivity|reflexivity|constructor| |reflexivity].
  split; apply Z.leb_le; reflexivity.
Defined.

(** *** Sessions *)

Lemma preserves_modify_app {X} (f : world -> X) g :
  (forall w, f (set_app (g (app w)) w) = f w) -> preserves f (modify_app g).
Proof. intros Hf w. apply Hf. Qed.

Lemma showForm_preserves {X} (f : world -> X) mapE :
  (forall c w, f (add_calls [c] w) = f w) ->
  (forall v w, f (set_app (with_mapEvent v (app w)) w) = f w) ->
  preserves f (_showForm mapE).
Proof.
  intros Hc Hm. unfold _showForm.
  apply preserves_bind; [by apply preserves_modify_app|intros _].
  apply preserves_bind; [by apply preserves_call|intros _].
  by apply preserves_call.
Qed.

(** What no listener can change. *)
Lemma dispatch_preserves {X} (f : world -> X) e w :
  (forall c w, f (add_calls [c] w) = f w) ->
  (forall v w, f (set_app (with_workouts v (app w)) w) = f w) ->
  (forall b w, f (snd (setItem "workouts" b w)) = f w) ->
  (forall v w, f (set_app (with_mapEvent v (app w)) w) = f w) ->
  (forall now w, f (set_clock now w) = f w) ->
  f (dispatch e w) = f w.
Proof.
  intros Hc Hw Hs Hm Hk. destruct e as [mapE|now fl|workoutEl|]; cbn [dispatch].
  - by apply showForm_preserves.
  - rewrite (newWorkout_preserves f Hc Hw Hs). apply Hk.
  - by apply moveToPopup_preserves.
  - by apply toggleElevationForm_preserves.
Qed.

Lemma session_preserves {X} (f : world -> X) es w :
  (forall c w, f (add_calls [c] w) = f w) ->
  (forall v w, f (set_app (with_workouts v (app w)) w) = f w) ->
  (forall b w, f (snd (setItem "workouts" b w)) = f w) ->
  (forall v w, f (set_app (with_mapEvent v (app w)) w) = f w) ->
  (forall now w, f (set_clock now w) = f w) ->
  f (session es w) = f w.
Proof.
  intros Hc Hw Hs Hm Hk. revert w. induction es as [|e es IH]; intros w; [done|].
  unfold session in *. cbn [fold_left]. rewrite IH. by apply dispatch_preserves.
Qed.

(** An event leaves the workouts and the storage alone, or appends one
    value and stores the collection. *)
Lemma dispatch_outcome e w :
  (workouts (app (dispatch e w)) = workouts (app w) /\
   localStorage (dispatch e w) = localStorage w) \/
  (exists l x, workouts (app w) = VArr l /\
               workouts (app (dispatch e w)) = VArr (l ++ [x]) /\
               in_sync (dispatch e w)).
Proof.
  destruct e as [mapE|now fl|workoutEl|]; cbn [dispatch].
  - left. split.
    + by apply (showForm_preserves (fun w => workouts (app w))).
    + by apply (showForm_preserves localStorage).
  - destruct (newWorkout_paths fl (set_clock now w)) as [(r & cs & ->)|[x ->]];
      [by left|].
    destruct (submit_tail_outcome x (add_calls [preventDefault] (set_clock now w)))
      as [H|(l & Hl & Hw & Hs)]; [by left|].
    right. by exists l, x.
  - left. split.
    + by apply (moveToPopup_preserves (fun w => workouts (app w))).
    + by apply (moveToPopup_preserves localStorage).
  - left. split.
    + by apply (toggleElevationForm_preserves (fun w => workouts (app w))).
    + by apply (toggleElevationForm_preserves localStorage).
Qed.

Lemma session_workouts es w l :
  workouts (app w) = VArr l ->
  exists added, workouts (app (session es w)) = VArr (l ++ added).
Proof.
  revert w l. induction es as [|e es IH]; intros w l Hl.
  - exists []. by rewrite app_nil_r.
  - unfold session in *. cbn [fold_left].
    destruct (dispatch_outcome e w) as [[Hw _]|(l0 & x & Hl0 & Hw & _)].
    + apply IH. by rewrite Hw.
    + rewrite Hl in Hl0. injection Hl0 as <-.
      destruct (IH _ _ Hw) as [added Hadded].
      exists ([x] ++ added). by rewrite app_assoc.
Qed.

Lemma session_in_sync es w : in_sync w -> in_sync (session es w).
Proof.
  revert w. induction es as [|e es IH]; intros w Hs; [done|].
  unfold session in *. cbn [fold_left]. apply IH.
  destruct (dispatch_outcome e w) as [[Hw Hls]|(l & x & _ & _ & H)]; [|done].
  unfold in_sync in *. by rewrite Hw, Hls.
Qed.

Lemma session_storage es w :
  (workouts (app (session es w)) = workouts (app w) /\
   localStorage (session es w) = localStorage w) \/
  in_sync (session es w).
Proof.
  revert w. induction es as [|e es IH]; intros w; [by left|].
  unfold session in *. cbn [fold_left].
  destruct (dispatch_outcome e w) as [[Hw Hls]|(l & x & _ & _ & H)].
  - destruct (IH (dispatch e w)) as [[Hw' Hls']|H]; [left|by right].
    by rewrite Hw', Hls'.
  - right. by apply session_in_sync.
Qed.

(** X17: whatever events follow the start of the application (clicks on
    the map, submits of any form contents, clicks in the list, changes of
    the type, listeners that throw included), the map stays created, the
    zoom level stays 17, the marker icon stays the one set at the start,
    the records present at the start stay in place at the head of the
    workouts, and no stored entry other than 'workouts' changes. *)
Theorem session_keeps_map_and_records es records ls now z :
  map (app (session es (started records ls now z))) = true /\
  mapZoomLevel (app (session es (started records ls now z))) = Num.of_Z 17 /\
  markerIcon (app (session es (started records ls now z))) = icon /\
  (exists added,
     workouts (app (session es (started records ls now z)))
     = VArr (records ++ added)) /\
  forall k, k <> "workouts" ->
    localStorage (session es (started records ls now z)) !! k = ls !! k.
Proof.
  split; [by rewrite (session_preserves (fun w => map (app w)))|].
  split; [by rewrite (session_preserves (fun w => mapZoomLevel (app w)))|].
  split; [by rewrite (session_preserves (fun w => markerIcon (app w)))|].
  split; [by apply session_workouts|].
  intros k Hk. rewrite (session_preserves (fun w => localStorage w !! k)); try done.
  intros b w. cbn [setItem snd localStorage]. by apply lookup_insert_ne.
Qed.

(** X18: at every point of such a session the storage is as the page
    load found it and the workouts are the records of the start, or the
    entry under 'workouts' is [JSON.stringify] of the workouts in
    memory. *)
Theorem session_storage_follows es records ls now z :
  (workouts (app (session es (started records ls now z))) = VArr records /\
   localStorage (session es (started records ls now z)) = ls) \/
  in_sync (session es (started records ls now z)).
Proof.
  destruct (session_storage es (started records ls now z)) as [H|H];
    [by left|by right].
Qed.

(** X19: a click on the map followed by a submit that passes the checks
    appends the record of the form's type, constructed at the clock
    reading of the submit with the coordinates of that click, whatever was
    clicked before. *)
Theorem record_at_last_click w mapE latlng lat lng now f l :
  get mapE "latlng" = Ok latlng ->
  get latlng "lat" = Ok lat ->
  get latlng "lng" = Ok lng ->
  map (app w) = true ->
  workouts (app w) = VArr l ->
  passes f = true ->
  workouts (app (session [MapClick mapE; Submit now f] w))
  = VArr (l ++ [record (tz w) now (VArr [lat; lng]) f]).
Proof.
  intros H1 H2 H3 Hm Hl Hp. unfold session. cbn [fold_left dispatch].
  rewrite (newWorkout_accepted _ f lat lng l); [done| |done|done|done].
  by exists latlng.
Qed.

Lemma record_at_last_click_witness :
  workouts (app (session [MapClick click_36_27_49_99;
                          Submit 1700000000000 run_5_25_180]
                   (started [] ∅ 1690000000000 (fun _ => 0))))
  = VArr ([] ++ [record (tz (started [] ∅ 1690000000000 (fun _ => 0)))
                   1700000000000
                   (VArr [VNum (Num.of_dec 3627 (-2));
                          VNum (Num.of_dec 4999 (-2))]) run_5_25_180]).
Proof.
  apply (record_at_last_click _ click_36_27_49_99
           (VObj [("lat", VNum (Num.of_dec 3627 (-2)));
                  ("lng", VNum (Num.of_dec 4999 (-2)))]));
    reflexivity.
Defined.

(** *** Descriptions *)

Lemma doy_bounds doe :
  0 <= doe < 146097 ->
  0 <= doe - (365 * ((doe - doe / 1460 + doe / 36524 - doe / 146096) / 365)
              + (doe - doe / 1460 + doe / 36524 - doe / 146096) / 365 / 4
              - (doe - doe / 1460 + doe / 36524 - doe / 146096) / 365 / 100)
    <= 365.
Proof. intros H. Z.to_euclidean_division_equations; lia. Qed.

Lemma month_day_bounds doy :
  0 <= doy <= 365 ->
  0 <= (if (5 * doy + 2) / 153 <? 10 then (5 * doy + 2) / 153 + 3
        else (5 * doy + 2) / 153 - 9) - 1 <= 11 /\
  1 <= doy - (153 * ((5 * doy + 2) / 153) + 2) / 5 + 1 <= 31.
Proof.
  intros H. destruct (_ <? 10) eqn:E; [apply Z.ltb_lt in E|apply Z.ltb_ge in E];
    Z.to_euclidean_division_equations; lia.
Qed.

(** The month index and the day of the month of every day number. *)
Lemma civil_bounds d :
  0 <= snd (fst (Date.civil d)) <= 11 /\ 1 <= snd (Date.civil d) <= 31.
Proof.
  unfold Date.civil. cbv zeta. cbn [fst snd].
  pose proof (Z.mod_pos_bound (d + 719468) 146097 eq_refl) as Hdoe.
  revert Hdoe. generalize ((d + 719468) mod 146097). intros doe Hdoe.
  apply month_day_bounds. by apply doy_bounds.
Qed.

(** X20: for every clock reading and every offset of local time, the
    description of a record is its type with a capital first letter, the
    word 'on', one of the twelve month names and a day of the month between
    1 and 31, each on a line of its own: the month is never missing. *)
Theorem description_names_month_and_day z now coords distance duration x :
  exists month day,
    month ∈ months /\ 1 <= day <= 31 /\
    field (Running z now coords distance duration x) "description"
    = VStr ("Running" +:+ nl +:+ "      on" +:+ nl +:+ "      " +:+ month +:+
            nl +:+ "      " +:+ pretty day) /\
    field (Cycling z now coords distance duration x) "description"
    = VStr ("Cycling" +:+ nl +:+ "      on" +:+ nl +:+ "      " +:+ month +:+
            nl +:+ "      " +:+ pretty day).
Proof.
  destruct (civil_bounds (Date.Day (now + z now))) as [Hm Hd].
  fold (Date.getMonth z now) in Hm. fold (Date.getDate z now) in Hd.
  destruct (lookup_lt_is_Some_2 months (Z.to_nat (Date.getMonth z now)))
    as [month Hmonth]; [change (length months) with 12%nat; lia|].
  exists month, (Date.getDate z now).
  split; [by eapply list_elem_of_lookup_2|]. split; [done|].
  unfold Running, Cycling, Workout, field, _setDescription. rewrite Hmonth.
  split; reflexivity.
Qed.

(** *** Identifiers of the records of a session *)

Lemma SFcompare_antisym x y :
  SFcompare y x = option_map CompOpp (SFcompare x y).
Proof.
  destruct x as [sx|sx| |sx mx ex], y as [sy|sy| |sy my ey];
    try done; try (by destruct sx, sy); try (by destruct sx);
    try (by destruct sy).
  unfold SFcompare. cbn [option_map].
  change (PosDef.Pos.compare_cont Eq my mx) with (Pos.compare my mx).
  change (PosDef.Pos.compare_cont Eq mx my) with (Pos.compare mx my).
  rewrite (Z.compare_antisym ex ey), (Pos.compare_antisym mx my).
  destruct sx, sy; try done; destruct (ex ?= ey); try done;
    by destruct (mx ?= my)%positive.
Qed.

Lemma ltb_asym x y : Num.ltb x y = true -> Num.ltb y x = false.
Proof.
  unfold Num.ltb, SFltb. rewrite (SFcompare_antisym x y).
  by destruct (SFcompare x y) as [[]|].
Qed.

Lemma eqb_sym x y : Num.eqb x y = Num.eqb y x.
Proof.
  unfold Num.eqb, SFeqb. rewrite (SFcompare_antisym x y).
  by destruct (SFcompare x y) as [[]|].
Qed.

(** The numbers of two clock readings compare as the readings do. *)
Lemma ltb_of_Z a b :
  - 2 ^ 53 < a < 2 ^ 53 -> - 2 ^ 53 < b < 2 ^ 53 ->
  Num.ltb (Num.of_Z a) (Num.of_Z b) = true <-> a < b.
Proof.
  intros Ha Hb. split; [|intros Hab; apply of_Z_lt; lia].
  intros Hlt. destruct (Z.lt_trichotomy a b) as [|[->|Hba]]; [done| |].
  - apply ltb_irrefl_eqb in Hlt. by rewrite eqb_of_Z_refl in Hlt.
  - apply ltb_asym in Hlt. by rewrite of_Z_lt in Hlt by lia.
Qed.

Lemma eqb_of_Z a b :
  - 2 ^ 53 < a < 2 ^ 53 -> - 2 ^ 53 < b < 2 ^ 53 ->
  Num.eqb (Num.of_Z a) (Num.of_Z b) = true <-> a = b.
Proof.
  intros Ha Hb. split; [|intros ->; by apply eqb_of_Z_refl].
  intros Heq. destruct (Z.lt_trichotomy a b) as [Hab|[|Hba]]; [|done|].
  - by rewrite ltb_irrefl_eqb in Heq by (apply of_Z_lt; lia).
  - rewrite eqb_sym in Heq.
    by rewrite ltb_irrefl_eqb in Heq by (apply of_Z_lt; lia).
Qed.

Lemma session_app es es' w : session (es ++ es') w = session es' (session es w).
Proof. apply fold_left_app. Qed.

Lemma record_id z now coords f :
  get (record z now coords f) "id" = Ok (VNum (Num.of_Z now)).
Proof. unfold record. by destruct (bool_decide _). Qed.

(** C7 (amended): the [id] of a record is the number of the clock's
    reading, in milliseconds since the epoch, at the submit that creates
    it.  Of two records created in a session, the second after any events
    that follow the first, the later one has the greater [id] exactly when
    the clock read more at its creation, and the two [id]s are equal
    exactly when the clock read the same. *)
Theorem id_follows_timestamp w lat lng l t1 f1 es lat' lng' t2 f2 :
  clicked w lat lng ->
  map (app w) = true ->
  workouts (app w) = VArr l ->
  passes f1 = true ->
  clicked (session es (dispatch (Submit t1 f1) w)) lat' lng' ->
  passes f2 = true ->
  - 8640000000000000 <= t1 <= 8640000000000000 ->
  - 8640000000000000 <= t2 <= 8640000000000000 ->
  exists r1 added r2 i1 i2,
    workouts (app (session (Submit t1 f1 :: es ++ [Submit t2 f2]) w))
    = VArr (l ++ r1 :: added ++ [r2]) /\
    get r1 "id" = Ok (VNum i1) /\ get r2 "id" = Ok (VNum i2) /\
    (Num.to_Q i1 == inject_Z t1)%Q /\ (Num.to_Q i2 == inject_Z t2)%Q /\
    (Num.ltb i1 i2 = true <-> t1 < t2) /\
    (Num.eqb i1 i2 = true <-> t1 = t2).
Proof.
  intros Hc Hm Hl Hp1 Hc2 Hp2 Ht1 Ht2.
  set (w1 := dispatch (Submit t1 f1) w) in *.
  set (r1 := record (tz w) t1 (VArr [lat; lng]) f1).
  assert (Hw1 : w1 = submitted r1 l (set_clock t1 w)).
  { subst w1. cbn [dispatch].
    by rewrite (newWorkout_accepted (set_clock t1 w) f1 lat lng l). }
  assert (Hl1 : workouts (app w1) = VArr (l ++ [r1])) by (by rewrite Hw1).
  assert (Hm1 : map (app w1) = true) by (by rewrite Hw1).
  set (w2 := session es w1) in *.
  destruct (session_workouts es w1 _ Hl1) as [added Hl2]. fold w2 in Hl2.
  assert (Hm2 : map (app w2) = true).
  { subst w2. by rewrite (session_preserves (fun w => map (app w))). }
  set (r2 := record (tz w2) t2 (VArr [lat'; lng']) f2).
  exists r1, added, r2, (Num.of_Z t1), (Num.of_Z t2).
  split.
  { change (Submit t1 f1 :: es ++ [Submit t2 f2])
      with ([Submit t1 f1] ++ es ++ [Submit t2 f2]).
    rewrite !session_app.
    change (session [Submit t1 f1] w) with w1. fold w2.
    change (session [Submit t2 f2] w2) with (dispatch (Submit t2 f2) w2).
    cbn [dispatch].
    rewrite (newWorkout_accepted (set_clock t2 w2) f2 lat' lng'
               ((l ++ [r1]) ++ added)); [|done..].
    cbn [snd submitted app with_workouts workouts].
    by rewrite <- !app_assoc. }
  split; [apply record_id|]. split; [apply record_id|].
  split; [apply of_Z_exact; lia|]. split; [apply of_Z_exact; lia|].
  split; [apply ltb_of_Z; lia|apply eqb_of_Z; lia].
Qed.

Lemma id_follows_timestamp_witness :
  exists r1 added r2 i1 i2,
    workouts
      (app (session (Submit 1700000000000 run_5_25_180
                     :: [ListClick None; MapClick click_36_27_49_99]
                        ++ [Submit 1700000060000
                              (Fields "cycling" (Num.of_Z 27) (Num.of_Z 95)
                                 Num.NaN (Num.of_Z 523))])
              after_click))
    = VArr ([] ++ r1 :: added ++ [r2]) /\
    get r1 "id" = Ok (VNum i1) /\ get r2 "id" = Ok (VNum i2) /\
    (Num.to_Q i1 == inject_Z 1700000000000)%Q /\
    (Num.to_Q i2 == inject_Z 1700000060000)%Q /\
    (Num.ltb i1 i2 = true <-> 1700000000000 < 1700000060000) /\
    (Num.eqb i1 i2 = true <-> 1700000000000 = 1700000060000).
Proof.
  apply (id_follows_timestamp after_click
           (VNum (Num.of_dec 3627 (-2))) (VNum (Num.of_dec 4999 (-2))) []
           1700000000000 run_5_25_180
           [ListClick None; MapClick click_36_27_49_99]
           (VNum (Num.of_dec 3627 (-2))) (VNum (Num.of_dec 4999 (-2))));
    [exact clicked_after_click|reflexivity|reflexivity|reflexivity|
     |reflexivity|lia|lia].
  eexists. repeat split; reflexivity.
Defined.

(** C7, as stated, fails when the clock is set back between two submits:
    in the session of a run submitted at the reading 1700000060000 and,
    after another click on the map, a run submitted at the reading
    1700000000000, the record created later has the smaller [id]. *)
Lemma later_record_smaller_id :
  workouts
    (app (session [Submit 1700000060000 run_5_25_180;
                   MapClick click_36_27_49_99;
                   Submit 1700000000000 run_5_25_180]
            after_click))
  = VArr [record (fun _ => 0) 1700000060000
            (VArr [VNum (Num.of_dec 3627 (-2)); VNum (Num.of_dec 4999 (-2))])
            run_5_25_180;
          record (fun _ => 0) 1700000000000
            (VArr [VNum (Num.of_dec 3627 (-2)); VNum (Num.of_dec 4999 (-2))])
            run_5_25_180] /\
  get (record (fun _ => 0) 1700000060000
         (VArr [VNum (Num.of_dec 3627 (-2)); VNum (Num.of_dec 4999 (-2))])
         run_5_25_180) "id" = Ok (VNum (Num.of_Z 1700000060000)) /\
  get (record (fun _ => 0) 1700000000000
         (VArr [VNum (Num.of_dec 3627 (-2)); VNum (Num.of_dec 4999 (-2))])
         run_5_25_180) "id" = Ok (VNum (Num.of_Z 1700000000000)) /\
  Num.ltb (Num.of_Z 1700000000000) (Num.of_Z 1700000060000) = true /\
  Num.ltb (Num.of_Z 1700000060000) (Num.of_Z 1700000000000) = false.
Proof.
  split; [by vm_compute|]. split; [by vm_compute|]. split; [by vm_compute|].
  split; by vm_compute.
Qed.
